(** * Revenue report generator backend: the report aggregator of [src/index.js]

    A shallow embedding of the [POST /api/report] handler, of the two
    metafield parsers it calls, and of the order pagination loop it shares
    with [GET /api/orders], followed by the properties the specification
    states about them.

    Conventions of the embedding.
    - A JavaScript number is [NaN], an infinity, or a finite number; a finite
      double is modelled by the rational it denotes and arithmetic on finite
      numbers is exact: binary rounding, overflow and the sign of zero are
      outside the model.
    - A JavaScript string is a [string] of bytes; the ASCII part of the
      language's white space and digits is what the built-ins below know.
    - The upstream platform is an oracle: a record of functions answering
      each outbound call with a payload or with a failure.
    - [Number] of an object or of an array goes through the text the
      language gives it by default. An object of a parsed JSON text that
      has a member named [toString] of its own cannot be converted:
      [Number] throws on it, where the embedding answers [NaN]. Such
      amounts are outside the model. *)

From Stdlib Require Import ZArith QArith Qcanon Qround List String Ascii Bool Lia.
From Stdlib Require Import Permutation DecimalString DecimalZ DecimalPos.
From Stdlib Require Import Sorted.
Import ListNotations.

Set Warnings "-register-all".

Open Scope string_scope.
Open Scope Z_scope.

(** ** JavaScript values and the built-ins the handler uses *)

Module JS.

(** Numbers. *)
Inductive number : Type :=
| NaN
| PInf
| NInf
| Fin (q : Qc).

Definition zero : number := Fin (Q2Qc 0).

Definition of_Z (z : Z) : number := Fin (Q2Qc (inject_Z z)).

Definition qc_eqb (a b : Qc) : bool := Qeq_bool (this a) (this b).

Definition qc_ltb (a b : Qc) : bool :=
  match (a ?= b)%Qc with Lt => true | _ => false end.

Definition qc_is_zero (a : Qc) : bool := qc_eqb a (Q2Qc 0).

(** Same-value comparison of two numbers ([NaN] is the same value as
    [NaN]); it decides Leibniz equality, see [number_eqb_eq]. *)
Definition number_eqb (a b : number) : bool :=
  match a, b with
  | NaN, NaN => true
  | PInf, PInf => true
  | NInf, NInf => true
  | Fin x, Fin y => qc_eqb x y
  | _, _ => false
  end.

(** [a + b]. *)
Definition add (a b : number) : number :=
  match a, b with
  | NaN, _ | _, NaN => NaN
  | PInf, NInf | NInf, PInf => NaN
  | PInf, _ | _, PInf => PInf
  | NInf, _ | _, NInf => NInf
  | Fin x, Fin y => Fin (x + y)%Qc
  end.

Definition neg (a : number) : number :=
  match a with
  | NaN => NaN
  | PInf => NInf
  | NInf => PInf
  | Fin x => Fin (- x)%Qc
  end.

(** [a - b]. *)
Definition sub (a b : number) : number := add a (neg b).

(** The infinity whose sign is the product of the signs of [x] and of the
    infinity [pos]. *)
Definition inf_times (pos : bool) (x : Qc) : number :=
  if qc_is_zero x then NaN
  else if Bool.eqb pos (qc_ltb (Q2Qc 0) x) then PInf else NInf.

(** [a * b]. *)
Definition mul (a b : number) : number :=
  match a, b with
  | NaN, _ | _, NaN => NaN
  | PInf, PInf | NInf, NInf => PInf
  | PInf, NInf | NInf, PInf => NInf
  | PInf, Fin x | Fin x, PInf => inf_times true x
  | NInf, Fin x | Fin x, NInf => inf_times false x
  | Fin x, Fin y => Fin (x * y)%Qc
  end.

(** [a / b]; a zero divisor is the positive zero. *)
Definition div (a b : number) : number :=
  match a, b with
  | NaN, _ | _, NaN => NaN
  | (PInf | NInf), (PInf | NInf) => NaN
  | PInf, Fin y => if qc_ltb y (Q2Qc 0) then NInf else PInf
  | NInf, Fin y => if qc_ltb y (Q2Qc 0) then PInf else NInf
  | Fin _, (PInf | NInf) => zero
  | Fin x, Fin y =>
      if qc_is_zero y then
        if qc_is_zero x then NaN
        else if qc_ltb (Q2Qc 0) x then PInf else NInf
      else Fin (x / y)%Qc
  end.

(** [a < b]. *)
Definition ltb (a b : number) : bool :=
  match a, b with
  | NaN, _ | _, NaN => false
  | _, NInf => false
  | NInf, _ => true
  | PInf, _ => false
  | Fin _, PInf => true
  | Fin x, Fin y => qc_ltb x y
  end.

(** [a > b]. *)
Definition gtb (a b : number) : bool := ltb b a.

(** [a <= b]. *)
Definition leb (a b : number) : bool :=
  match a, b with
  | NaN, _ | _, NaN => false
  | _, _ => negb (ltb b a)
  end.

(** [Number.isNaN(a)]. *)
Definition isNaN (a : number) : bool :=
  match a with NaN => true | _ => false end.

(** Truthiness of a number: every number but [NaN] and zero. *)
Definition number_truthy (a : number) : bool :=
  match a with
  | NaN => false
  | Fin x => negb (qc_is_zero x)
  | _ => true
  end.

(** [a || b] on numbers. *)
Definition number_or (a b : number) : number :=
  if number_truthy a then a else b.

(** [Math.round(a)]: the integer nearest to [a], a tie going up. *)
Definition round (a : number) : number :=
  match a with
  | Fin x => of_Z (Qfloor (this x + (1 # 2)))
  | _ => a
  end.

(** Values: what [JSON.parse] yields, and [undefined] for an absent
    property. *)
Inductive value : Type :=
| VUndefined
| VNull
| VBool (b : bool)
| VNum (n : number)
| VStr (s : string)
| VArr (items : list value)
| VObj (fields : list (string * value)).

(** Truthiness. *)
Definition truthy (v : value) : bool :=
  match v with
  | VUndefined | VNull => false
  | VBool b => b
  | VNum n => number_truthy n
  | VStr s => negb (String.eqb s EmptyString)
  | VArr _ | VObj _ => true
  end.

(** [a || b]. *)
Definition value_or (a b : value) : value := if truthy a then a else b.

(** *** Characters *)

Definition is_digit (c : ascii) : bool :=
  let n := nat_of_ascii c in (48 <=? n)%nat && (n <=? 57)%nat.

Definition digit_val (c : ascii) : Z := Z.of_nat (nat_of_ascii c) - 48.

(** The ASCII white space and line terminators: TAB, LF, VT, FF, CR, SP. *)
Definition is_space (c : ascii) : bool :=
  let n := nat_of_ascii c in
  ((9 <=? n)%nat && (n <=? 13)%nat) || (n =? 32)%nat.

Definition is_sign (c : ascii) : bool :=
  Ascii.eqb c "+" || Ascii.eqb c "-".

Definition is_dot (c : ascii) : bool := Ascii.eqb c ".".

(** The double quote. *)
Definition dquote : ascii := ascii_of_nat 34.

Definition hex_val (c : ascii) : option Z :=
  let n := nat_of_ascii c in
  if is_digit c then Some (digit_val c)
  else if (97 <=? n)%nat && (n <=? 102)%nat then Some (Z.of_nat n - 87)
  else if (65 <=? n)%nat && (n <=? 70)%nat then Some (Z.of_nat n - 55)
  else None.

(** *** Strings *)

Fixpoint drop_spaces (s : string) : string :=
  match s with
  | String c s' => if is_space c then drop_spaces s' else s
  | EmptyString => s
  end.

Fixpoint rev_string (s : string) (acc : string) : string :=
  match s with
  | String c s' => rev_string s' (String c acc)
  | EmptyString => acc
  end.

(** [s.trim()], on ASCII white space. *)
Definition trim (s : string) : string :=
  rev_string (drop_spaces (rev_string (drop_spaces s) EmptyString)) EmptyString.

(** [s.startsWith(p)]. *)
Definition startsWith (s p : string) : bool := String.prefix p s.

(** [s.slice(0, n)]. *)
Definition slice0 (n : nat) (s : string) : string := String.substring 0 n s.

(** [s.replace(p, e)] for a one-character pattern [p] and the empty
    string [e]: the first occurrence is removed. *)
Fixpoint remove_first (p : ascii) (s : string) : string :=
  match s with
  | String c s' => if Ascii.eqb c p then s' else String c (remove_first p s')
  | EmptyString => EmptyString
  end.

(** The digits at the head of [s]: their value after the accumulator
    [acc] in base 10, how many they are, and the rest of the string. *)
Fixpoint read_digits (s : string) (acc : Z) (n : nat) : Z * nat * string :=
  match s with
  | String c s' =>
      if is_digit c then read_digits s' (10 * acc + digit_val c) (S n)
      else (acc, n, s)
  | EmptyString => (acc, n, s)
  end.

(** The digits of [s] in base [b], when [s] is made of such digits only
    and has at least one. *)
Fixpoint read_radix (b : Z) (s : string) (acc : Z) (n : nat) : option Z :=
  match s with
  | String c s' =>
      match hex_val c with
      | Some d => if d <? b then read_radix b s' (b * acc + d) (S n) else None
      | None => None
      end
  | EmptyString => match n with O => None | S _ => Some acc end
  end.

(** [m * 10^e] as a rational. *)
Definition scale10 (m e : Z) : Qc :=
  if 0 <=? e then Q2Qc (inject_Z (m * 10 ^ e))
  else Q2Qc (Qmake m (Z.to_pos (10 ^ (- e)))).

(** The optional exponent part that ends a decimal literal: [Some e] when
    [s] is empty ([e = 0]) or is [e]/[E], an optional sign and digits. *)
Definition read_exponent (s : string) : option Z :=
  match s with
  | EmptyString => Some 0
  | String c s' =>
      if Ascii.eqb c "e" || Ascii.eqb c "E" then
        let '(neg_e, s'') :=
          match s' with
          | String d t =>
              if Ascii.eqb d "-" then (true, t)
              else if Ascii.eqb d "+" then (false, t)
              else (false, s')
          | EmptyString => (false, s')
          end in
        match read_digits s'' 0 0 with
        | (e, S _, EmptyString) => Some (if neg_e then - e else e)
        | _ => None
        end
      else None
  end.

(** An unsigned decimal literal: digits, an optional fraction, an optional
    exponent; at least one digit before the exponent. *)
Definition read_unsigned_decimal (s : string) : option Qc :=
  let '(ip, ni, r1) := read_digits s 0 0 in
  let '(m, nf, r2) :=
    match r1 with
    | String c r =>
        if is_dot c then
          let '(m, nf, r2) := read_digits r ip 0 in (m, nf, r2)
        else (ip, O, r1)
    | EmptyString => (ip, O, r1)
    end in
  match (ni + nf)%nat with
  | O => None
  | S _ =>
      match read_exponent r2 with
      | Some e => Some (scale10 m (e - Z.of_nat nf))
      | None => None
      end
  end.

(** A signed decimal literal or a signed [Infinity]. *)
Definition read_decimal (s : string) : number :=
  let '(negative, body) :=
    match s with
    | String c s' =>
        if Ascii.eqb c "-" then (true, s')
        else if Ascii.eqb c "+" then (false, s')
        else (false, s)
    | EmptyString => (false, s)
    end in
  if String.eqb body "Infinity" then (if negative then NInf else PInf)
  else
    match read_unsigned_decimal body with
    | Some q => Fin (if negative then (- q)%Qc else q)
    | None => NaN
    end.

(** [Number(s)] for a string: white space is trimmed, the empty string is
    0, then a binary, octal or hexadecimal integer literal or a decimal
    literal; anything else is [NaN]. *)
Definition string_to_number (s : string) : number :=
  let t := trim s in
  match t with
  | EmptyString => zero
  | String "0" (String x r) =>
      if Ascii.eqb x "x" || Ascii.eqb x "X" then
        match read_radix 16 r 0 0 with Some z => of_Z z | None => NaN end
      else if Ascii.eqb x "o" || Ascii.eqb x "O" then
        match read_radix 8 r 0 0 with Some z => of_Z z | None => NaN end
      else if Ascii.eqb x "b" || Ascii.eqb x "B" then
        match read_radix 2 r 0 0 with Some z => of_Z z | None => NaN end
      else read_decimal t
  | _ => read_decimal t
  end.

(** [Number(v)]. An array is converted through its string form: the empty
    array is the empty string, a one-element array is the string of its
    element ([null] and [undefined] give the empty string), a longer one
    contains a comma and is no numeric literal; a plain object is
    ["[object Object]"]. *)
Fixpoint to_number (v : value) : number :=
  match v with
  | VUndefined => NaN
  | VNull => zero
  | VBool b => if b then of_Z 1 else zero
  | VNum n => n
  | VStr s => string_to_number s
  | VArr [] => zero
  | VArr [x] =>
      match x with
      | VUndefined | VNull => zero
      | VBool _ => NaN
      | _ => to_number x
      end
  | VArr _ => NaN
  | VObj _ => NaN
  end.

(** [String(z)] for an integer. *)
Definition string_of_Z (z : Z) : string :=
  NilZero.string_of_int (Z.to_int z).

(** *** Regular expressions

    The fragment the handler needs: a sequence of character classes, each
    taken once, optionally, any number of times or at least once, matched
    greedily with backtracking. *)

Inductive atom : Type :=
| One (p : ascii -> bool)
| Opt (p : ascii -> bool)
| Star (p : ascii -> bool)
| Plus (p : ascii -> bool).

Definition regex : Type := list atom.

(** The rest of [s] after the first way, in backtracking order, of
    matching [r] at the head of [s]. *)
Fixpoint match_here (r : regex) (s : string) : option string :=
  match r with
  | [] => Some s
  | One p :: r' =>
      match s with
      | String c s' => if p c then match_here r' s' else None
      | EmptyString => None
      end
  | Opt p :: r' =>
      match s with
      | String c s' =>
          if p c then
            match match_here r' s' with
            | Some rest => Some rest
            | None => match_here r' s
            end
          else match_here r' s
      | EmptyString => match_here r' s
      end
  | Star p :: r' =>
      (fix star (s : string) : option string :=
         match s with
         | String c s' =>
             if p c then
               match star s' with
               | Some rest => Some rest
               | None => match_here r' s
               end
             else match_here r' s
         | EmptyString => match_here r' s
         end) s
  | Plus p :: r' =>
      match s with
      | String c s' =>
          if p c then
            (fix star (s : string) : option string :=
               match s with
               | String c s' =>
                   if p c then
                     match star s' with
                     | Some rest => Some rest
                     | None => match_here r' s
                     end
                   else match_here r' s
               | EmptyString => match_here r' s
               end) s'
          else None
      | EmptyString => None
      end
  end.

(** The successive matches of [r] in [s], scanning left to right; after an
    empty match the scan moves one character on. *)
Fixpoint match_all (fuel : nat) (r : regex) (s : string) : list string :=
  match fuel with
  | O => []
  | S fuel' =>
      match match_here r s with
      | Some rest =>
          let m := String.substring 0 (String.length s - String.length rest) s in
          match m, s with
          | EmptyString, String _ s' => m :: match_all fuel' r s'
          | EmptyString, EmptyString => [m]
          | _, _ => m :: match_all fuel' r rest
          end
      | None =>
          match s with
          | String _ s' => match_all fuel' r s'
          | EmptyString => []
          end
      end
  end.

(** [s.match(r)] for a regular expression with the [g] flag: every match,
    or [null] when there is none. *)
Definition match_global (r : regex) (s : string) : option (list string) :=
  match match_all (S (String.length s)) r s with
  | [] => None
  | l => Some l
  end.

(** *** JSON.parse *)

(** JSON white space: SP, TAB, LF, CR. *)
Definition is_json_space (c : ascii) : bool :=
  let n := nat_of_ascii c in
  (n =? 32)%nat || (n =? 9)%nat || (n =? 10)%nat || (n =? 13)%nat.

Fixpoint skip_ws (s : string) : string :=
  match s with
  | String c s' => if is_json_space c then skip_ws s' else s
  | EmptyString => s
  end.

(** The UTF-8 bytes of the code unit [u] of a [\uXXXX] escape. *)
Definition utf8_of_unit (u : Z) (tail : string) : string :=
  let byte z := ascii_of_nat (Z.to_nat z) in
  if u <? 128 then String (byte u) tail
  else if u <? 2048 then
    String (byte (192 + u / 64)) (String (byte (128 + u mod 64)) tail)
  else
    String (byte (224 + u / 4096))
      (String (byte (128 + (u / 64) mod 64))
         (String (byte (128 + u mod 64)) tail)).

Definition hex4 (a b c d : ascii) : option Z :=
  match hex_val a, hex_val b, hex_val c, hex_val d with
  | Some x, Some y, Some z, Some w => Some (((x * 16 + y) * 16 + z) * 16 + w)
  | _, _, _, _ => None
  end.

(** The body of a string literal, after its opening quote: the decoded
    string and what follows the closing quote. *)
Fixpoint parse_string (s : string) : option (string * string) :=
  match s with
  | EmptyString => None
  | String c r =>
      if Ascii.eqb c dquote then Some (EmptyString, r)
      else if Ascii.eqb c "\" then
        match r with
        | String e r' =>
            let simple (x : ascii) :=
              match parse_string r' with
              | Some (t, rest) => Some (String x t, rest)
              | None => None
              end in
            if Ascii.eqb e dquote then simple dquote
            else if Ascii.eqb e "\" then simple "\"%char
            else if Ascii.eqb e "/" then simple "/"%char
            else if Ascii.eqb e "b" then simple (ascii_of_nat 8)
            else if Ascii.eqb e "f" then simple (ascii_of_nat 12)
            else if Ascii.eqb e "n" then simple (ascii_of_nat 10)
            else if Ascii.eqb e "r" then simple (ascii_of_nat 13)
            else if Ascii.eqb e "t" then simple (ascii_of_nat 9)
            else if Ascii.eqb e "u" then
              match r' with
              | String h1 (String h2 (String h3 (String h4 r''))) =>
                  match hex4 h1 h2 h3 h4, parse_string r'' with
                  | Some u, Some (t, rest) => Some (utf8_of_unit u t, rest)
                  | _, _ => None
                  end
              | _ => None
              end
            else None
        | EmptyString => None
        end
      else if (nat_of_ascii c <? 32)%nat then None
      else
        match parse_string r with
        | Some (t, rest) => Some (String c t, rest)
        | None => None
        end
  end.

(** A JSON number at the head of [s]: an optional minus, an integer part
    without a superfluous leading zero, an optional fraction, an optional
    exponent. *)
Definition parse_number (s : string) : option (number * string) :=
  let '(negative, body) :=
    match s with
    | String c s' => if Ascii.eqb c "-" then (true, s') else (false, s)
    | EmptyString => (false, s)
    end in
  let leading_zero :=
    match body with
    | String c _ => Ascii.eqb c "0"
    | EmptyString => false
    end in
  match read_digits body 0 0 with
  | (_, O, _) => None
  | (ip, S k, r1) =>
      if leading_zero && negb (k =? 0)%nat then None
      else
        let frac :=
          match r1 with
          | String c r =>
              if is_dot c then
                match read_digits r ip 0 with
                | (_, O, _) => None
                | (m, S j, r2) => Some (m, S j, r2)
                end
              else Some (ip, O, r1)
          | EmptyString => Some (ip, O, r1)
          end in
        match frac with
        | None => None
        | Some (m, nf, r2) =>
            let expo :=
              match r2 with
              | String c r =>
                  if Ascii.eqb c "e" || Ascii.eqb c "E" then
                    let '(neg_e, r') :=
                      match r with
                      | String d t =>
                          if Ascii.eqb d "-" then (true, t)
                          else if Ascii.eqb d "+" then (false, t)
                          else (false, r)
                      | EmptyString => (false, r)
                      end in
                    match read_digits r' 0 0 with
                    | (_, O, _) => None
                    | (e, S _, r3) => Some (if neg_e then - e else e, r3)
                    end
                  else Some (0, r2)
              | EmptyString => Some (0, r2)
              end in
            match expo with
            | None => None
            | Some (e, r3) =>
                let q := scale10 m (e - Z.of_nat nf) in
                Some (Fin (if negative then (- q)%Qc else q), r3)
            end
        end
  end.

(** The outcome of a parser that runs on fuel. *)
Inductive parsed (A : Type) : Type :=
| OutOfFuel
| SyntaxError
| Parsed (a : A) (rest : string).
Arguments OutOfFuel {A}.
Arguments SyntaxError {A}.
Arguments Parsed {A} a rest.

(** [s] without the literal [lit] at its head. *)
Definition strip_prefix (lit s : string) : option string :=
  if String.prefix lit s
  then Some (String.substring (String.length lit)
               (String.length s - String.length lit) s)
  else None.

(** A JSON value at the head of [s], after white space; the elements of an
    array after its opening bracket, and the members of an object after
    its opening brace, are read by the two companions. *)
Fixpoint parse_value (fuel : nat) (s : string) : parsed value :=
  match fuel with
  | O => OutOfFuel
  | S fuel' =>
      match skip_ws s with
      | String c r =>
          if Ascii.eqb c "{" then
            match skip_ws r with
            | String d r' =>
                if Ascii.eqb d "}" then Parsed (VObj []) r'
                else parse_members fuel' (String d r') []
            | EmptyString => SyntaxError
            end
          else if Ascii.eqb c "[" then
            match skip_ws r with
            | String d r' =>
                if Ascii.eqb d "]" then Parsed (VArr []) r'
                else parse_elements fuel' (String d r') []
            | EmptyString => SyntaxError
            end
          else if Ascii.eqb c dquote then
            match parse_string r with
            | Some (t, rest) => Parsed (VStr t) rest
            | None => SyntaxError
            end
          else
            match strip_prefix "true" (String c r),
                  strip_prefix "false" (String c r),
                  strip_prefix "null" (String c r) with
            | Some rest, _, _ => Parsed (VBool true) rest
            | _, Some rest, _ => Parsed (VBool false) rest
            | _, _, Some rest => Parsed VNull rest
            | None, None, None =>
                match parse_number (String c r) with
                | Some (n, rest) => Parsed (VNum n) rest
                | None => SyntaxError
                end
            end
      | EmptyString => SyntaxError
      end
  end

with parse_elements (fuel : nat) (s : string) (acc : list value)
  : parsed value :=
  match fuel with
  | O => OutOfFuel
  | S fuel' =>
      match parse_value fuel' s with
      | Parsed v r =>
          match skip_ws r with
          | String c r' =>
              if Ascii.eqb c "," then parse_elements fuel' r' (v :: acc)
              else if Ascii.eqb c "]" then Parsed (VArr (rev (v :: acc))) r'
              else SyntaxError
          | EmptyString => SyntaxError
          end
      | OutOfFuel => OutOfFuel
      | SyntaxError => SyntaxError
      end
  end

with parse_members (fuel : nat) (s : string) (acc : list (string * value))
  : parsed value :=
  match fuel with
  | O => OutOfFuel
  | S fuel' =>
      match skip_ws s with
      | String q r =>
          if Ascii.eqb q dquote then
            match parse_string r with
            | Some (k, r1) =>
                match skip_ws r1 with
                | String c r2 =>
                    if Ascii.eqb c ":" then
                      match parse_value fuel' r2 with
                      | Parsed v r3 =>
                          match skip_ws r3 with
                          | String d r4 =>
                              if Ascii.eqb d "," then
                                parse_members fuel' r4 ((k, v) :: acc)
                              else if Ascii.eqb d "}" then
                                Parsed (VObj (rev ((k, v) :: acc))) r4
                              else SyntaxError
                          | EmptyString => SyntaxError
                          end
                      | OutOfFuel => OutOfFuel
                      | SyntaxError => SyntaxError
                      end
                    else SyntaxError
                | EmptyString => SyntaxError
                end
            | None => SyntaxError
            end
          else SyntaxError
      | EmptyString => SyntaxError
      end
  end.

(** Fuel that [parse_value] cannot exhaust on [s], see
    [parse_value_fuel]. *)
Definition json_fuel (s : string) : nat := 2 * String.length s + 2.

(** [JSON.parse(s)]: the value, or [None] for the [SyntaxError] it
    throws. *)
Definition JSON_parse (s : string) : option value :=
  match parse_value (json_fuel s) s with
  | Parsed v rest =>
      match skip_ws rest with
      | EmptyString => Some v
      | String _ _ => None
      end
  | _ => None
  end.

(** The last binding of [k] in the members of an object. *)
Fixpoint lookup_last (k : string) (fields : list (string * value))
  : option value :=
  match fields with
  | [] => None
  | (k', v) :: rest =>
      match lookup_last k rest with
      | Some w => Some w
      | None => if String.eqb k k' then Some v else None
      end
  end.

(** [v.k], or [None] for the [TypeError] that reading a property of
    [null] or [undefined] throws. *)
Definition prop (v : value) (k : string) : option value :=
  match v with
  | VUndefined | VNull => None
  | VObj fields =>
      match lookup_last k fields with
      | Some w => Some w
      | None => Some VUndefined
      end
  | _ => Some VUndefined
  end.

(** *** Dates

    A date is its time value, the milliseconds since the epoch;
    [None] is the invalid date. *)

Definition ms_per_day : Z := 86400000.

(** Days from the epoch to the civil date [y]-[m]-[d] of the proleptic
    Gregorian calendar; [d] may run past the end of the month. *)
Definition days_from_civil (y m d : Z) : Z :=
  let y' := if m <=? 2 then y - 1 else y in
  let era := y' / 400 in
  let yoe := y' - era * 400 in
  let mp := if 2 <? m then m - 3 else m + 9 in
  let doy := (153 * mp + 2) / 5 + d - 1 in
  let doe := yoe * 365 + yoe / 4 - yoe / 100 + doy in
  era * 146097 + doe - 719468.

(** The civil date, year, month and day, of a day number. *)
Definition civil_from_days (z : Z) : Z * Z * Z :=
  let z' := z + 719468 in
  let era := z' / 146097 in
  let doe := z' - era * 146097 in
  let yoe := (doe - doe / 1460 + doe / 36524 - doe / 146096) / 365 in
  let doy := doe - (365 * yoe + yoe / 4 - yoe / 100) in
  let mp := (5 * doy + 2) / 153 in
  let d := doy - (153 * mp + 2) / 5 + 1 in
  let m := if mp <? 10 then mp + 3 else mp - 9 in
  let y := yoe + era * 400 in
  (if m <=? 2 then y + 1 else y, m, d).

(** Exactly [n] digits at the head of [s]. *)
Fixpoint fixed_digits (n : nat) (s : string) (acc : Z) : option (Z * string) :=
  match n with
  | O => Some (acc, s)
  | S n' =>
      match s with
      | String c s' =>
          if is_digit c then fixed_digits n' s' (10 * acc + digit_val c)
          else None
      | EmptyString => None
      end
  end.

(** [c] then exactly [n] digits, when [s] starts with [c]. *)
Definition sep_digits (c : ascii) (n : nat) (s : string)
  : option (option (Z * string)) :=
  match s with
  | String c' s' =>
      if Ascii.eqb c c' then Some (fixed_digits n s' 0) else None
  | EmptyString => None
  end.

(** The fields of a string in the date-time format of the language,
    [YYYY-MM-DDTHH:mm:ss.sssZ] with its shorter forms, its six-digit
    signed years and its [+HH:mm] offsets. *)
Record iso_fields : Type := {
  iso_year : Z; iso_month : Z; iso_day : Z;
  iso_time : option (Z * Z * Z * Z);
  iso_offset : option Z
}.

Definition read_year (s : string) : option (Z * string) :=
  match s with
  | String c s' =>
      if Ascii.eqb c "+" then fixed_digits 6 s' 0
      else if Ascii.eqb c "-" then
        match fixed_digits 6 s' 0 with
        | Some (0, _) => None
        | Some (y, r) => Some (- y, r)
        | None => None
        end
      else fixed_digits 4 s 0
  | EmptyString => None
  end.

(** The optional [-MM] and [-DD] after the year. *)
Definition read_month_day (s : string) : option (Z * Z * string) :=
  match sep_digits "-" 2 s with
  | None => Some (1, 1, s)
  | Some None => None
  | Some (Some (m, r)) =>
      match sep_digits "-" 2 r with
      | None => Some (m, 1, r)
      | Some None => None
      | Some (Some (d, r')) => Some (m, d, r')
      end
  end.

(** The optional [THH:mm], [:ss] and [.sss]. *)
Definition read_time (s : string) : option (option (Z * Z * Z * Z) * string) :=
  match sep_digits "T" 2 s with
  | None => Some (None, s)
  | Some None => None
  | Some (Some (h, r)) =>
      match sep_digits ":" 2 r with
      | Some (Some (mi, r1)) =>
          match sep_digits ":" 2 r1 with
          | None => Some (Some (h, mi, 0, 0), r1)
          | Some None => None
          | Some (Some (sec, r2)) =>
              match sep_digits "." 3 r2 with
              | None => Some (Some (h, mi, sec, 0), r2)
              | Some None => None
              | Some (Some (ms, r3)) => Some (Some (h, mi, sec, ms), r3)
              end
          end
      | _ => None
      end
  end.

(** The optional [Z] or [+HH:mm] that ends the string, in minutes. *)
Definition read_offset (s : string) : option (option Z) :=
  match s with
  | EmptyString => Some None
  | String c r =>
      if Ascii.eqb c "Z" then
        match r with EmptyString => Some (Some 0) | _ => None end
      else if is_sign c then
        match fixed_digits 2 r 0 with
        | Some (h, r1) =>
            match sep_digits ":" 2 r1 with
            | Some (Some (mi, EmptyString)) =>
                if (h <? 24) && (mi <? 60) then
                  Some (Some (if Ascii.eqb c "-"
                              then - (h * 60 + mi) else h * 60 + mi))
                else None
            | _ => None
            end
        | None => None
        end
      else None
  end.

Definition read_iso (s : string) : option iso_fields :=
  match read_year s with
  | Some (y, r) =>
      match read_month_day r with
      | Some (m, d, r1) =>
          match read_time r1 with
          | Some (t, r2) =>
              match t, read_offset r2 with
              | None, Some (Some _) => None
              | _, Some off =>
                  Some {| iso_year := y; iso_month := m; iso_day := d;
                          iso_time := t; iso_offset := off |}
              | _, None => None
              end
          | None => None
          end
      | None => None
      end
  | None => None
  end.

(** The element values the format allows: the day is checked against 31
    whatever the month, and hour 24 is midnight only. *)
Definition iso_legal (f : iso_fields) : bool :=
  (1 <=? iso_month f) && (iso_month f <=? 12) &&
  (1 <=? iso_day f) && (iso_day f <=? 31) &&
  match iso_time f with
  | None => true
  | Some (h, mi, sec, ms) =>
      (mi <? 60) && (sec <? 60) &&
      ((h <? 24) || ((h =? 24) && (mi =? 0) && (sec =? 0) && (ms =? 0)))
  end.

(** What the language leaves to the engine and to its host: the dates
    read from strings outside the date-time format, the local time zone,
    the collation behind [localeCompare], the clock. *)
Record engine : Type := {
  legacy_date_parse : string -> option Z;
  utc_of_local : Z -> Z;
  localeCompare : string -> string -> comparison;
  clock : Z
}.

Definition time_clip (t : Z) : option Z :=
  if Z.abs t <=? 8640000000000000 then Some t else None.

(** The time value of legal fields, before it is clipped. *)
Definition iso_time_value (E : engine) (f : iso_fields) : Z :=
  let day := days_from_civil (iso_year f) (iso_month f) 1 + iso_day f - 1 in
  match iso_time f with
  | None => day * ms_per_day
  | Some (h, mi, sec, ms) =>
      let local :=
        day * ms_per_day + ((h * 60 + mi) * 60 + sec) * 1000 + ms in
      match iso_offset f with
      | Some off => local - off * 60000
      | None => utc_of_local E local
      end
  end.

(** [Date.parse(s)]: the date-time format first, then whatever the engine
    reads; [None] is [NaN]. *)
Definition Date_parse (E : engine) (s : string) : option Z :=
  let t :=
    match read_iso s with
    | Some f =>
        if iso_legal f then Some (iso_time_value E f)
        else legacy_date_parse E s
    | None => legacy_date_parse E s
    end in
  match t with
  | Some t => time_clip t
  | None => None
  end.

(** The last [width] decimal digits of [z], before [acc]. *)
Fixpoint fixed_width (width : nat) (z : Z) (acc : string) : string :=
  match width with
  | O => acc
  | S w =>
      fixed_width w (z / 10)
        (String (ascii_of_nat (Z.to_nat (48 + z mod 10))) acc)
  end.

(** [z] in decimal, with zeros before it up to [width] digits, for
    [0 <= z]. *)
Definition pad (width : nat) (z : Z) : string :=
  if z <? 10 ^ Z.of_nat width then fixed_width width z EmptyString
  else string_of_Z z.

(** [d.toISOString()] for a valid date. *)
Definition toISOString (t : Z) : string :=
  let '(y, m, d) := civil_from_days (t / ms_per_day) in
  let r := t mod ms_per_day in
  let year :=
    if (0 <=? y) && (y <=? 9999) then pad 4 y
    else if y <? 0 then String "-" (pad 6 (- y))
    else String "+" (pad 6 y) in
  year ++ "-" ++ pad 2 m ++ "-" ++ pad 2 d ++ "T"
    ++ pad 2 (r / 3600000) ++ ":" ++ pad 2 ((r / 60000) mod 60) ++ ":"
    ++ pad 2 ((r / 1000) mod 60) ++ "." ++ pad 3 (r mod 1000) ++ "Z".

End JS.

(** ** The report aggregator *)

Module Report.

Import JS.

Local Open Scope list_scope.

(** *** Upstream data *)

(** A metafield node of the order query: three strings. *)
Record metafield : Type := {
  m_namespace : string;
  m_key : string;
  m_value : string
}.

(** A line item of an order, as the REST resource gives it. *)
Record line_item : Type := {
  li_name : value;
  li_price : value;
  li_quantity : value;
  li_fulfillment_status : value;
  li_fulfillable_quantity : value
}.

(** [o.customer]: its identifier and email, [None] when absent. *)
Record customer_ref : Type := {
  c_id : option Z;
  c_email : option string
}.

(** An order of [data.orders]; [o_total_price] is the order's own total,
    which the handlers do not read. *)
Record order : Type := {
  o_id : Z;
  o_name : option string;
  o_created_at : string;
  o_customer : option customer_ref;
  o_line_items : option (list line_item);
  o_total_price : value
}.

(** A fulfilment line item: [node.quantity] and
    [node.originalTotalSet?.shopMoney?.amount], which is [undefined] when
    a link of the chain is absent. *)
Record fulfillment_node : Type := {
  node_quantity : value;
  node_amount : value
}.

(** A fulfilment: its status and [fulfillmentLineItems?.edges]. *)
Record fulfillment : Type := {
  f_status : string;
  f_edges : option (list fulfillment_node)
}.

(** What the handlers read of a caught error: [err.response?.status],
    [err.response?.data?.errors] and [err.message]. *)
Record error : Type := {
  err_status : option Z;
  err_errors : value;
  err_message : string
}.

Inductive reply (A : Type) : Type :=
| Failed (e : error)
| Replied (a : A).
Arguments Failed {A} e.
Arguments Replied {A} a.

(** The outbound calls of the handler. *)
Inductive call : Type :=
| GetOrders (query : list (string * string))
| MetafieldsQuery (id : Z)
| FulfillmentsQuery (id : Z).

(** The calls made so far, the latest first. *)
Definition trace : Type := list call.

(** The upstream platform: each answer may depend on the calls that came
    before. The payloads are [data.orders],
    [data.data?.order?.metafields?.edges?.map(edge => edge.node)] and
    [data.data?.order?.fulfillments], [None] when absent. *)
Record upstream : Type := {
  orders_json : trace -> list (string * string) -> reply (option (list order));
  metafields_of : trace -> Z -> reply (option (list metafield));
  fulfillments_of : trace -> Z -> reply (option (list fulfillment))
}.

(** Computations that call upstream. *)
Definition M (A : Type) : Type := trace -> A * trace.

Definition ret {A : Type} (a : A) : M A := fun tr => (a, tr).

Definition bind {A B : Type} (m : M A) (k : A -> M B) : M B :=
  fun tr => let '(a, tr') := m tr in k a tr'.

Notation "x <- m ;; k" := (bind m (fun x => k))
  (at level 61, m at next level, right associativity).

Definition get_orders (up : upstream) (q : list (string * string))
  : M (reply (option (list order))) :=
  fun tr => (orders_json up tr q, GetOrders q :: tr).

Definition post_metafields (up : upstream) (id : Z)
  : M (reply (option (list metafield))) :=
  fun tr => (metafields_of up tr id, MetafieldsQuery id :: tr).

Definition post_fulfillments (up : upstream) (id : Z)
  : M (reply (option (list fulfillment))) :=
  fun tr => (fulfillments_of up tr id, FulfillmentsQuery id :: tr).

(** *** The customer table *)

Definition customerInfo : list (string * (string * option string)) :=
  [ ("8688425369879", ("Auxia Team", Some "auxia@veeryoffices.com"));
    ("8736318325015", ("Baidu C200 Team", Some "baiduc200@veeryoffices.com"));
    ("8718672560407", ("Baidu Team", Some "baidu@veeryoffices.com"));
    ("8721200316695", ("Chai-Research Team", Some "chai@veeryoffices.com"));
    ("8940864995607", ("Comulate Team", Some "comulate@veeryoffices.com"));
    ("8721199399191", ("Hattrick Capital Team", Some "hattrick@veeryoffices.com"));
    ("8704188973335", ("Marwood Team", Some "marwood@veeryoffices.com"));
    ("8688428843287", ("Peloton Team", Some "peloton@veeryoffices.com"));
    ("8786145509655", ("Starting Gate Team", Some "startinggate@veeryoffices.com"));
    ("8685830766871", ("Sully AI Team", Some "sully@veeryoffices.com"));
    ("8721200939287", ("Uphonest Team", Some "uphonest@veeryoffices.com"));
    ("8688802627863", ("Veery Team", Some "v@veeryoffices.com"));
    ("8703720751383", ("Workstream Team", Some "workstream@veeryoffices.com"));
    ("8726904209687", ("Workstream MP Team", Some "workstreammp@veeryoffices.com"));
    ("8898937094423", ("Workstream UTAH Team", Some "workstreamutah@veeryoffices.com"));
    ("9138324275479", ("@3120 Team", None));
    ("9161889743127", ("Llamaindex Team", Some "llamaindex@veeryoffices.com"));
    ("9253797691671", ("AYR Energy Team", Some "ayrenergy@veeryoffices.com"));
    ("9253770690839", ("Lemon slice Team", Some "lemonslice@veeryoffices.com")) ].

(** [String(customerId)] for an identifier or [null]. *)
Definition string_of_id (customerId : option Z) : string :=
  match customerId with
  | Some z => string_of_Z z
  | None => "null"
  end.

Fixpoint assoc {A : Type} (k : string) (l : list (string * A)) : option A :=
  match l with
  | [] => None
  | (k', a) :: rest => if String.eqb k k' then Some a else assoc k rest
  end.

Definition getCustomerName (customerId : option Z) : string :=
  match assoc (string_of_id customerId) customerInfo with
  | Some info => fst info
  | None => ("Customer #" ++ string_of_id customerId)%string
  end.

(** *** The metafield parsers *)

(** [/[-+]?[0-9]*\.?[0-9]+/]. *)
Definition number_pattern : regex :=
  [Opt is_sign; Star is_digit; Opt is_dot; Plus is_digit].

(** The JSON money format, the first test both parsers make on a value:
    [Some (Number(parsed.amount))] when the value starts with a brace,
    parses, and has a truthy [amount]; [None] when the code falls through
    to number parsing. *)
Definition json_amount (v : string) : option number :=
  if startsWith v "{" then
    match JSON_parse v with
    | Some parsed =>
        match prop parsed "amount" with
        | Some amount => if truthy amount then Some (to_number amount) else None
        | None => None
        end
    | None => None
    end
  else None.

Fixpoint parseAdditionalCharges (metafields : list metafield) : number :=
  match metafields with
  | [] => zero
  | m :: rest =>
      let ns := m_namespace m in
      let key := m_key m in
      if (String.eqb ns "distacart" && String.eqb key "additional_charges")
         || String.eqb key "distacart.additional_charges"
      then
        let v := m_value m in
        match json_amount v with
        | Some n => n
        | None =>
            let num := string_to_number v in
            if negb (isNaN num) then num
            else
              match match_global number_pattern v with
              | Some matches =>
                  fold_left add (map string_to_number matches) zero
              | None => parseAdditionalCharges rest
              end
        end
      else parseAdditionalCharges rest
  end.

Fixpoint parseActualTotal (metafields : list metafield) : number :=
  match metafields with
  | [] => zero
  | m :: rest =>
      let ns := m_namespace m in
      let key := m_key m in
      if (String.eqb ns "distacart"
          && String.eqb key "actual_total_checkout_price")
         || String.eqb key "distacart.actual_total_checkout_price"
      then
        let v := m_value m in
        match json_amount v with
        | Some n => n
        | None =>
            let num := string_to_number v in
            if isNaN num then zero else num
        end
      else parseActualTotal rest
  end.

(** *** Fetching the orders *)

Definition limit : Z := 250.

(** [params.set(k, v)] on the pairs of a [URLSearchParams]: the first pair
    named [k] takes the value and the others go; without one the pair is
    appended. *)
Fixpoint set_param (k v : string) (params : list (string * string))
  : list (string * string) :=
  match params with
  | [] => [(k, v)]
  | (k', v') :: rest =>
      if String.eqb k k'
      then (k, v) :: filter (fun p => negb (String.eqb k (fst p))) rest
      else (k', v') :: set_param k v rest
  end.

(** The last element of an array. *)
Fixpoint last_of {A : Type} (l : list A) : option A :=
  match l with
  | [] => None
  | [a] => Some a
  | _ :: rest => last_of rest
  end.

(** The parameters of a request: [since_id] is set when it is truthy. *)
Definition request_params (params : list (string * string))
    (since_id : option Z) : list (string * string) :=
  match since_id with
  | Some id =>
      if id =? 0 then params
      else set_param "since_id" (string_of_Z id) params
  | None => params
  end.

(** The [while (true)] loop of both order-fetching handlers, one request
    for each unit of [fuel]; [None] when the fuel runs out before the loop
    breaks, and a rejected request ends it with the error. *)
Fixpoint fetch_loop (fuel : nat) (up : upstream)
    (params : list (string * string)) (since_id : option Z)
    (orders : list order) (totalFetched : Z)
  : M (option (reply (list order))) :=
  match fuel with
  | O => ret None
  | S fuel' =>
      let requestParams := request_params params since_id in
      r <- get_orders up requestParams ;;
      match r with
      | Failed e => ret (Some (Failed e))
      | Replied data =>
          let chunk := match data with Some l => l | None => [] end in
          let orders := orders ++ chunk in
          let totalFetched := totalFetched + Z.of_nat (List.length chunk) in
          if Z.of_nat (List.length chunk) <? limit
          then ret (Some (Replied orders))
          else
            let since_id := option_map o_id (last_of chunk) in
            if 10000 <? totalFetched
            then ret (Some (Replied orders))
            else fetch_loop fuel' up params since_id orders totalFetched
      end
  end.

(** Requests after which the loop has always broken, see
    [fetch_loop_terminates]. *)
Definition max_requests : nat := 41.

Definition fetch_orders (up : upstream) (params : list (string * string))
  : M (option (reply (list order))) :=
  fetch_loop max_requests up params None [] 0.

(** *** Enriching one order *)

(** [v === s] for a string [s]. *)
Definition is_string (v : value) (s : string) : bool :=
  match v with
  | VStr t => String.eqb t s
  | _ => false
  end.

(** One turn of the loop over the order's own line items in the handler
    of a failed fulfilment query, on [line_sum] and [included_items]. *)
Definition line_item_step (st : number * Z) (li : line_item) : number * Z :=
  let '(line_sum, included_items) := st in
  if is_string (li_fulfillment_status li) "removed"
     || is_string (li_fulfillment_status li) "cancelled"
     || is_string (li_fulfillment_status li) "refunded"
     || is_string (li_fulfillment_status li) "returned"
  then st
  else
    let fulfillable_qty :=
      number_or (to_number (li_fulfillable_quantity li)) zero in
    let total_qty := number_or (to_number (li_quantity li)) zero in
    if ltb fulfillable_qty total_qty then
      let fulfilled_qty := sub total_qty fulfillable_qty in
      let price := number_or (to_number (li_price li)) zero in
      (add line_sum (mul price fulfilled_qty), included_items + 1)
    else st.

(** The same turn in the handler of a failed metafield query, which keeps
    no count. *)
Definition line_item_step_outer (line_sum : number) (li : line_item)
  : number :=
  if is_string (li_fulfillment_status li) "removed"
     || is_string (li_fulfillment_status li) "cancelled"
     || is_string (li_fulfillment_status li) "refunded"
     || is_string (li_fulfillment_status li) "returned"
  then line_sum
  else
    let fulfillable_qty :=
      number_or (to_number (li_fulfillable_quantity li)) zero in
    let total_qty := number_or (to_number (li_quantity li)) zero in
    if ltb fulfillable_qty total_qty then
      let fulfilled_qty := sub total_qty fulfillable_qty in
      let price := number_or (to_number (li_price li)) zero in
      add line_sum (mul price fulfilled_qty)
    else line_sum.

(** [o.line_items || []]. *)
Definition line_items (o : order) : list line_item :=
  match o_line_items o with
  | Some l => l
  | None => []
  end.

(** One turn of the loop over the line items of a fulfilment. *)
Definition node_step (st : number * Z) (node : fulfillment_node)
  : number * Z :=
  let '(line_sum, included_items) := st in
  let quantity := number_or (to_number (node_quantity node)) zero in
  let originalTotal := value_or (node_amount node) (VNum zero) in
  let price := number_or (div (to_number originalTotal) quantity) zero in
  if gtb quantity zero && gtb price zero
  then (add line_sum (mul price quantity), included_items + 1)
  else st.

(** One turn of the loop over the fulfilments of an order. *)
Definition fulfillment_step (st : number * Z) (f : fulfillment)
  : number * Z :=
  if String.eqb (f_status f) "SUCCESS" then
    match f_edges f with
    | Some edges => fold_left node_step edges st
    | None => st
    end
  else st.

(** A row of the report's detail. *)
Record row : Type := {
  order_id : Z;
  order_number : option string;
  order_date : string;
  customer_id : option Z;
  customer_name : string;
  customer_email : option string;
  line_sum : number;
  additional_charges : number;
  billing_amount : number;
  actual_spend : number;
  profit_margin : number
}.

(** [o.name ? String(o.name).replace('#','').trim() : undefined]. *)
Definition order_number_of (o : order) : option string :=
  match o_name o with
  | Some name =>
      if String.eqb name EmptyString then None
      else Some (trim (remove_first "#" name))
  | None => None
  end.

(** [o.customer?.email || null]. *)
Definition customer_email_of (o : order) : option string :=
  match o_customer o with
  | Some c =>
      match c_email c with
      | Some e => if String.eqb e EmptyString then None else Some e
      | None => None
      end
  | None => None
  end.

(** [o.customer?.id || null]. *)
Definition customer_id_of (o : order) : option Z :=
  match o_customer o with
  | Some c =>
      match c_id c with
      | Some z => if z =? 0 then None else Some z
      | None => None
      end
  | None => None
  end.

(** The row pushed when both the metafield query and what follows it
    went through; [line_sum] is what the fulfilment step left. *)
Definition enriched_row (o : order) (orderMetafields : list metafield)
    (line_sum : number) : row :=
  let additional := parseAdditionalCharges orderMetafields in
  let actual := parseActualTotal orderMetafields in
  let billing := add line_sum additional in
  {| order_id := o_id o;
     order_number := order_number_of o;
     order_date := o_created_at o;
     customer_id := customer_id_of o;
     customer_name := getCustomerName (customer_id_of o);
     customer_email := customer_email_of o;
     line_sum := line_sum;
     additional_charges := additional;
     billing_amount := billing;
     actual_spend := actual;
     profit_margin :=
       if gtb billing zero
       then mul (div (sub billing actual) billing) (of_Z 100)
       else zero |}.

(** The row pushed by the handler of a failed metafield query. *)
Definition fallback_row (o : order) : row :=
  let line_sum := fold_left line_item_step_outer (line_items o) zero in
  {| order_id := o_id o;
     order_number := order_number_of o;
     order_date := o_created_at o;
     customer_id := customer_id_of o;
     customer_name := getCustomerName (customer_id_of o);
     customer_email := customer_email_of o;
     line_sum := line_sum;
     additional_charges := zero;
     billing_amount := line_sum;
     actual_spend := zero;
     profit_margin := zero |}.

(** The line sum of an order once the fulfilment query has answered or
    failed. *)
Definition line_sum_of (o : order) (fr : reply (option (list fulfillment)))
  : number :=
  fst
    match fr with
    | Replied (Some fulfillments) =>
        fold_left fulfillment_step fulfillments (zero, 0)
    | Replied None => (zero, 0)
    | Failed _ => fold_left line_item_step (line_items o) (zero, 0)
    end.

(** The body of the loop over the fetched orders: the row of one order. *)
Definition enrich (up : upstream) (o : order) : M row :=
  mr <- post_metafields up (o_id o) ;;
  match mr with
  | Replied data =>
      let orderMetafields := match data with Some l => l | None => [] end in
      fr <- post_fulfillments up (o_id o) ;;
      ret (enriched_row o orderMetafields (line_sum_of o fr))
  | Failed _ => ret (fallback_row o)
  end.

(** The loop over the fetched orders; the pause it makes after each order
    is not part of the model. *)
Fixpoint enrich_all (up : upstream) (orders : list order) (rows : list row)
  : M (list row) :=
  match orders with
  | [] => ret rows
  | o :: rest =>
      r <- enrich up o ;;
      enrich_all up rest (rows ++ [r])
  end.

(** *** Grouping and summary *)

(** [new Date(iso).toISOString()], or [None] for the [RangeError] an
    invalid date throws. *)
Definition iso_of (E : engine) (iso : string) : option string :=
  match Date_parse E iso with
  | Some t => Some (toISOString t)
  | None => None
  end.

Definition monthKey (E : engine) (iso : string) : option string :=
  match iso_of E iso with
  | Some s => Some (slice0 7 s)
  | None => None
  end.

(** [r[metricField]] with
    [metricField = metric === 'actual' ? 'actual_spend' : 'billing_amount']. *)
Definition metric_of (metric : string) (r : row) : number :=
  if String.eqb metric "actual" then actual_spend r else billing_amount r.

(** [r.customer_email || String(r.customer_id || 'unknown')]. *)
Definition customerKey (r : row) : string :=
  match customer_email r with
  | Some e =>
      if String.eqb e EmptyString then
        match customer_id r with
        | Some z => if z =? 0 then "unknown" else string_of_Z z
        | None => "unknown"
        end
      else e
  | None =>
      match customer_id r with
      | Some z => if z =? 0 then "unknown" else string_of_Z z
      | None => "unknown"
      end
  end.

(** A value of the [groups] map. *)
Record group : Type := {
  g_customer : string;
  g_month : string;
  g_orders : Z;
  g_amount : number;
  g_order_numbers : list string;
  g_total_billing : number;
  g_total_actual : number;
  g_avg_profit_margin : number
}.

(** A [Map] from strings: its entries in insertion order. *)
Definition map_has {A : Type} (key : string) (m : list (string * A)) : bool :=
  match assoc key m with
  | Some _ => true
  | None => false
  end.

(** [m.set(key, a)] for a key that [m] may have already. *)
Fixpoint map_set {A : Type} (key : string) (a : A) (m : list (string * A))
  : list (string * A) :=
  match m with
  | [] => [(key, a)]
  | (k, b) :: rest =>
      if String.eqb key k then (k, a) :: rest
      else (k, b) :: map_set key a rest
  end.

(** The update in place of the object that [m.get(key)] returns. *)
Fixpoint map_update {A : Type} (key : string) (f : A -> A)
    (m : list (string * A)) : list (string * A) :=
  match m with
  | [] => []
  | (k, b) :: rest =>
      if String.eqb key k then (k, f b) :: rest
      else (k, b) :: map_update key f rest
  end.

(** [set.add(x)] on the elements of a [Set] in insertion order. *)
Definition set_add (x : string) (l : list string) : list string :=
  if existsb (String.eqb x) l then l else l ++ [x].

(** The key of the group of a row whose month is [month]. *)
Definition group_key (r : row) (month : string) : string :=
  (customerKey r ++ "|" ++ month)%string.

(** The object a key is first set to. *)
Definition new_group (customerKey month : string) : group :=
  {| g_customer := customerKey;
     g_month := month;
     g_orders := 0;
     g_amount := zero;
     g_order_numbers := [];
     g_total_billing := zero;
     g_total_actual := zero;
     g_avg_profit_margin := zero |}.

(** The updates a row makes to the object of its key. *)
Definition add_row (metric : string) (r : row) (g : group) : group :=
  {| g_customer := g_customer g;
     g_month := g_month g;
     g_orders := g_orders g + 1;
     g_amount := add (g_amount g) (number_or (metric_of metric r) zero);
     g_order_numbers :=
       match order_number r with
       | Some n =>
           if String.eqb n EmptyString then g_order_numbers g
           else set_add n (g_order_numbers g)
       | None => g_order_numbers g
       end;
     g_total_billing :=
       add (g_total_billing g) (number_or (billing_amount r) zero);
     g_total_actual :=
       add (g_total_actual g) (number_or (actual_spend r) zero);
     g_avg_profit_margin := g_avg_profit_margin g |}.

(** The body of the loop over the rows, once [monthKey] has returned. *)
Definition group_step (metric : string) (groups : list (string * group))
    (r : row) (month : string) : list (string * group) :=
  let key := group_key r month in
  let groups :=
    if negb (map_has key groups)
    then map_set key (new_group (customerKey r) month) groups
    else groups in
  map_update key (add_row metric r) groups.

(** The loop over the rows; [None] when [monthKey] throws. *)
Fixpoint group_rows (E : engine) (metric : string) (rows : list row)
    (groups : list (string * group)) : option (list (string * group)) :=
  match rows with
  | [] => Some groups
  | r :: rest =>
      match monthKey E (order_date r) with
      | Some month => group_rows E metric rest (group_step metric groups r month)
      | None => None
      end
  end.

(** A stable sort: each element goes before the first one that does not
    compare below it. *)
Fixpoint insert_by {A : Type} (cmp : A -> A -> comparison) (x : A)
    (l : list A) : list A :=
  match l with
  | [] => [x]
  | y :: rest =>
      match cmp x y with
      | Gt => y :: insert_by cmp x rest
      | _ => x :: l
      end
  end.

Definition sort_by {A : Type} (cmp : A -> A -> comparison) (l : list A)
  : list A :=
  fold_right (insert_by cmp) [] l.

(** [l.join(', ')]. *)
Fixpoint join (l : list string) : string :=
  match l with
  | [] => EmptyString
  | [x] => x
  | x :: rest => (x ++ ", " ++ join rest)%string
  end.

(** [Math.round(x * 100) / 100]. *)
Definition round2 (x : number) : number :=
  div (round (mul x (of_Z 100))) (of_Z 100).

(** An element of the report's summary. *)
Record summary_group : Type := {
  customer : string;
  month : string;
  orders : Z;
  amount : number;
  order_numbers : string;
  total_billing : number;
  total_actual : number;
  group_profit_margin : number
}.

Definition summarize (g : group) : summary_group :=
  let profit_margin :=
    if gtb (g_total_billing g) zero
    then mul (div (sub (g_total_billing g) (g_total_actual g))
                (g_total_billing g)) (of_Z 100)
    else zero in
  {| customer := g_customer g;
     month := g_month g;
     orders := g_orders g;
     amount := g_amount g;
     order_numbers := join (sort_by String.compare (g_order_numbers g));
     total_billing := g_total_billing g;
     total_actual := g_total_actual g;
     group_profit_margin := round2 profit_margin |}.

(** The comparison the summary is sorted by: month, then customer. *)
Definition summary_order (E : engine) (a b : summary_group) : comparison :=
  match localeCompare E (month a) (month b) with
  | Eq => localeCompare E (customer a) (customer b)
  | c => c
  end.

Definition summary_of (E : engine) (groups : list (string * group))
  : list summary_group :=
  sort_by (summary_order E) (map (fun kg => summarize (snd kg)) groups).

(** The overall figures of a report. *)
Record analytics : Type := {
  totalRevenue : number;
  totalOrders : Z;
  uniqueCustomers : nat;
  avgProfitMargin : number
}.

Definition analytics_of (summary : list summary_group) : analytics :=
  let avg :=
    match summary with
    | [] => zero
    | _ =>
        div (fold_left (fun sum g => add sum (group_profit_margin g))
               summary zero)
            (of_Z (Z.of_nat (List.length summary)))
    end in
  {| totalRevenue := fold_left (fun sum g => add sum (amount g)) summary zero;
     totalOrders := fold_left (fun sum g => sum + orders g) summary 0;
     uniqueCustomers :=
       List.length (nodup string_dec (map customer summary));
     avgProfitMargin := round2 avg |}.

(** *** The handlers *)

(** The body of [POST /api/report]; an absent or [null] field is [None]. *)
Record report_request : Type := {
  start : option string;
  end_ : option string;
  metric : option string;
  customerId : option string
}.

(** The query of [GET /api/orders]. *)
Record orders_request : Type := {
  q_start : option string;
  q_end : option string;
  q_customerId : option string
}.

(** The JSON bodies of the answers: [{error}], [{error, status, message}],
    the report and the order list. The fields that echo the request
    ([dateRange], [metric], [customerId]) are left out. *)
Inductive body : Type :=
| ClientError (error : string)
| ServerError (error : value) (status : Z) (message : string)
| ReportBody (summary : list summary_group) (detail : list row)
    (stats : analytics) (generatedAt : string)
    (totalRecords summaryRecords : nat)
| OrdersBody (fetched : list order) (count : nat).

Record response : Type := {
  status : Z;
  payload : body
}.

(** The string of a field, empty when the field is absent: both are
    falsy. *)
Definition field (x : option string) : string :=
  match x with
  | Some s => s
  | None => EmptyString
  end.

Definition falsy (x : option string) : bool :=
  String.eqb (field x) EmptyString.

Definition bad_request (msg : string) : response :=
  {| status := 400; payload := ClientError msg |}.

(** The answer of the [catch] that closes a handler. *)
Definition error_response (err : error) (message : string) : response :=
  let st :=
    match err_status err with
    | Some z => if z =? 0 then 500 else z
    | None => 500
    end in
  {| status := st;
     payload :=
       ServerError
         (if truthy (err_errors err) then err_errors err
          else VStr (err_message err))
         st message |}.

(** The error that [toISOString] throws on an invalid date. *)
Definition range_error : error :=
  {| err_status := None;
     err_errors := VUndefined;
     err_message := "Invalid time value" |}.

Definition order_params (created_at_min created_at_max : string)
    (customerId : option string) : list (string * string) :=
  let params :=
    [ ("limit", string_of_Z limit);
      ("status", "any");
      ("fulfillment_status", "shipped");
      ("created_at_min", created_at_min);
      ("created_at_max", created_at_max);
      ("fields",
       "id,name,created_at,customer,line_items,metafields,fulfillment_status") ] in
  if falsy customerId then params
  else set_param "customer_id" (field customerId) params.

Definition invalid_metric_message : string :=
  ("Invalid metric. Must be " ++ String dquote "billing" ++ String dquote " or "
   ++ String dquote "actual" ++ String dquote EmptyString)%string.

(** [POST /api/report]. [None] when the fetch loop has not broken within
    [max_requests] requests, which does not happen: [report_answers]. *)
Definition report (E : engine) (up : upstream) (req : report_request)
  : M (option response) :=
  if falsy (start req) || falsy (end_ req) || falsy (metric req) then
    ret (Some (bad_request
      "Missing required fields: start, end, and metric are required"))
  else if negb (String.eqb (field (metric req)) "billing"
                || String.eqb (field (metric req)) "actual") then
    ret (Some (bad_request invalid_metric_message))
  else
    match iso_of E (field (start req)) with
    | None => ret (Some (error_response range_error "Failed to generate report"))
    | Some created_at_min =>
        match iso_of E (field (end_ req)) with
        | None =>
            ret (Some (error_response range_error "Failed to generate report"))
        | Some created_at_max =>
            fetched <- fetch_orders up
              (order_params created_at_min created_at_max (customerId req)) ;;
            match fetched with
            | None => ret None
            | Some (Failed err) =>
                ret (Some (error_response err "Failed to generate report"))
            | Some (Replied orders) =>
                rows <- enrich_all up orders [] ;;
                match group_rows E (field (metric req)) rows [] with
                | None =>
                    ret (Some (error_response range_error
                                 "Failed to generate report"))
                | Some groups =>
                    let summary := summary_of E groups in
                    ret (Some
                      {| status := 200;
                         payload :=
                           ReportBody summary rows (analytics_of summary)
                             (toISOString (clock E))
                             (List.length rows) (List.length summary) |})
                end
            end
        end
    end.

(** [GET /api/orders]; [None] as for [report], see
    [list_orders_answers]. *)
Definition list_orders (E : engine) (up : upstream) (req : orders_request)
  : M (option response) :=
  if falsy (q_start req) || falsy (q_end req) then
    ret (Some (bad_request
      "Missing required parameters: start and end dates are required"))
  else
    match Date_parse E (field (q_start req)),
          Date_parse E (field (q_end req)) with
    | Some startDate, Some endDate =>
        if endDate <=? startDate then
          ret (Some (bad_request "Start date must be before end date"))
        else
          fetched <- fetch_orders up
            (order_params (toISOString startDate) (toISOString endDate)
               (q_customerId req)) ;;
          match fetched with
          | None => ret None
          | Some (Failed err) =>
              ret (Some (error_response err "Failed to fetch orders"))
          | Some (Replied orders) =>
              ret (Some {| status := 200;
                           payload := OrdersBody orders (List.length orders) |})
          end
    | _, _ =>
        ret (Some (bad_request
          "Invalid date format. Use ISO 8601 format (YYYY-MM-DDTHH:mm:ss.sssZ)"))
    end.

End Report.

(** ** The specification's vocabulary

    Definitions that follow the words of the specification, to be compared
    with the handler's, and the sample data of the examples. *)

Module Spec.

Import JS Report.

Local Open Scope list_scope.

(** The detail list of a response: empty when the response is no report. *)
Definition detail_of (resp : response) : list row :=
  match payload resp with
  | ReportBody _ detail _ _ _ _ => detail
  | _ => []
  end.

(** The summary list of a response. *)
Definition summary_list_of (resp : response) : list summary_group :=
  match payload resp with
  | ReportBody summary _ _ _ _ _ => summary
  | _ => []
  end.

(** An order with another [total_price]. *)
Definition with_total_price (v : value) (o : order) : order :=
  {| o_id := o_id o;
     o_name := o_name o;
     o_created_at := o_created_at o;
     o_customer := o_customer o;
     o_line_items := o_line_items o;
     o_total_price := v |}.

(** The sum of a list of numbers, from 0, left to right. *)
Definition sum_numbers (l : list number) : number := fold_left add l zero.

(** The fulfilment path. A fulfilment counts when its status is success;
    the quantity of a fulfilment line item, and its unit price, the total
    monetary amount divided by the quantity; the item counts when both are
    positive. *)
Definition succeeded (f : fulfillment) : bool :=
  String.eqb (f_status f) "SUCCESS".

Definition nodes_of (f : fulfillment) : list fulfillment_node :=
  match f_edges f with
  | Some edges => edges
  | None => []
  end.

Definition node_qty (node : fulfillment_node) : number :=
  number_or (to_number (node_quantity node)) zero.

Definition unit_price (node : fulfillment_node) : number :=
  number_or
    (div (to_number (value_or (node_amount node) (VNum zero))) (node_qty node))
    zero.

Definition both_positive (node : fulfillment_node) : bool :=
  gtb (node_qty node) zero && gtb (unit_price node) zero.

Definition fulfilled_revenue (fulfillments : list fulfillment) : number :=
  sum_numbers
    (map (fun node => mul (unit_price node) (node_qty node))
       (filter both_positive
          (flat_map nodes_of (filter succeeded fulfillments)))).

(** The line-item path. An item is skipped when its status is removed,
    cancelled, refunded or returned; its fulfilled quantity is its total
    quantity minus its fulfillable quantity. *)
Definition skipped (li : line_item) : bool :=
  is_string (li_fulfillment_status li) "removed"
  || is_string (li_fulfillment_status li) "cancelled"
  || is_string (li_fulfillment_status li) "refunded"
  || is_string (li_fulfillment_status li) "returned".

Definition total_qty (li : line_item) : number :=
  number_or (to_number (li_quantity li)) zero.

Definition fulfillable_qty (li : line_item) : number :=
  number_or (to_number (li_fulfillable_quantity li)) zero.

Definition fulfilled_qty (li : line_item) : number :=
  sub (total_qty li) (fulfillable_qty li).

Definition item_price (li : line_item) : number :=
  number_or (to_number (li_price li)) zero.

(** The line sum of the line-item path as the specification words it:
    every item that is not skipped contributes. The items are those of
    the [line_items] field of the order as upstream sent it; an order
    without the field has no item. *)
Definition stated_line_item_revenue (o : order) : number :=
  sum_numbers
    (map (fun li => mul (item_price li) (fulfilled_qty li))
       (filter (fun li => negb (skipped li))
          (match o_line_items o with
           | Some items => items
           | None => []
           end))).

(** The same, of the items some quantity of which has been fulfilled. *)
Definition line_item_revenue (o : order) : number :=
  sum_numbers
    (map (fun li => mul (item_price li) (fulfilled_qty li))
       (filter
          (fun li => negb (skipped li)
                     && ltb (fulfillable_qty li) (total_qty li))
          (match o_line_items o with
           | Some items => items
           | None => []
           end))).

(** The metafield parsers. An entry matches by the namespace
    [distacart] with the bare key, or by the combined key whatever the
    namespace. *)
Definition is_additional_charges (m : metafield) : bool :=
  (String.eqb (m_namespace m) "distacart"
   && String.eqb (m_key m) "additional_charges")
  || String.eqb (m_key m) "distacart.additional_charges".

Definition is_actual_total (m : metafield) : bool :=
  (String.eqb (m_namespace m) "distacart"
   && String.eqb (m_key m) "actual_total_checkout_price")
  || String.eqb (m_key m) "distacart.actual_total_checkout_price".

(** [v] is the text of a JSON object with a truthy [amount] field [a]. *)
Definition money_amount (v : string) (a : value) : Prop :=
  startsWith v "{" = true /\
  exists fields,
    JSON_parse v = Some (VObj fields) /\
    lookup_last "amount" fields = Some a /\
    truthy a = true.

(** The numeric substrings of a text, in order; [None] without one. *)
Definition numeric_substrings (v : string) : option (list string) :=
  match_global number_pattern v.

(** The value of an entry as the specification words it: the number the
    text parses as, else the [amount] field of a JSON object, else the
    leading numeric substring of the text. *)
Definition stated_value (v : string) : number :=
  if negb (isNaN (string_to_number v)) then string_to_number v
  else
    match JSON_parse v with
    | Some (VObj fields) =>
        match lookup_last "amount" fields with
        | Some a => to_number a
        | None => zero
        end
    | _ =>
        match numeric_substrings v with
        | Some (leading :: _) => string_to_number leading
        | _ => zero
        end
    end.

(** Whether [parseAdditionalCharges] gets a number out of a text. *)
Definition yields_number (v : string) : bool :=
  match json_amount v with
  | Some _ => true
  | None =>
      negb (isNaN (string_to_number v))
      || match numeric_substrings v with
         | Some _ => true
         | None => false
         end
  end.

Definition additional_entry (v : string) : metafield :=
  {| m_namespace := "distacart"; m_key := "additional_charges";
     m_value := v |}.

Definition actual_entry (v : string) : metafield :=
  {| m_namespace := "distacart"; m_key := "actual_total_checkout_price";
     m_value := v |}.

(** The profit margin of a row as the specification words it. *)
Definition stated_profit_margin (r : row) : number :=
  if gtb (billing_amount r) zero
  then mul (div (sub (billing_amount r) (actual_spend r)) (billing_amount r))
         (of_Z 100)
  else zero.

(** The rows of a list of orders, one row for each order, and the calls
    made for them. *)
Fixpoint rows_from (up : upstream) (orders : list order) (tr : trace)
  : list row * trace :=
  match orders with
  | [] => ([], tr)
  | o :: rest =>
      let '(r, tr1) := enrich up o tr in
      let '(rs, tr2) := rows_from up rest tr1 in
      (r :: rs, tr2)
  end.


(** The integer a decimal string writes. *)
Definition Z_of_string (s : string) : option Z :=
  option_map Z.of_int (NilZero.int_of_string s).

(** An upstream serving, 250 at a time, a list of matching orders in the
    order of their identifiers: a request with a [since_id] gets the
    orders whose identifier is numerically greater. *)
Definition page_after (db : list order) (q : list (string * string))
  : list order :=
  match assoc "since_id" q with
  | Some s =>
      match Z_of_string s with
      | Some since => filter (fun o => since <? o_id o) db
      | None => db
      end
  | None => db
  end.

Definition paged_upstream (db : list order) : upstream :=
  {| orders_json := fun _ q => Replied (Some (firstn 250 (page_after db q)));
     metafields_of := fun _ _ => Replied None;
     fulfillments_of := fun _ _ => Replied None |}.

(** Identifiers grow along the list, from above [prev]. *)
Fixpoint ascending (prev : Z) (db : list order) : bool :=
  match db with
  | [] => true
  | o :: rest => (prev <? o_id o) && ascending (o_id o) rest
  end.

(** [n] orders, numbered from [first]. *)
Fixpoint numbered (first : Z) (n : nat) : list order :=
  match n with
  | O => []
  | S n' =>
      {| o_id := first;
         o_name := None;
         o_created_at := "2024-01-05T10:00:00Z";
         o_customer := None;
         o_line_items := None;
         o_total_price := VUndefined |} :: numbered (first + 1) n'
  end.

(** Grouping. The month key the handler gives a row, which is the first
    seven characters of the UTC date-time text of its date and not always
    a year and a month (see [utc_year_month] below); the rows of a list
    that fall under a key of the map, and those that fall under a customer
    key and a month key. *)
Definition month_of (E : engine) (r : row) : option string :=
  monthKey E (order_date r).

Definition has_key (E : engine) (key : string) (r : row) : bool :=
  match month_of E r with
  | Some m => String.eqb (group_key r m) key
  | None => false
  end.

Definition in_group (E : engine) (c m : string) (r : row) : bool :=
  String.eqb (customerKey r) c
  && match month_of E r with
     | Some m' => String.eqb m' m
     | None => false
     end.

(** The object of a key, from the rows that fall under it: the first one
    sets it and each one updates it. *)
Definition group_of (E : engine) (metric : string) (rs : list row)
  : option group :=
  match rs with
  | [] => None
  | r0 :: _ =>
      Some (fold_left (fun g r => add_row metric r g) rs
              (new_group (customerKey r0)
                 (match month_of E r0 with
                  | Some m => m
                  | None => EmptyString
                  end)))
  end.

(** The label of a group of the summary, and the group a row lands in. *)
Definition label (sg : summary_group) : string * string :=
  (customer sg, month sg).

Definition lands_in (E : engine) (r : row) (sg : summary_group) : Prop :=
  customer sg = customerKey r /\ month_of E r = Some (month sg).

(** A number, 0 standing for [NaN]. *)
Definition nan_as_zero (x : number) : number :=
  if isNaN x then zero else x.

(** The customer key of an order as the specification words it, read
    from the [customer] field of the order as upstream sent it: the email
    if present, else the identifier as text, else [unknown]. An empty
    email and an identifier of 0 count as absent. *)
Definition stated_customer_key (o : order) : string :=
  match o_customer o with
  | Some c =>
      match c_email c with
      | Some (String a email) => String a email
      | _ =>
          match c_id c with
          | Some id => if id =? 0 then "unknown" else string_of_Z id
          | None => "unknown"
          end
      end
  | None => "unknown"
  end.

(** The year and the month, in UTC, of the instant a date text denotes:
    the calendar month of the specification. [None] when the text is no
    date. *)
Definition utc_year_month (E : engine) (iso : string) : option (Z * Z) :=
  match Date_parse E iso with
  | Some t =>
      let '(y, m, _) := civil_from_days (t / ms_per_day) in Some (y, m)
  | None => None
  end.

(** The month key of the specification for a year of four digits:
    [YYYY-MM]. *)
Definition year_month_text (y m : Z) : string :=
  pad 4 y ++ "-" ++ pad 2 m.

(** The month of the civil date of the day [doe] of a 400-year era, as
    [civil_from_days] computes it. *)
Definition era_month (doe : Z) : Z :=
  let yoe := (doe - doe / 1460 + doe / 36524 - doe / 146096) / 365 in
  let doy := doe - (365 * yoe + yoe / 4 - yoe / 100) in
  let mp := (5 * doy + 2) / 153 in
  if mp <? 10 then mp + 3 else mp - 9.

(** *** Sample data *)

(** Single quotes stand for double quotes in the JSON texts below. *)
Fixpoint dq (s : string) : string :=
  match s with
  | String c r => String (if Ascii.eqb c "'" then dquote else c) (dq r)
  | EmptyString => EmptyString
  end.

(** An engine that reads no date outside the date-time format, runs in
    UTC and collates by bytes. *)
Definition plain_engine : engine :=
  {| legacy_date_parse := fun _ => None;
     utc_of_local := fun t => t;
     localeCompare := String.compare;
     clock := 1717200000000 |}.

Definition sample_item (price : string) (quantity fulfillable : Z)
  : line_item :=
  {| li_name := VStr "Desk lamp";
     li_price := VStr price;
     li_quantity := VNum (of_Z quantity);
     li_fulfillment_status := VNull;
     li_fulfillable_quantity := VNum (of_Z fulfillable) |}.

Definition sample_order (id : Z) (created_at : string)
    (items : list line_item) : order :=
  {| o_id := id;
     o_name := Some ("#10" ++ string_of_Z id)%string;
     o_created_at := created_at;
     o_customer :=
       Some {| c_id := Some 8688802627863;
               c_email := Some "v@veeryoffices.com" |};
     o_line_items := Some items;
     o_total_price := VStr "999.00" |}.

Definition sample_orders : list order :=
  [ sample_order 1 "2024-01-05T10:00:00-05:00" [sample_item "100.00" 1 0];
    sample_order 2 "2024-01-20T10:00:00-05:00" [sample_item "100.00" 1 0];
    sample_order 3 "2024-01-31T23:30:00-05:00" [sample_item "40.00" 3 1] ].

Definition sample_failure : error :=
  {| err_status := Some 429;
     err_errors := VStr "Exceeded 2 calls per second";
     err_message := "Request failed with status code 429" |}.

(** An upstream with the three sample orders: the metafield query fails
    for order 2 and the fulfilment query for order 3. *)
Definition sample_upstream : upstream :=
  {| orders_json := fun _ _ => Replied (Some sample_orders);
     metafields_of := fun _ id =>
       if id =? 2 then Failed sample_failure
       else Replied (Some
         [ {| m_namespace := "distacart"; m_key := "additional_charges";
              m_value := "10" |};
           {| m_namespace := "distacart";
              m_key := "actual_total_checkout_price";
              m_value := dq "{'amount':'55.00','currency_code':'USD'}" |} ]);
     fulfillments_of := fun _ id =>
       if id =? 3 then Failed sample_failure
       else Replied (Some
         [ {| f_status := "SUCCESS";
              f_edges := Some [ {| node_quantity := VNum (of_Z 2);
                                   node_amount := VStr "100.0" |} ] |} ]) |}.

Definition sample_request : report_request :=
  {| start := Some "2024-01-01T00:00:00.000Z";
     end_ := Some "2024-03-01T00:00:00.000Z";
     metric := Some "billing";
     customerId := None |}.

(** The response to the sample request, and the calls made for it. *)
Definition sample_run : option response * trace :=
  report plain_engine sample_upstream sample_request [].

Definition sample_response : response :=
  match fst sample_run with
  | Some resp => resp
  | None => bad_request EmptyString
  end.

Definition sample_trace : trace := snd sample_run.

Definition nth_row (i : nat) : row :=
  nth i (detail_of sample_response) (fallback_row (sample_order 0 EmptyString [])).

(** Two orders of one customer, of January and of June of the year
    10000, an upstream that has them and nothing about them, and the
    report on that year. *)
Definition far_orders : list order :=
  [ sample_order 1 "+010000-01-15T10:00:00Z" [sample_item "100.00" 1 0];
    sample_order 2 "+010000-06-15T10:00:00Z" [sample_item "100.00" 1 0] ].

Definition far_upstream : upstream :=
  {| orders_json := fun _ _ => Replied (Some far_orders);
     metafields_of := fun _ _ => Replied (Some []);
     fulfillments_of := fun _ _ => Replied None |}.

Definition far_request : report_request :=
  {| start := Some "+010000-01-01T00:00:00.000Z";
     end_ := Some "+010001-01-01T00:00:00.000Z";
     metric := Some "billing";
     customerId := None |}.

Definition far_response : response :=
  match fst (report plain_engine far_upstream far_request []) with
  | Some resp => resp
  | None => bad_request EmptyString
  end.

(** An upstream with the first two sample orders, where the additional
    charges of order 2 are a JSON text whose amount is no number. *)
Definition dirty_upstream : upstream :=
  {| orders_json := fun _ _ => Replied (Some (firstn 2 sample_orders));
     metafields_of := fun _ id =>
       Replied (Some
         [ additional_entry
             (if id =? 2 then dq "{'amount':'N/A'}" else "10") ]);
     fulfillments_of := fun _ _ => Replied None |}.

Definition dirty_response : response :=
  match fst (report plain_engine dirty_upstream sample_request []) with
  | Some resp => resp
  | None => bad_request EmptyString
  end.

(** The first group of a summary. *)
Definition first_group (resp : response) : summary_group :=
  nth 0 (summary_list_of resp) (summarize (new_group EmptyString EmptyString)).

(** A request whose range is reversed, one whose start is no date, and
    the same parameters as queries of [GET /api/orders]. *)
Definition reversed_request : report_request :=
  {| start := Some "2024-02-01T00:00:00.000Z";
     end_ := Some "2024-01-01T00:00:00.000Z";
     metric := Some "billing";
     customerId := None |}.

Definition unreadable_request : report_request :=
  {| start := Some "not-a-date";
     end_ := Some "2024-02-01T00:00:00.000Z";
     metric := Some "billing";
     customerId := None |}.

Definition reversed_query : orders_request :=
  {| q_start := Some "2024-02-01T00:00:00.000Z";
     q_end := Some "2024-01-01T00:00:00.000Z";
     q_customerId := None |}.

Definition unreadable_query : orders_request :=
  {| q_start := Some "not-a-date";
     q_end := Some "2024-02-01T00:00:00.000Z";
     q_customerId := None |}.

(** The scenario of the specification: two orders of January for the same
    customer, each with a line sum of 100 and additional charges of 10. *)
Definition scenario_upstream : upstream :=
  {| orders_json := fun _ _ => Replied (Some (firstn 2 sample_orders));
     metafields_of := fun _ _ => Replied (Some [additional_entry "10"]);
     fulfillments_of := fun _ _ =>
       Replied (Some
         [ {| f_status := "SUCCESS";
              f_edges := Some [ {| node_quantity := VNum (of_Z 2);
                                   node_amount := VStr "100.0" |} ] |} ]) |}.

Definition scenario_request : report_request :=
  {| start := Some "2024-01-01T00:00:00.000Z";
     end_ := Some "2024-02-01T00:00:00.000Z";
     metric := Some "billing";
     customerId := None |}.

Definition scenario_response : response :=
  match fst (report plain_engine scenario_upstream scenario_request []) with
  | Some resp => resp
  | None => bad_request EmptyString
  end.

End Spec.

(** ** The metafield listing

    [GET /api/debug/metafields]: one request for a page of orders, and for
    each order its metafields, their count and the sum of its line
    items. *)

Module Debug.

Import JS Report.

Local Open Scope list_scope.

(** An order of [data.orders] as this handler reads it: [order.id],
    [order.name], [order.metafields] and [order.line_items], the last two
    [None] when absent. *)
Record listed_order : Type := {
  lo_id : value;
  lo_name : value;
  lo_metafields : option (list value);
  lo_line_items : option (list line_item)
}.


(** An element of the [orders] of the answer. *)
Record metafield_entry : Type := {
  me_order_id : value;
  me_order_name : value;
  me_metafields : list value;
  me_metafield_count : nat;
  me_line_items_sum : number
}.




(** The [reduce] over the line items of an order. *)
Definition line_items_sum (items : list line_item) : number :=
  fold_left
    (fun sum li =>
       let price := number_or (to_number (li_price li)) zero in
       let qty := number_or (to_number (li_quantity li)) zero in
       add sum (mul price qty))
    items zero.

Definition entry_of (order : listed_order) : metafield_entry :=
  let metafields :=
    match lo_metafields order with Some l => l | None => [] end in
  {| me_order_id := lo_id order;
     me_order_name := lo_name order;
     me_metafields := metafields;
     me_metafield_count := List.length metafields;
     me_line_items_sum :=
       line_items_sum
         match lo_line_items order with Some l => l | None => [] end |}.


End Debug.

(** ** Observations on the handlers

    What a client or the upstream platform can observe of a run: the calls
    it made, in the order they were made, and the shape of the values it
    answered with. *)

Module Observe.

Import JS Report Spec.

Local Open Scope list_scope.

(** The calls of a run in the order they were made: the trace has the
    latest first. *)
Definition in_order (calls : list call) : list call := rev calls.

Definition is_orders_call (c : call) : bool :=
  match c with
  | GetOrders _ => true
  | _ => false
  end.

(** The orders whose metafields, and whose fulfilments, a list of calls
    asks for. *)
Definition metafield_ids (calls : list call) : list Z :=
  flat_map (fun c => match c with MetafieldsQuery id => [id] | _ => [] end)
    calls.

Definition fulfillment_ids (calls : list call) : list Z :=
  flat_map (fun c => match c with FulfillmentsQuery id => [id] | _ => [] end)
    calls.

(** The queries of the order requests among a list of calls. *)
Definition order_queries (calls : list call) : list (list (string * string)) :=
  flat_map (fun c => match c with GetOrders q => [q] | _ => [] end) calls.

(** A query has the parameters of [params], [since_id] apart. *)
Definition same_filter (params q : list (string * string)) : Prop :=
  forall k, k <> "since_id" -> assoc k q = assoc k params.

(** The rows of a report that fall in a group of its summary. *)
Definition rows_of_group (E : engine) (resp : response) (sg : summary_group)
  : list row :=
  filter (in_group E (customer sg) (month sg)) (detail_of resp).

(** The order numbers of a list of rows that a group keeps: those that
    are present and not empty. *)
Definition numbers_of (rs : list row) : list string :=
  flat_map (fun r => match order_number r with
                     | Some n => if String.eqb n EmptyString then [] else [n]
                     | None => []
                     end) rs.

(** The orders counted in a map of groups. *)
Definition orders_counted (groups : list (string * group)) : Z :=
  fold_right (fun kg s => g_orders (snd kg) + s) 0 groups.

(** The figures of a report. *)
Definition analytics_from (resp : response) : option analytics :=
  match payload resp with
  | ReportBody _ _ stats _ _ _ => Some stats
  | _ => None
  end.

(** Every character of a string is of a class. *)
Fixpoint all_chars (p : ascii -> bool) (s : string) : bool :=
  match s with
  | String c s' => p c && all_chars p s'
  | EmptyString => true
  end.

(** The strings a regular expression of the fragment matches. *)
Fixpoint language (r : regex) (w : string) : Prop :=
  match r with
  | [] => w = EmptyString
  | One p :: r' =>
      exists c w', w = String c w' /\ p c = true /\ language r' w'
  | Opt p :: r' =>
      language r' w
      \/ exists c w', w = String c w' /\ p c = true /\ language r' w'
  | Star p :: r' =>
      exists u v, w = (u ++ v)%string /\ all_chars p u = true /\ language r' v
  | Plus p :: r' =>
      exists c u v,
        w = String c (u ++ v) /\ p c = true /\ all_chars p u = true
        /\ language r' v
  end.

(** The characters of the matches of the number pattern. *)
Definition numeric_char (c : ascii) : bool :=
  is_digit c || is_sign c || is_dot c.

(** A number is finite: neither [NaN] nor an infinity. *)
Definition is_finite (x : number) : bool :=
  match x with
  | Fin _ => true
  | _ => false
  end.

(** A comparison of strings is consistent: swapping its arguments swaps
    its answer, and not being above is transitive. *)
Definition consistent (cmp : string -> string -> comparison) : Prop :=
  (forall a b, cmp a b = CompOpp (cmp b a))
  /\ (forall a b c, cmp a b <> Gt -> cmp b c <> Gt -> cmp a c <> Gt).

(** A group of the summary comes no later than another: its month is
    below, or the months compare equal and its customer is not above. *)
Definition in_summary_order (E : engine) (a b : summary_group) : Prop :=
  localeCompare E (month a) (month b) = Lt
  \/ (localeCompare E (month a) (month b) = Eq
      /\ localeCompare E (customer a) (customer b) <> Gt).

(** A line item all of whose quantity, above zero, has been fulfilled,
    and that is not removed, cancelled, refunded or returned. *)
Definition fully_fulfilled (li : line_item) : bool :=
  negb (skipped li)
  && number_eqb (fulfillable_qty li) zero
  && gtb (total_qty li) zero.

(** An order as the metafield listing reads it, with the line items of
    an order of the report and two metafields. *)
Definition listed (o : order) : Debug.listed_order :=
  {| Debug.lo_id := VNum (of_Z (o_id o));
     Debug.lo_name := VNull;
     Debug.lo_metafields := Some [VNull; VNull];
     Debug.lo_line_items := o_line_items o |}.

(** A character that a JSON string literal holds as it is: no quote, no
    backslash, no control character. *)
Definition plain_char (c : ascii) : bool :=
  negb (Ascii.eqb c dquote) && negb (Ascii.eqb c "\")
  && negb (nat_of_ascii c <? 32)%nat.

(** The text of a money value: an object with the amount and the
    currency code as strings, without white space. *)
Definition money_text (amount currency_code : string) : string :=
  (String "{" (String dquote ("amount" ++ String dquote (String ":"
     (String dquote (amount ++ String dquote (String ","
        (String dquote ("currency_code" ++ String dquote (String ":"
           (String dquote (currency_code
              ++ String dquote (String "}" EmptyString)))))))))))))%string.

(** The orders that upstream answered a call with, given the calls made
    before it; and the orders answered to a list of calls, the latest
    first, made after [tr], in the order they were answered. *)
Definition page_of (up : upstream) (made : trace) (c : call) : list order :=
  match c with
  | GetOrders q =>
      match orders_json up made q with
      | Replied (Some chunk) => chunk
      | _ => []
      end
  | _ => []
  end.

Fixpoint pages (up : upstream) (tr : trace) (calls : list call)
  : list order :=
  match calls with
  | [] => []
  | c :: before => pages up tr before ++ page_of up (before ++ tr) c
  end.

(** A request with another metric; a group of the map, and a group of
    the summary, without its amount; and the figures of a report without
    the total revenue. *)
Definition with_metric (m : string) (req : report_request) : report_request :=
  {| start := start req;
     end_ := end_ req;
     metric := Some m;
     customerId := customerId req |}.

Definition group_without_amount (g : group) : group :=
  {| g_customer := g_customer g;
     g_month := g_month g;
     g_orders := g_orders g;
     g_amount := zero;
     g_order_numbers := g_order_numbers g;
     g_total_billing := g_total_billing g;
     g_total_actual := g_total_actual g;
     g_avg_profit_margin := g_avg_profit_margin g |}.

(** Two maps of groups that differ in the amounts only. *)
Definition same_but_amount (G1 G2 : list (string * group)) : Prop :=
  map (fun kg => (fst kg, group_without_amount (snd kg))) G1
  = map (fun kg => (fst kg, group_without_amount (snd kg))) G2.

Definition without_amount (sg : summary_group) : summary_group :=
  {| customer := customer sg;
     month := month sg;
     orders := orders sg;
     amount := zero;
     order_numbers := order_numbers sg;
     total_billing := total_billing sg;
     total_actual := total_actual sg;
     group_profit_margin := group_profit_margin sg |}.

Definition without_revenue (stats : analytics) : analytics :=
  {| totalRevenue := zero;
     totalOrders := totalOrders stats;
     uniqueCustomers := uniqueCustomers stats;
     avgProfitMargin := avgProfitMargin stats |}.

(** An upstream that rejects every request with the sample failure. *)
Definition failing_upstream : upstream :=
  {| orders_json := fun _ _ => Failed sample_failure;
     metafields_of := fun _ _ => Failed sample_failure;
     fulfillments_of := fun _ _ => Failed sample_failure |}.

(** A query of [GET /api/orders] over January and February 2024, its start
    given with an offset. *)
Definition sample_query : orders_request :=
  {| q_start := Some "2023-12-31T19:00:00-05:00";
     q_end := Some "2024-03-01T00:00:00.000Z";
     q_customerId := Some "8688802627863" |}.

End Observe.

(** ** Properties *)

Import JS Report Spec.

Local Open Scope list_scope.

(** *** Numbers *)

Lemma qc_eqb_eq (a b : Qc) : qc_eqb a b = true -> a = b.
Proof.
  unfold qc_eqb. intros H. apply Qc_is_canon. now apply Qeq_bool_iff.
Qed.

Lemma qc_eqb_refl (a : Qc) : qc_eqb a a = true.
Proof.
  unfold qc_eqb. apply Qeq_bool_iff. reflexivity.
Qed.

Lemma number_eqb_eq (a b : number) : number_eqb a b = true -> a = b.
Proof.
  destruct a, b; simpl; try discriminate; try reflexivity.
  intros H. f_equal. now apply qc_eqb_eq.
Qed.

Lemma number_eqb_refl (a : number) : number_eqb a a = true.
Proof.
  destruct a; simpl; auto using qc_eqb_refl.
Qed.

Lemma qc_is_zero_eq (q : Qc) : qc_is_zero q = true -> q = Q2Qc 0.
Proof.
  apply qc_eqb_eq.
Qed.

Lemma add_zero_r (a : number) : add a zero = a.
Proof.
  destruct a; simpl; try reflexivity.
  f_equal. apply Qcplus_0_r.
Qed.

Lemma add_zero_l (a : number) : add zero a = a.
Proof.
  destruct a; simpl; try reflexivity.
  f_equal. apply Qcplus_0_l.
Qed.

(** [x || 0] changes nothing but [NaN], which it turns into 0. *)
Lemma number_or_zero (x : number) :
  number_or x zero = if isNaN x then zero else x.
Proof.
  destruct x; simpl; try reflexivity.
  unfold number_or; simpl.
  destruct (qc_is_zero q) eqn:Hz; simpl; [|reflexivity].
  apply qc_is_zero_eq in Hz. now subst.
Qed.

(** *** The built-ins at work *)

Example string_to_number_examples :
  map (fun s => number_eqb (string_to_number s) (Fin (Q2Qc (25 # 2))))
    ["12.50"; " 12.5 "; "+125e-1"; "1.25E1"]
  = [true; true; true; true]
  /\ map (fun s => isNaN (string_to_number s))
       ["abc"; "12abc"; "1,2"; "."; "USD 10.00"; "0x"; "12.5"; "0x1F"]
     = [true; true; true; true; true; true; false; false]
  /\ string_to_number EmptyString = zero
  /\ string_to_number "-Infinity" = NInf.
Proof. repeat split; vm_compute; reflexivity. Qed.

Example match_global_examples :
  match_global number_pattern "-1.5.25+3." = Some ["-1.5"; ".25"; "+3"]
  /\ match_global number_pattern "12 apples and 3 pears" = Some ["12"; "3"]
  /\ match_global number_pattern "n/a" = None.
Proof. repeat split; vm_compute; reflexivity. Qed.

Example JSON_parse_examples :
  JSON_parse (dq "{'amount':'12.50','currency_code':'USD'}")
  = Some (VObj [("amount", VStr "12.50"); ("currency_code", VStr "USD")])
  /\ JSON_parse (dq "{'a':[true,null,{'b':'xA'}]}")
     = Some (VObj [("a", VArr [VBool true; VNull; VObj [("b", VStr "xA")]])])
  /\ JSON_parse (dq "{'amount': 5") = None
  /\ JSON_parse (dq "{'amount':01}") = None
  /\ JSON_parse (dq "{'amount':1,}") = None.
Proof. repeat split; vm_compute; reflexivity. Qed.

Example Date_examples :
  map (fun s => option_map toISOString (Date_parse plain_engine s))
    ["2024-01-31T23:30:00-05:00"; "2024-01-01T00:00:00.000Z"; "2024-03";
     "not-a-date"; "2024-13-01"]
  = [Some "2024-02-01T04:30:00.000Z"; Some "2024-01-01T00:00:00.000Z";
     Some "2024-03-01T00:00:00.000Z"; None; None].
Proof. vm_compute. reflexivity. Qed.

(** *** Regular expressions *)

Lemma match_here_length (r : regex) :
  forall s rest,
    match_here r s = Some rest -> (String.length rest <= String.length s)%nat.
Proof.
  induction r as [|a r IH]; intros s rest H.
  - simpl in H. inversion H. lia.
  - destruct a as [p|p|p|p]; simpl in H.
    + destruct s as [|c s]; [discriminate|].
      destruct (p c); [|discriminate]. apply IH in H. simpl. lia.
    + destruct s as [|c s]; [now apply IH|].
      destruct (p c); [|now apply IH].
      destruct (match_here r s) as [x|] eqn:Hx.
      * inversion H; subst. apply IH in Hx. simpl. lia.
      * now apply IH.
    + revert rest H. induction s as [|c s IHs]; intros rest H.
      * now apply IH.
      * destruct (p c); [|now apply IH].
        match type of H with
        | match ?x with _ => _ end = _ => destruct x as [y|] eqn:Hy
        end.
        -- inversion H; subst. specialize (IHs _ eq_refl). simpl. lia.
        -- now apply IH.
    + destruct s as [|c s]; [discriminate|].
      destruct (p c); [|discriminate].
      assert (Hs : (String.length rest <= String.length s)%nat);
        [|simpl; lia].
      revert rest H. induction s as [|c' s IHs]; intros rest H.
      * now apply IH.
      * destruct (p c'); [|now apply IH].
        match type of H with
        | match ?x with _ => _ end = _ => destruct x as [y|] eqn:Hy
        end.
        -- inversion H; subst. specialize (IHs _ eq_refl). simpl. lia.
        -- now apply IH.
Qed.

Lemma substring_0_nonempty (n : nat) (s : string) (c : ascii) (t : string) :
  String.substring 0 n s = String c t -> (0 < n)%nat.
Proof.
  destruct n; [|lia]. destruct s; discriminate.
Qed.

(** The scan of [match_all] is over within the fuel [match_global] gives
    it: any fuel above the length of the subject yields the same
    matches. *)
Lemma match_all_fuel (r : regex) :
  forall fuel fuel' s,
    (String.length s < fuel)%nat -> (String.length s < fuel')%nat ->
    match_all fuel r s = match_all fuel' r s.
Proof.
  induction fuel as [|fuel IH]; intros fuel' s H H'; [lia|].
  destruct fuel' as [|fuel']; [lia|]. simpl.
  destruct (match_here r s) as [rest|] eqn:Hm.
  - pose proof (match_here_length r s rest Hm) as Hlen.
    destruct (String.substring 0 (String.length s - String.length rest) s)
      as [|c t] eqn:Hsub.
    + destruct s as [|c s]; [reflexivity|].
      f_equal. apply IH; simpl in *; lia.
    + apply substring_0_nonempty in Hsub.
      f_equal. apply IH; lia.
  - destruct s as [|c s]; [reflexivity|].
    apply IH; simpl in *; lia.
Qed.

(** *** JSON.parse *)

Lemma skip_ws_length (s : string) :
  (String.length (skip_ws s) <= String.length s)%nat.
Proof.
  induction s as [|c s IH]; simpl; [lia|].
  destruct (is_json_space c); simpl; lia.
Qed.

Lemma read_digits_length (s : string) :
  forall acc n z k r,
    read_digits s acc n = (z, k, r) ->
    (String.length r + k = String.length s + n)%nat.
Proof.
  induction s as [|c s IH]; intros acc n z k r H; simpl in H.
  - inversion H; subst. reflexivity.
  - destruct (is_digit c).
    + apply IH in H. simpl. lia.
    + inversion H; subst. reflexivity.
Qed.

Lemma length_substring (n m : nat) (s : string) :
  (String.length (String.substring n m s) <= m)%nat.
Proof.
  revert n m. induction s as [|c s IH]; intros n m.
  - destruct n, m; simpl; lia.
  - destruct n as [|n]; simpl.
    + destruct m as [|m]; simpl; [lia|]. specialize (IH 0%nat m). lia.
    + apply IH.
Qed.

Lemma strip_prefix_length (lit s rest : string) :
  strip_prefix lit s = Some rest ->
  (String.length rest <= String.length s - String.length lit)%nat.
Proof.
  unfold strip_prefix. destruct (String.prefix lit s); [|discriminate].
  intros H. inversion H; subst. apply length_substring.
Qed.

Lemma parse_string_length (s : string) :
  forall t rest,
    parse_string s = Some (t, rest) ->
    (String.length rest < String.length s)%nat.
Proof.
  cut (forall n s, (String.length s <= n)%nat ->
       forall t rest, parse_string s = Some (t, rest) ->
                      (String.length rest < String.length s)%nat).
  { intros Hgen. exact (Hgen (String.length s) s (Nat.le_refl _)). }
  clear s. induction n as [|n IH]; intros s Hle t rest H;
    (destruct s as [|c r]; [discriminate|]); simpl in Hle; [lia|].
  simpl in H.
  destruct (Ascii.eqb c dquote).
  { inversion H; subst. simpl. lia. }
  destruct (Ascii.eqb c "\").
  - destruct r as [|e r']; [discriminate|]. simpl in Hle.
    assert (Hsimple : forall x,
              match parse_string r' with
              | Some (t0, rest0) => Some (String x t0, rest0)
              | None => None
              end = Some (t, rest) ->
              (String.length rest < String.length (String c (String e r')))%nat).
    { intros x Hx. destruct (parse_string r') as [[t0 rest0]|] eqn:Hr;
        [|discriminate].
      inversion Hx; subst. apply IH in Hr; [simpl; lia|lia]. }
    repeat match type of H with
           | (if ?b then _ else _) = _ => destruct b; [exact (Hsimple _ H)|]
           end.
    destruct (Ascii.eqb e "u"); [|discriminate].
    destruct r' as [|h1 [|h2 [|h3 [|h4 r'']]]]; try discriminate.
    destruct (hex4 h1 h2 h3 h4); [|discriminate].
    destruct (parse_string r'') as [[t0 rest0]|] eqn:Hr; [|discriminate].
    simpl in Hle.
    inversion H; subst. apply IH in Hr; [simpl; lia|lia].
  - destruct (nat_of_ascii c <? 32)%nat; [discriminate|].
    destruct (parse_string r) as [[t0 rest0]|] eqn:Hr; [|discriminate].
    inversion H; subst. apply IH in Hr; [simpl; lia|lia].
Qed.

Lemma parse_number_length (s : string) (n : number) (rest : string) :
  parse_number s = Some (n, rest) ->
  (String.length rest < String.length s)%nat.
Proof.
  unfold parse_number. intros H.
  assert (Hbody : exists body,
            (String.length body <= String.length s)%nat /\
            match read_digits body 0 0 with
            | (_, O, _) => None
            | (ip, S k, r1) =>
                if (match body with
                    | String c _ => Ascii.eqb c "0"
                    | EmptyString => false
                    end) && negb (k =? 0)%nat then None
                else
                  match
                    match r1 with
                    | String c r =>
                        if is_dot c then
                          match read_digits r ip 0 with
                          | (_, O, _) => None
                          | (m, S j, r2) => Some (m, S j, r2)
                          end
                        else Some (ip, O, r1)
                    | EmptyString => Some (ip, O, r1)
                    end
                  with
                  | None => None
                  | Some (m, nf, r2) =>
                      match
                        match r2 with
                        | String c r =>
                            if Ascii.eqb c "e" || Ascii.eqb c "E" then
                              let '(neg_e, r') :=
                                match r with
                                | String d t =>
                                    if Ascii.eqb d "-" then (true, t)
                                    else if Ascii.eqb d "+" then (false, t)
                                    else (false, r)
                                | EmptyString => (false, r)
                                end in
                              match read_digits r' 0 0 with
                              | (_, O, _) => None
                              | (e, S _, r3) =>
                                  Some (if neg_e then - e else e, r3)
                              end
                            else Some (0, r2)
                        | EmptyString => Some (0, r2)
                        end
                      with
                      | None => None
                      | Some (e, r3) =>
                          Some (Fin (if (match s with
                                         | String c _ => Ascii.eqb c "-"
                                         | EmptyString => false
                                         end)
                                     then (- scale10 m (e - Z.of_nat nf))%Qc
                                     else scale10 m (e - Z.of_nat nf)), r3)
                      end
                  end
            end = Some (n, rest)).
  { destruct s as [|c s']; [exists EmptyString; split; [lia|exact H]|].
    destruct (Ascii.eqb c "-").
    - exists s'. split; [simpl; lia|exact H].
    - exists (String c s'). split; [lia|exact H]. }
  clear H. destruct Hbody as (body & Hlen & H).
  destruct (read_digits body 0 0) as [[ip k] r1] eqn:H1.
  apply read_digits_length in H1.
  destruct k as [|k]; [discriminate|].
  destruct (_ && _); [discriminate|].
  assert (Hfrac : forall m nf r2,
            match r1 with
            | String c r =>
                if is_dot c then
                  match read_digits r ip 0 with
                  | (_, O, _) => None
                  | (m, S j, r2) => Some (m, S j, r2)
                  end
                else Some (ip, O, r1)
            | EmptyString => Some (ip, O, r1)
            end = Some (m, nf, r2) ->
            (String.length r2 <= String.length r1)%nat).
  { intros m nf r2 Hf. destruct r1 as [|c r].
    - inversion Hf; subst. lia.
    - destruct (is_dot c).
      + destruct (read_digits r ip 0) as [[m' j] r2'] eqn:H2.
        apply read_digits_length in H2.
        destruct j; [discriminate|]. inversion Hf; subst. simpl. lia.
      + inversion Hf; subst. lia. }
  match type of H with
  | match ?x with _ => _ end = _ => destruct x as [[[m nf] r2]|] eqn:Hx
  end; [|discriminate].
  specialize (Hfrac _ _ _ eq_refl).
  assert (Hexp : forall e r3,
            match r2 with
            | String c r =>
                if Ascii.eqb c "e" || Ascii.eqb c "E" then
                  let '(neg_e, r') :=
                    match r with
                    | String d t =>
                        if Ascii.eqb d "-" then (true, t)
                        else if Ascii.eqb d "+" then (false, t)
                        else (false, r)
                    | EmptyString => (false, r)
                    end in
                  match read_digits r' 0 0 with
                  | (_, O, _) => None
                  | (e, S _, r3) => Some (if neg_e then - e else e, r3)
                  end
                else Some (0, r2)
            | EmptyString => Some (0, r2)
            end = Some (e, r3) ->
            (String.length r3 <= String.length r2)%nat).
  { intros e r3 He. destruct r2 as [|c r].
    - inversion He; subst. lia.
    - destruct (Ascii.eqb c "e" || Ascii.eqb c "E").
      + assert (Hr' : forall (neg_e : bool) r',
                  (String.length r' <= String.length r)%nat ->
                  match read_digits r' 0 0 with
                  | (_, O, _) => None
                  | (e, S _, r3) => Some (if neg_e then - e else e, r3)
                  end = Some (e, r3) ->
                  (String.length r3 <= String.length (String c r))%nat).
        { intros neg_e r' Hl Hd.
          destruct (read_digits r' 0 0) as [[e' j] r3'] eqn:H3.
          apply read_digits_length in H3.
          destruct j; [discriminate|]. inversion Hd; subst. simpl. lia. }
        destruct r as [|d t]; [now apply (Hr' false EmptyString)|].
        destruct (Ascii.eqb d "-");
          [apply (Hr' true t); [simpl; lia|exact He]|].
        destruct (Ascii.eqb d "+");
          [apply (Hr' false t); [simpl; lia|exact He]|].
        apply (Hr' false (String d t)); [lia|exact He].
      + inversion He; subst. lia. }
  match type of H with
  | match ?x with _ => _ end = _ => destruct x as [[e r3]|] eqn:Hy
  end; [|discriminate].
  specialize (Hexp _ _ eq_refl). inversion H; subst. lia.
Qed.

Ltac break_match H :=
  match type of H with
  | context [match ?x with _ => _ end] => destruct x eqn:?
  end.

Ltac length_facts :=
  repeat match goal with
    | H : skip_ws ?s = _ |- _ =>
        let L := fresh "L" in
        pose proof (skip_ws_length s) as L; rewrite H in L; clear H
    | H : parse_string _ = Some _ |- _ => apply parse_string_length in H
    | H : parse_number _ = Some _ |- _ => apply parse_number_length in H
    | H : strip_prefix _ _ = Some _ |- _ => apply strip_prefix_length in H
    end.

(** A parser that returns has consumed something. *)
Lemma parse_progress (fuel : nat) :
  (forall s v r,
     parse_value fuel s = Parsed v r ->
     (String.length r < String.length s)%nat)
  /\ (forall s acc v r,
        parse_elements fuel s acc = Parsed v r ->
        (String.length r < String.length s)%nat)
  /\ (forall s acc v r,
        parse_members fuel s acc = Parsed v r ->
        (String.length r < String.length s)%nat).
Proof.
  induction fuel as [|fuel (IHv & IHe & IHm)];
    [repeat split; intros; discriminate|].
  split; [|split]; intros; simpl in H;
    repeat break_match H; try discriminate;
    first [apply IHe in H | apply IHm in H | inversion H; subst; clear H];
    repeat match goal with
      | H : parse_value fuel _ = Parsed _ _ |- _ => apply IHv in H
      end;
    length_facts; simpl in *; lia.
Qed.

Ltac break_goal :=
  match goal with
  | |- context [match ?x with _ => _ end] => destruct x eqn:?
  end.

(** Fuel above twice the length of the text is never exhausted. *)
Lemma parse_fuel_enough (fuel : nat) :
  (forall s,
     (2 * String.length s < fuel)%nat -> parse_value fuel s <> OutOfFuel)
  /\ (forall s acc,
        (2 * String.length s + 1 < fuel)%nat ->
        parse_elements fuel s acc <> OutOfFuel)
  /\ (forall s acc,
        (2 * String.length s < fuel)%nat ->
        parse_members fuel s acc <> OutOfFuel).
Proof.
  induction fuel as [|fuel (IHv & IHe & IHm)];
    [repeat split; intros; lia|].
  split; [|split]; intros; simpl;
    repeat break_goal; try discriminate;
    repeat match goal with
      | H : parse_value fuel _ = Parsed _ _ |- _ =>
          apply (proj1 (parse_progress fuel)) in H
      end;
    try (exfalso;
         match goal with
         | H : parse_value fuel ?s = OutOfFuel |- _ =>
             apply (IHv s); [|exact H]
         end);
    try apply IHe; try apply IHm;
    length_facts; simpl in *; lia.
Qed.

(** [JSON_parse] does not run out of fuel: when it fails, the text is no
    JSON text. *)
Lemma parse_value_fuel (s : string) :
  parse_value (json_fuel s) s <> OutOfFuel.
Proof.
  apply (proj1 (parse_fuel_enough (json_fuel s))). unfold json_fuel. lia.
Qed.

(** *** Upstream computations *)

Ltac run_bind :=
  unfold bind, ret, get_orders, post_metafields, post_fulfillments in *;
  simpl in *.

(** The rows of [enrich_all] are the rows it started from followed by one
    row of [enrich] for each order. *)
Lemma enrich_all_Forall (P : row -> Prop) (up : upstream) :
  (forall o tr, P (fst (enrich up o tr))) ->
  forall orders rows tr,
    Forall P rows -> Forall P (fst (enrich_all up orders rows tr)).
Proof.
  intros HP orders. induction orders as [|o rest IH]; intros rows tr Hrows.
  - exact Hrows.
  - simpl. unfold bind. destruct (enrich up o tr) as [r tr1] eqn:He.
    apply IH. apply Forall_app. split; [exact Hrows|].
    constructor; [|constructor].
    specialize (HP o tr). now rewrite He in HP.
Qed.

(** What a report that went through was built from. *)
Lemma report_inv (E : engine) (up : upstream) (req : report_request)
    (tr tr' : trace) (resp : response)
    (summary : list summary_group) (detail : list row) (stats : analytics)
    (generatedAt : string) (n1 n2 : nat) :
  report E up req tr = (Some resp, tr') ->
  payload resp = ReportBody summary detail stats generatedAt n1 n2 ->
  exists created_at_min created_at_max orders tr1 groups,
    iso_of E (field (start req)) = Some created_at_min /\
    iso_of E (field (end_ req)) = Some created_at_max /\
    fetch_orders up
      (order_params created_at_min created_at_max (customerId req)) tr
    = (Some (Replied orders), tr1) /\
    enrich_all up orders [] tr1 = (detail, tr') /\
    group_rows E (field (metric req)) detail [] = Some groups /\
    summary = summary_of E groups /\
    (field (metric req) = "billing" \/ field (metric req) = "actual").
Proof.
  unfold report. intros H Hp.
  destruct (falsy (start req) || falsy (end_ req) || falsy (metric req)).
  { inversion H; subst. discriminate Hp. }
  destruct (negb _) eqn:Hmetric.
  { inversion H; subst. discriminate Hp. }
  apply negb_false_iff, orb_true_iff in Hmetric.
  rewrite !String.eqb_eq in Hmetric.
  destruct (iso_of E (field (start req))) as [cmin|].
  2:{ inversion H; subst. discriminate Hp. }
  destruct (iso_of E (field (end_ req))) as [cmax|].
  2:{ inversion H; subst. discriminate Hp. }
  unfold bind in H.
  destruct (fetch_orders up _ tr) as [fetched tr1] eqn:Hf.
  destruct fetched as [[err|orders]|].
  - inversion H; subst. discriminate Hp.
  - destruct (enrich_all up orders [] tr1) as [rows tr2] eqn:Hr.
    destruct (group_rows E (field (metric req)) rows []) as [groups|] eqn:Hg.
    + inversion H; subst. simpl in Hp. inversion Hp; subst.
      exists cmin, cmax, orders, tr1, groups. auto 10.
    + inversion H; subst. discriminate Hp.
  - inversion H.
Qed.

Lemma enrich_billing (up : upstream) (o : order) (tr : trace) :
  let r := fst (enrich up o tr) in
  billing_amount r = add (line_sum r) (additional_charges r).
Proof.
  unfold enrich. run_bind.
  destruct (metafields_of up tr (o_id o)) as [e|data]; simpl.
  - symmetry. apply add_zero_r.
  - reflexivity.
Qed.

(** C1. Every row of the detail of a report has a [billing_amount] that
    is [line_sum + additional_charges], the very value of that sum, on the
    enrichment path and on the fallback path alike; and the row of an
    order does not depend on the order's own total price. *)
Theorem billing_amount_is_recomputed :
  forall (E : engine) (up : upstream) (req : report_request)
         (tr tr' : trace) (resp : response),
    report E up req tr = (Some resp, tr') ->
    (forall r, In r (detail_of resp) ->
       billing_amount r = add (line_sum r) (additional_charges r)) /\
    (forall o v tr0,
       enrich up (with_total_price v o) tr0 = enrich up o tr0).
Proof.
  intros E up req tr tr' resp H. split.
  - intros r Hin. unfold detail_of in Hin.
    destruct (payload resp) eqn:Hp; try contradiction.
    destruct (report_inv _ _ _ _ _ _ _ _ _ _ _ _ H Hp)
      as (cmin & cmax & orders & tr1 & groups & _ & _ & _ & Hrows & _ & _ & _).
    pose proof (enrich_all_Forall
      (fun r => billing_amount r = add (line_sum r) (additional_charges r))
      up (fun o t => enrich_billing up o t) orders [] tr1 (Forall_nil _)) as HF.
    rewrite Hrows in HF. simpl in HF.
    rewrite Forall_forall in HF. now apply HF.
  - intros o v tr0. reflexivity.
Qed.

Lemma billing_amount_is_recomputed_witness :
  report plain_engine sample_upstream sample_request []
  = (Some sample_response, sample_trace)
  /\ In (nth_row 1) (detail_of sample_response)
  /\ billing_amount (nth_row 1)
     = add (line_sum (nth_row 1)) (additional_charges (nth_row 1)).
Proof.
  assert (H : report plain_engine sample_upstream sample_request []
              = (Some sample_response, sample_trace))
    by (vm_compute; reflexivity).
  assert (Hin : In (nth_row 1) (detail_of sample_response))
    by (vm_compute; right; left; reflexivity).
  split; [exact H|]. split; [exact Hin|].
  exact (proj1 (billing_amount_is_recomputed _ _ _ _ _ _ H) _ Hin).
Defined.

(** *** The line sum *)

Ltac case_if :=
  match goal with
  | |- context [if ?b then _ else _] => destruct b
  end.

Lemma node_steps (edges : list fulfillment_node) (st : number * Z) :
  fst (fold_left node_step edges st)
  = fold_left add
      (map (fun node => mul (unit_price node) (node_qty node))
         (filter both_positive edges))
      (fst st).
Proof.
  revert st. induction edges as [|node rest IH]; intros [acc n].
  - reflexivity.
  - simpl fold_left at 1. rewrite IH. clear IH.
    unfold node_step, both_positive, unit_price, node_qty. simpl filter.
    case_if; reflexivity.
Qed.

Lemma fulfillment_steps (fulfillments : list fulfillment) (st : number * Z) :
  fst (fold_left fulfillment_step fulfillments st)
  = fold_left add
      (map (fun node => mul (unit_price node) (node_qty node))
         (filter both_positive
            (flat_map nodes_of (filter succeeded fulfillments))))
      (fst st).
Proof.
  revert st. induction fulfillments as [|f rest IH]; intros st.
  - reflexivity.
  - simpl fold_left at 1. rewrite IH. clear IH.
    unfold fulfillment_step, succeeded, nodes_of. simpl filter.
    destruct (String.eqb (f_status f) "SUCCESS"); [|reflexivity].
    simpl flat_map. rewrite filter_app, map_app, fold_left_app.
    destruct (f_edges f) as [edges|]; [|reflexivity].
    now rewrite node_steps.
Qed.

Lemma line_item_steps (items : list line_item) (st : number * Z) :
  fst (fold_left line_item_step items st)
  = fold_left add
      (map (fun li => mul (item_price li) (fulfilled_qty li))
         (filter
            (fun li => negb (skipped li)
                       && ltb (fulfillable_qty li) (total_qty li))
            items))
      (fst st).
Proof.
  revert st. induction items as [|li rest IH]; intros [acc n].
  - reflexivity.
  - simpl fold_left at 1. rewrite IH. clear IH.
    unfold line_item_step, skipped, fulfillable_qty, total_qty,
      item_price, fulfilled_qty. simpl filter.
    case_if; [reflexivity|].
    simpl negb. simpl andb.
    case_if; reflexivity.
Qed.

Lemma line_item_steps_outer (items : list line_item) (acc : number) :
  fold_left line_item_step_outer items acc
  = fold_left add
      (map (fun li => mul (item_price li) (fulfilled_qty li))
         (filter
            (fun li => negb (skipped li)
                       && ltb (fulfillable_qty li) (total_qty li))
            items))
      acc.
Proof.
  revert acc. induction items as [|li rest IH]; intros acc.
  - reflexivity.
  - simpl fold_left at 1. rewrite IH. clear IH.
    unfold line_item_step_outer, skipped, fulfillable_qty, total_qty,
      item_price, fulfilled_qty. simpl filter.
    case_if; [reflexivity|].
    simpl negb. simpl andb.
    case_if; reflexivity.
Qed.

(** The two copies of the line-item loop compute the same sum. *)
Lemma fallback_row_line_sum (o : order) (e : error) :
  line_sum (fallback_row o) = line_sum_of o (Failed e).
Proof.
  unfold fallback_row, line_sum_of. simpl line_sum.
  now rewrite line_item_steps, line_item_steps_outer.
Qed.

(** C3, as stated, fails: an item whose fulfillable quantity exceeds its
    quantity (here 2 against 1, at price 10) is left out by the handler,
    where the stated sum takes its negative product in. *)
Lemma line_sum_stated_counterexample :
  let o := sample_order 7 "2024-01-05T10:00:00Z" [sample_item "10.00" 1 2] in
  line_sum_of o (Failed sample_failure) = zero
  /\ stated_line_item_revenue o = of_Z (-10)
  /\ line_sum_of o (Failed sample_failure) <> stated_line_item_revenue o.
Proof.
  assert (H1 : line_sum_of
                 (sample_order 7 "2024-01-05T10:00:00Z" [sample_item "10.00" 1 2])
                 (Failed sample_failure) = zero)
    by (apply number_eqb_eq; vm_compute; reflexivity).
  assert (H2 : stated_line_item_revenue
                 (sample_order 7 "2024-01-05T10:00:00Z" [sample_item "10.00" 1 2])
               = of_Z (-10))
    by (apply number_eqb_eq; vm_compute; reflexivity).
  cbv zeta. split; [exact H1|]. split; [exact H2|].
  rewrite H1, H2. intros H.
  apply (f_equal (fun x => number_eqb x zero)) in H.
  vm_compute in H. discriminate H.
Qed.

(** C3, amended. The line sum of an order's row is: when the metafield
    query and the fulfilment query both answer, the sum, over the line
    items of the successful fulfilments whose quantity and unit price
    (total amount divided by quantity) are both positive, of price times
    quantity; when the fulfilment query fails, or is not made because the
    metafield query failed, the sum, over the order's own line items that
    are not removed, cancelled, refunded or returned and whose fulfillable
    quantity is below their quantity, of price times fulfilled quantity,
    the quantity minus the fulfillable quantity. *)
Theorem line_sum_of_enriched_order :
  forall (up : upstream) (o : order) (tr : trace),
    line_sum (fst (enrich up o tr))
    = match metafields_of up tr (o_id o) with
      | Failed _ => line_item_revenue o
      | Replied _ =>
          match fulfillments_of up (MetafieldsQuery (o_id o) :: tr) (o_id o)
          with
          | Replied (Some fulfillments) => fulfilled_revenue fulfillments
          | Replied None => zero
          | Failed _ => line_item_revenue o
          end
      end.
Proof.
  intros up o tr. unfold enrich. run_bind.
  destruct (metafields_of up tr (o_id o)) as [e|data]; simpl.
  - apply line_item_steps_outer.
  - unfold line_sum_of.
    destruct (fulfillments_of up _ (o_id o)) as [e|[fs|]].
    + now rewrite line_item_steps.
    + now rewrite fulfillment_steps.
    + reflexivity.
Qed.

Lemma line_sum_of_enriched_order_witness :
  line_sum
    (fst (enrich sample_upstream
            (sample_order 3 "2024-01-31T23:30:00-05:00"
               [sample_item "40.00" 3 1]) []))
  = line_item_revenue
      (sample_order 3 "2024-01-31T23:30:00-05:00" [sample_item "40.00" 3 1])
  /\ line_item_revenue
       (sample_order 3 "2024-01-31T23:30:00-05:00" [sample_item "40.00" 3 1])
     = of_Z 80.
Proof.
  split.
  - exact (line_sum_of_enriched_order sample_upstream
             (sample_order 3 "2024-01-31T23:30:00-05:00"
                [sample_item "40.00" 3 1]) []).
  - apply number_eqb_eq. vm_compute. reflexivity.
Defined.

(** *** The metafield parsers *)

Lemma json_amount_money (v : string) (n : number) :
  json_amount v = Some n <-> exists a, money_amount v a /\ n = to_number a.
Proof.
  unfold json_amount, money_amount. split.
  - destruct (startsWith v "{"); [|discriminate].
    destruct (JSON_parse v) as [parsed|]; [|discriminate].
    destruct parsed; simpl; try discriminate.
    destruct (lookup_last "amount" fields) as [a|] eqn:Hl; simpl;
      [|discriminate].
    destruct (truthy a) eqn:Ht; [|discriminate].
    intros H. inversion H; subst. exists a.
    split; [split; [reflexivity|exists fields; auto]|reflexivity].
  - intros (a & (Hs & fields & Hp & Hl & Ht) & ->).
    rewrite Hs, Hp. simpl. rewrite Hl, Ht. reflexivity.
Qed.

Lemma json_amount_none (v : string) :
  json_amount v = None <-> ~ exists a, money_amount v a.
Proof.
  split.
  - intros H (a & Ha).
    assert (json_amount v = Some (to_number a))
      by (apply json_amount_money; eauto).
    congruence.
  - intros H. destruct (json_amount v) as [n|] eqn:Hj; [|reflexivity].
    apply json_amount_money in Hj. destruct Hj as (a & Ha & _).
    exfalso. eauto.
Qed.

(** C4, as stated, fails on a free text with two numbers in it: the
    leading numeric substring is 12, where [parseAdditionalCharges] adds
    all the numbers up and [parseActualTotal] extracts none. *)
Lemma metafield_value_stated_counterexample :
  let v := "12 apples and 3 pears" in
  stated_value v = of_Z 12
  /\ parseAdditionalCharges [additional_entry v] = of_Z 15
  /\ parseActualTotal [actual_entry v] = zero
  /\ parseAdditionalCharges [additional_entry v] <> stated_value v
  /\ parseActualTotal [actual_entry v] <> stated_value v.
Proof.
  assert (H1 : stated_value "12 apples and 3 pears" = of_Z 12)
    by (apply number_eqb_eq; vm_compute; reflexivity).
  assert (H2 : parseAdditionalCharges
                 [additional_entry "12 apples and 3 pears"] = of_Z 15)
    by (apply number_eqb_eq; vm_compute; reflexivity).
  assert (H3 : parseActualTotal [actual_entry "12 apples and 3 pears"] = zero)
    by (apply number_eqb_eq; vm_compute; reflexivity).
  cbv zeta. rewrite H1, H2, H3. repeat split; intros H;
    apply (f_equal (fun x => number_eqb x (of_Z 12))) in H;
    vm_compute in H; discriminate H.
Qed.

(** C4, amended. The value read from a matching entry is, for both
    parsers: the [amount] field, taken as a number, when the text starts
    with a brace and is a JSON object with a truthy [amount]; else the
    number the text parses as, when it does. Otherwise
    [parseAdditionalCharges] returns the sum of all the numeric substrings
    of the text, and passes on to the entries that follow when there is
    none, and [parseActualTotal] returns 0. *)
Theorem metafield_value_resolution :
  forall (m : metafield) (rest : list metafield),
    (is_additional_charges m = true ->
       (forall a, money_amount (m_value m) a ->
          parseAdditionalCharges (m :: rest) = to_number a)
       /\ ((~ exists a, money_amount (m_value m) a) ->
           (isNaN (string_to_number (m_value m)) = false ->
              parseAdditionalCharges (m :: rest)
              = string_to_number (m_value m))
           /\ (isNaN (string_to_number (m_value m)) = true ->
                 parseAdditionalCharges (m :: rest)
                 = match numeric_substrings (m_value m) with
                   | Some found => sum_numbers (map string_to_number found)
                   | None => parseAdditionalCharges rest
                   end)))
    /\
    (is_actual_total m = true ->
       (forall a, money_amount (m_value m) a ->
          parseActualTotal (m :: rest) = to_number a)
       /\ ((~ exists a, money_amount (m_value m) a) ->
           (isNaN (string_to_number (m_value m)) = false ->
              parseActualTotal (m :: rest) = string_to_number (m_value m))
           /\ (isNaN (string_to_number (m_value m)) = true ->
                 parseActualTotal (m :: rest) = zero))).
Proof.
  intros m rest. split; intros Hm.
  - unfold is_additional_charges in Hm. simpl parseAdditionalCharges.
    rewrite Hm. split.
    + intros a Ha.
      assert (Hj : json_amount (m_value m) = Some (to_number a))
        by (apply json_amount_money; eauto).
      now rewrite Hj.
    + intros Hn. apply json_amount_none in Hn. rewrite Hn.
      split; intros Hnan; rewrite Hnan; reflexivity.
  - unfold is_actual_total in Hm. simpl parseActualTotal.
    rewrite Hm. split.
    + intros a Ha.
      assert (Hj : json_amount (m_value m) = Some (to_number a))
        by (apply json_amount_money; eauto).
      now rewrite Hj.
    + intros Hn. apply json_amount_none in Hn. rewrite Hn.
      split; intros Hnan; rewrite Hnan; reflexivity.
Qed.

Lemma metafield_value_resolution_witness :
  parseAdditionalCharges
    [additional_entry (dq "{'amount':'12.50','currency_code':'USD'}")]
  = to_number (VStr "12.50")
  /\ parseAdditionalCharges [additional_entry "42.5"]
     = string_to_number "42.5"
  /\ parseActualTotal [actual_entry "USD 10.00"] = zero.
Proof.
  assert (Hmoney :
    money_amount (dq "{'amount':'12.50','currency_code':'USD'}")
      (VStr "12.50")).
  { split; [reflexivity|].
    exists [("amount", VStr "12.50"); ("currency_code", VStr "USD")].
    repeat split; vm_compute; reflexivity. }
  assert (Hplain : forall v, startsWith v "{" = false ->
                             ~ exists a, money_amount v a).
  { intros v Hv (a & Hs & _). congruence. }
  split; [|split].
  - exact (proj1 (proj1 (metafield_value_resolution
             (additional_entry (dq "{'amount':'12.50','currency_code':'USD'}"))
             []) eq_refl) _ Hmoney).
  - exact (proj1 (proj2 (proj1 (metafield_value_resolution
             (additional_entry "42.5") []) eq_refl)
             (Hplain "42.5" eq_refl)) eq_refl).
  - exact (proj2 (proj2 (proj2 (metafield_value_resolution
             (actual_entry "USD 10.00") []) eq_refl)
             (Hplain "USD 10.00" eq_refl)) eq_refl).
Defined.

Lemma parseActualTotal_cons (m : metafield) (rest : list metafield) :
  parseActualTotal (m :: rest)
  = if is_actual_total m then
      match json_amount (m_value m) with
      | Some n => n
      | None =>
          if isNaN (string_to_number (m_value m)) then zero
          else string_to_number (m_value m)
      end
    else parseActualTotal rest.
Proof. reflexivity. Qed.

Lemma parseAdditionalCharges_cons (m : metafield) (rest : list metafield) :
  parseAdditionalCharges (m :: rest)
  = if is_additional_charges m then
      match json_amount (m_value m) with
      | Some n => n
      | None =>
          if negb (isNaN (string_to_number (m_value m)))
          then string_to_number (m_value m)
          else
            match numeric_substrings (m_value m) with
            | Some found => sum_numbers (map string_to_number found)
            | None => parseAdditionalCharges rest
            end
      end
    else parseAdditionalCharges rest.
Proof. reflexivity. Qed.

(** The entry a parser returns from, when it returns from one. *)
Lemma parseActualTotal_first (metafields : list metafield) :
  parseActualTotal metafields
  = match find is_actual_total metafields with
    | Some m => parseActualTotal [m]
    | None => zero
    end.
Proof.
  induction metafields as [|m rest IH]; [reflexivity|].
  simpl find. rewrite !parseActualTotal_cons.
  destruct (is_actual_total m) eqn:Hm.
  - rewrite parseActualTotal_cons, Hm. reflexivity.
  - exact IH.
Qed.

Lemma parseAdditionalCharges_first (metafields : list metafield) :
  parseAdditionalCharges metafields
  = match find (fun m => is_additional_charges m && yields_number (m_value m))
            metafields with
    | Some m => parseAdditionalCharges [m]
    | None => zero
    end.
Proof.
  induction metafields as [|m rest IH]; [reflexivity|].
  simpl find. rewrite parseAdditionalCharges_cons.
  destruct (is_additional_charges m) eqn:Hm; [|exact IH].
  simpl andb. unfold yields_number.
  destruct (json_amount (m_value m)) eqn:Hj.
  - rewrite parseAdditionalCharges_cons, Hm, Hj. reflexivity.
  - destruct (isNaN (string_to_number (m_value m))) eqn:Hn;
      cbn [negb orb andb].
    + destruct (numeric_substrings (m_value m)) eqn:Hs.
      * rewrite parseAdditionalCharges_cons, Hm, Hj, Hn, Hs. reflexivity.
      * exact IH.
    + rewrite parseAdditionalCharges_cons, Hm, Hj, Hn. reflexivity.
Qed.

(** C10, stated of [parseAdditionalCharges], fails: a first matching
    entry without any number in it is passed over, and the value comes
    from the matching entry after it. *)
Lemma first_matching_entry_counterexample :
  let metafields := [additional_entry "n/a"; additional_entry "5"] in
  find is_additional_charges metafields = Some (additional_entry "n/a")
  /\ parseAdditionalCharges [additional_entry "n/a"] = zero
  /\ parseAdditionalCharges metafields = of_Z 5
  /\ parseAdditionalCharges metafields
     <> match find is_additional_charges metafields with
        | Some m => parseAdditionalCharges [m]
        | None => zero
        end.
Proof.
  assert (H1 : parseAdditionalCharges [additional_entry "n/a"] = zero)
    by (apply number_eqb_eq; vm_compute; reflexivity).
  assert (H2 : parseAdditionalCharges
                 [additional_entry "n/a"; additional_entry "5"] = of_Z 5)
    by (apply number_eqb_eq; vm_compute; reflexivity).
  assert (H3 : find is_additional_charges
                 [additional_entry "n/a"; additional_entry "5"]
               = Some (additional_entry "n/a")) by reflexivity.
  cbv zeta. split; [exact H3|]. split; [exact H1|]. split; [exact H2|].
  rewrite H2, H3, H1. intros H.
  apply (f_equal (fun x => number_eqb x zero)) in H.
  vm_compute in H. discriminate H.
Qed.

(** C10, amended. An entry matches by namespace [distacart] with the bare
    key, or by the combined key whatever its namespace.
    [parseActualTotal] returns the value of the first matching entry and
    ignores the later ones; [parseAdditionalCharges] returns the value of
    the first matching entry that yields a number (a JSON amount, a
    numeric text, or a text with a numeric substring), passing over the
    matching entries that yield none; each returns 0 when there is no such
    entry. *)
Theorem first_matching_entry :
  forall metafields : list metafield,
    parseActualTotal metafields
    = match find is_actual_total metafields with
      | Some m => parseActualTotal [m]
      | None => zero
      end
    /\ parseAdditionalCharges metafields
       = match find (fun m => is_additional_charges m
                              && yields_number (m_value m)) metafields with
         | Some m => parseAdditionalCharges [m]
         | None => zero
         end
    /\ (forall m,
          is_additional_charges m = true <->
          (m_namespace m = "distacart" /\ m_key m = "additional_charges")
          \/ m_key m = "distacart.additional_charges")
    /\ (forall m,
          is_actual_total m = true <->
          (m_namespace m = "distacart"
           /\ m_key m = "actual_total_checkout_price")
          \/ m_key m = "distacart.actual_total_checkout_price").
Proof.
  intros metafields.
  split; [apply parseActualTotal_first|].
  split; [apply parseAdditionalCharges_first|].
  split; intros m.
  - unfold is_additional_charges.
    rewrite orb_true_iff, andb_true_iff, !String.eqb_eq. reflexivity.
  - unfold is_actual_total.
    rewrite orb_true_iff, andb_true_iff, !String.eqb_eq. reflexivity.
Qed.

(** *** The rows of the detail *)

Lemma enrich_all_rows_from (up : upstream) (orders : list order) :
  forall rows tr,
    enrich_all up orders rows tr
    = (rows ++ fst (rows_from up orders tr), snd (rows_from up orders tr)).
Proof.
  induction orders as [|o rest IH]; intros rows tr; simpl.
  - unfold ret. now rewrite app_nil_r.
  - unfold bind. destruct (enrich up o tr) as [r tr1].
    rewrite IH. destruct (rows_from up rest tr1) as [rs tr2]. simpl.
    now rewrite <- app_assoc.
Qed.

Lemma enrich_order_id (up : upstream) (o : order) (tr : trace) :
  order_id (fst (enrich up o tr)) = o_id o.
Proof.
  unfold enrich. run_bind.
  destruct (metafields_of up tr (o_id o)); reflexivity.
Qed.

Lemma rows_from_ids (up : upstream) (orders : list order) :
  forall tr, map order_id (fst (rows_from up orders tr)) = map o_id orders.
Proof.
  induction orders as [|o rest IH]; intros tr; simpl; [reflexivity|].
  pose proof (enrich_order_id up o tr) as Hid.
  destruct (enrich up o tr) as [r tr1]. specialize (IH tr1).
  destruct (rows_from up rest tr1) as [rs tr2]. simpl in *.
  now rewrite Hid, IH.
Qed.




Lemma sample_run_eq :
  report plain_engine sample_upstream sample_request []
  = (Some sample_response, sample_trace).
Proof. vm_compute. reflexivity. Defined.


(** *** The profit margin *)

Lemma leb_zero_not_gtb (x : number) :
  leb x zero = true -> gtb x zero = false.
Proof.
  unfold leb, gtb. destruct x; simpl; try discriminate; try reflexivity.
  intros H. now apply negb_true_iff in H.
Qed.

Lemma enrich_profit_margin (up : upstream) (o : order) (tr : trace) :
  let r := fst (enrich up o tr) in
  (leb (billing_amount r) zero = true -> profit_margin r = zero)
  /\ (forall data, metafields_of up tr (o_id o) = Replied data ->
        profit_margin r = stated_profit_margin r)
  /\ (forall e, metafields_of up tr (o_id o) = Failed e ->
        profit_margin r = zero).
Proof.
  unfold enrich, bind, post_metafields, post_fulfillments, ret.
  destruct (metafields_of up tr (o_id o)) as [e|data]; cbn [fst].
  - repeat split; intros; try reflexivity. discriminate.
  - unfold stated_profit_margin, enriched_row.
    cbn [billing_amount profit_margin actual_spend].
    split; [|split].
    + intros H. apply leb_zero_not_gtb in H. now rewrite H.
    + intros ? _. reflexivity.
    + intros ? H. discriminate H.
Qed.

(** C6, as stated, fails on the fallback path: the second row of the
    sample report, whose metafield query failed, bills 100 and spends 0,
    a margin of 100 by the formula, and carries a margin of 0. *)
Lemma profit_margin_stated_counterexample :
  In (nth_row 1) (detail_of sample_response)
  /\ billing_amount (nth_row 1) = of_Z 100
  /\ actual_spend (nth_row 1) = zero
  /\ stated_profit_margin (nth_row 1) = of_Z 100
  /\ profit_margin (nth_row 1) = zero
  /\ profit_margin (nth_row 1) <> stated_profit_margin (nth_row 1).
Proof.
  assert (H0 : In (nth_row 1) (detail_of sample_response))
    by (vm_compute; right; left; reflexivity).
  assert (H1 : billing_amount (nth_row 1) = of_Z 100)
    by (apply number_eqb_eq; vm_compute; reflexivity).
  assert (H2 : actual_spend (nth_row 1) = zero)
    by (apply number_eqb_eq; vm_compute; reflexivity).
  assert (H3 : stated_profit_margin (nth_row 1) = of_Z 100)
    by (apply number_eqb_eq; vm_compute; reflexivity).
  assert (H4 : profit_margin (nth_row 1) = zero)
    by (apply number_eqb_eq; vm_compute; reflexivity).
  repeat (split; [assumption|]).
  rewrite H3, H4. intros H.
  apply (f_equal (fun x => number_eqb x zero)) in H.
  vm_compute in H. discriminate H.
Qed.

(** C6, amended. Every row of a report has a zero margin when its
    billing amount is not positive. The row of an order whose metafield
    query answered has the margin
    [(billing_amount - actual_spend) / billing_amount * 100] when its
    billing amount is positive; the row of an order whose metafield query
    failed has a zero margin whatever its billing amount. *)
Theorem profit_margin_of_rows :
  forall (E : engine) (up : upstream) (req : report_request)
         (tr tr' : trace) (resp : response),
    report E up req tr = (Some resp, tr') ->
    (forall r, In r (detail_of resp) ->
       leb (billing_amount r) zero = true -> profit_margin r = zero)
    /\ (forall o tr0 data,
          metafields_of up tr0 (o_id o) = Replied data ->
          let r := fst (enrich up o tr0) in
          profit_margin r
          = if gtb (billing_amount r) zero
            then mul (div (sub (billing_amount r) (actual_spend r))
                        (billing_amount r)) (of_Z 100)
            else zero)
    /\ (forall o tr0 e,
          metafields_of up tr0 (o_id o) = Failed e ->
          profit_margin (fst (enrich up o tr0)) = zero).
Proof.
  intros E up req tr tr' resp H. split; [|split].
  - intros r Hin. unfold detail_of in Hin.
    destruct (payload resp) eqn:Hp; try contradiction.
    destruct (report_inv _ _ _ _ _ _ _ _ _ _ _ _ H Hp)
      as (cmin & cmax & orders & tr1 & groups & _ & _ & _ & Hrows & _ & _ & _).
    pose proof (enrich_all_Forall
      (fun r => leb (billing_amount r) zero = true -> profit_margin r = zero)
      up (fun o t => proj1 (enrich_profit_margin up o t))
      orders [] tr1 (Forall_nil _)) as HF.
    rewrite Hrows in HF. simpl in HF.
    rewrite Forall_forall in HF. now apply HF.
  - intros o tr0 data Hm.
    exact (proj1 (proj2 (enrich_profit_margin up o tr0)) data Hm).
  - intros o tr0 e Hm.
    exact (proj2 (proj2 (enrich_profit_margin up o tr0)) e Hm).
Qed.

Lemma profit_margin_of_rows_witness :
  profit_margin
    (fst (enrich sample_upstream
            (sample_order 2 "2024-01-20T10:00:00-05:00"
               [sample_item "100.00" 1 0]) []))
  = zero.
Proof.
  exact (proj2 (proj2 (profit_margin_of_rows _ _ _ _ _ _ sample_run_eq))
           (sample_order 2 "2024-01-20T10:00:00-05:00"
              [sample_item "100.00" 1 0]) [] sample_failure eq_refl).
Defined.

(** *** The fetch loop *)

(** With the count of fetched orders at most 10000 at the head of the
    loop, which it is at the start and after every turn that goes on,
    [fuel] requests are enough when [250 * fuel] exceeds what is left to
    10000. *)
Lemma fetch_loop_breaks (up : upstream) (params : list (string * string)) :
  forall fuel since_id orders totalFetched tr,
    totalFetched <= 10000 ->
    10000 - totalFetched < 250 * Z.of_nat fuel ->
    fst (fetch_loop fuel up params since_id orders totalFetched tr) <> None.
Proof.
  induction fuel as [|fuel IH]; intros since_id orders total tr Hle Hfuel.
  - exfalso. lia.
  - simpl. unfold bind, get_orders.
    destruct (orders_json up tr _) as [e|data]; [discriminate|].
    destruct (Z.of_nat (List.length _) <? limit) eqn:Hshort; [discriminate|].
    destruct (10000 <? _) eqn:Hcap; [discriminate|].
    apply Z.ltb_ge in Hshort, Hcap. unfold limit in Hshort.
    apply IH; lia.
Qed.

(** More fuel does not change the outcome of a loop that has broken. *)
Lemma fetch_loop_more_fuel (up : upstream) (params : list (string * string)) :
  forall fuel fuel' since_id orders totalFetched tr res tr',
    fetch_loop fuel up params since_id orders totalFetched tr
    = (Some res, tr') ->
    (fuel <= fuel')%nat ->
    fetch_loop fuel' up params since_id orders totalFetched tr
    = (Some res, tr').
Proof.
  induction fuel as [|fuel IH];
    intros fuel' since_id orders total tr res tr' H Hle.
  - discriminate H.
  - destruct fuel' as [|fuel']; [lia|].
    simpl in *. unfold bind, get_orders in *.
    destruct (orders_json up tr _) as [e|data]; [exact H|].
    destruct (Z.of_nat (List.length _) <? limit); [exact H|].
    destruct (10000 <? _); [exact H|].
    apply IH with (fuel' := fuel') in H; [exact H|lia].
Qed.

(** The loop makes at most one request for each unit of fuel. *)
Lemma fetch_loop_requests (up : upstream) (params : list (string * string)) :
  forall fuel since_id orders totalFetched tr,
    exists calls,
      snd (fetch_loop fuel up params since_id orders totalFetched tr)
      = calls ++ tr
      /\ (List.length calls <= fuel)%nat.
Proof.
  induction fuel as [|fuel IH]; intros since_id orders total tr.
  - exists []. split; [reflexivity|simpl; lia].
  - simpl. unfold bind, get_orders.
    set (q := request_params params since_id).
    destruct (orders_json up tr q) as [e|data].
    { exists [GetOrders q]. split; [reflexivity|simpl; lia]. }
    destruct (Z.of_nat (List.length _) <? limit).
    { exists [GetOrders q]. split; [reflexivity|simpl; lia]. }
    destruct (10000 <? _).
    { exists [GetOrders q]. split; [reflexivity|simpl; lia]. }
    match goal with
    | |- context [fetch_loop fuel up params ?s ?o ?t ?r] =>
        destruct (IH s o t r) as (calls & Hc & Hl)
    end.
    exists (calls ++ [GetOrders q]). split.
    + rewrite Hc. now rewrite <- app_assoc.
    + rewrite length_app. simpl. lia.
Qed.

Lemma assoc_set_param (k v : string) (params : list (string * string)) :
  assoc k (set_param k v params) = Some v.
Proof.
  induction params as [|[k' v'] rest IH]; simpl.
  - now rewrite String.eqb_refl.
  - destruct (String.eqb k k') eqn:Hk; simpl.
    + now rewrite String.eqb_refl.
    + now rewrite Hk.
Qed.

Lemma Z_of_string_of_Z (z : Z) : 0 < z -> Z_of_string (string_of_Z z) = Some z.
Proof.
  intros Hz. unfold Z_of_string, string_of_Z.
  destruct z as [|p|p]; try lia.
  rewrite NilZero.isi.
  - cbn [option_map]. now rewrite DecimalZ.of_to.
  - simpl. intros H. inversion H as [H1].
    now apply DecimalPos.Unsigned.to_uint_nonnil in H1.
  - discriminate.
Qed.

Lemma ascending_cons (prev : Z) (o : order) (rest : list order) :
  ascending prev (o :: rest) = true ->
  prev < o_id o /\ ascending (o_id o) rest = true.
Proof.
  simpl. rewrite andb_true_iff, Z.ltb_lt. auto.
Qed.

Lemma ascending_above (db : list order) :
  forall prev,
    ascending prev db = true -> Forall (fun o => prev < o_id o) db.
Proof.
  induction db as [|o rest IH]; intros prev H; constructor;
    apply ascending_cons in H; destruct H as [H1 H2].
  - exact H1.
  - apply IH in H2.
    eapply Forall_impl; [|exact H2]. intros a Ha. simpl in Ha. lia.
Qed.

Lemma filter_all {A : Type} (f : A -> bool) (l : list A) :
  Forall (fun x => f x = true) l -> filter f l = l.
Proof.
  induction 1 as [|x l Hx _ IH]; simpl; [reflexivity|].
  now rewrite Hx, IH.
Qed.

Lemma last_of_In {A : Type} (l : list A) (a : A) :
  last_of l = Some a -> In a l.
Proof.
  induction l as [|x [|y rest] IH]; simpl; intros H.
  - discriminate.
  - inversion H. now left.
  - right. apply IH. exact H.
Qed.

Lemma last_of_app {A : Type} (l1 l2 : list A) :
  l2 <> [] -> last_of (l1 ++ l2) = last_of l2.
Proof.
  intros Hne. induction l1 as [|x l1 IH]; [reflexivity|].
  simpl app. destruct (l1 ++ l2) as [|y rest] eqn:Happ.
  - destruct l1; destruct l2; try discriminate. congruence.
  - rewrite <- IH. reflexivity.
Qed.

(** In an ascending list, the orders after the identifier of the last
    order of a prefix are the rest of the list. *)
Lemma filter_after_last (l1 l2 : list order) :
  forall prev o,
    ascending prev (l1 ++ l2) = true ->
    last_of l1 = Some o ->
    filter (fun x => o_id o <? o_id x) (l1 ++ l2) = l2.
Proof.
  induction l1 as [|a [|b rest] IH]; intros prev o Hasc Hlast.
  - discriminate.
  - simpl in Hlast. inversion Hlast; subst a. simpl.
    rewrite Z.ltb_irrefl. apply ascending_cons in Hasc.
    destruct Hasc as [_ Hasc].
    apply filter_all. apply ascending_above in Hasc.
    eapply Forall_impl; [|exact Hasc]. intros x Hx. simpl in Hx.
    now apply Z.ltb_lt.
  - change ((a :: b :: rest) ++ l2) with (a :: ((b :: rest) ++ l2)) in Hasc.
    apply ascending_cons in Hasc. destruct Hasc as [_ Hasc].
    assert (Hlast' : last_of (b :: rest) = Some o) by exact Hlast.
    change ((a :: b :: rest) ++ l2) with (a :: ((b :: rest) ++ l2)).
    simpl filter at 1.
    assert (Ha : (o_id o <? o_id a) = false).
    { apply Z.ltb_ge. apply ascending_above in Hasc.
      rewrite Forall_forall in Hasc.
      assert (In o ((b :: rest) ++ l2))
        by (apply in_or_app; left; now apply last_of_In).
      specialize (Hasc o H). lia. }
    rewrite Ha. exact (IH (o_id a) o Hasc Hlast').
Qed.

Lemma firstn_plus {A : Type} (n m : nat) (l : list A) :
  firstn (n + m) l = firstn n l ++ firstn m (skipn n l).
Proof.
  revert l. induction n as [|n IH]; intros l; [reflexivity|].
  destruct l as [|x l]; simpl.
  - now rewrite firstn_nil.
  - now rewrite IH.
Qed.

(** One turn of the loop. *)
Lemma fetch_loop_turn (fuel : nat) (up : upstream)
    (params : list (string * string)) (since_id : option Z)
    (orders : list order) (totalFetched : Z) (tr : trace) :
  fetch_loop (S fuel) up params since_id orders totalFetched tr
  = match orders_json up tr (request_params params since_id) with
    | Failed e =>
        (Some (Failed e), GetOrders (request_params params since_id) :: tr)
    | Replied data =>
        if Z.of_nat (List.length (match data with Some l => l | None => [] end))
           <? limit
        then (Some (Replied (orders ++ match data with Some l => l | None => [] end)),
              GetOrders (request_params params since_id) :: tr)
        else if 10000 <? totalFetched
                  + Z.of_nat (List.length (match data with Some l => l | None => [] end))
        then (Some (Replied (orders ++ match data with Some l => l | None => [] end)),
              GetOrders (request_params params since_id) :: tr)
        else
          fetch_loop fuel up params
            (option_map o_id (last_of (match data with Some l => l | None => [] end)))
            (orders ++ match data with Some l => l | None => [] end)
            (totalFetched
             + Z.of_nat (List.length (match data with Some l => l | None => [] end)))
            (GetOrders (request_params params since_id) :: tr)
    end.
Proof.
  simpl. unfold bind, get_orders, ret.
  destruct (orders_json up tr _) as [e|data]; [reflexivity|].
  destruct (_ <? limit); [reflexivity|].
  destruct (10000 <? _); reflexivity.
Qed.

Lemma paged_orders_json (db : list order) (tr : trace)
    (q : list (string * string)) :
  orders_json (paged_upstream db) tr q
  = Replied (Some (firstn 250 (page_after db q))).
Proof. reflexivity. Qed.

(** The loop against the paged upstream, from the head of any turn: [pre]
    is what [j] full pages have brought, [post] what the next request is
    served from. *)
Lemma fetch_loop_paged (db : list order) (params : list (string * string)) :
  assoc "since_id" params = None ->
  ascending 0 db = true ->
  forall fuel j pre post since_id orders tr,
    db = pre ++ post ->
    List.length pre = (250 * j)%nat ->
    (j <= 40)%nat ->
    (41 <= fuel + j)%nat ->
    page_after db (request_params params since_id) = post ->
    exists calls,
      fetch_loop fuel (paged_upstream db) params since_id orders
        (Z.of_nat (List.length pre)) tr
      = (Some (Replied
                 (orders ++ firstn (Z.to_nat 10250 - List.length pre) post)),
         calls ++ tr)
      /\ List.length calls
         = Nat.min (41 - j) (List.length post / 250 + 1).
Proof.
  intros Hparams Hasc.
  induction fuel as [|fuel IH];
    intros j pre post since_id orders tr Hdb Hpre Hj Hfuel Hpage.
  - lia.
  - rewrite fetch_loop_turn, paged_orders_json, Hpage.
    set (q := request_params params since_id).
    set (chunk := firstn 250 post).
    destruct (Nat.lt_ge_cases (List.length post) 250) as [Hshort|Hfull].
    + assert (Hchunk : chunk = post)
        by (apply firstn_all2; lia).
      assert (Hlt : (Z.of_nat (List.length chunk) <? limit) = true)
        by (apply Z.ltb_lt; rewrite Hchunk; unfold limit; lia).
      rewrite Hlt. exists [GetOrders q]. split.
      * rewrite Hchunk.
        rewrite (firstn_all2 post) by lia. reflexivity.
      * rewrite (Nat.div_small _ _ Hshort). cbn [List.length]. lia.
    + assert (Hlen : List.length chunk = 250%nat)
        by (unfold chunk; rewrite length_firstn; lia).
      assert (Hlt : (Z.of_nat (List.length chunk) <? limit) = false)
        by (apply Z.ltb_ge; rewrite Hlen; unfold limit; lia).
      rewrite Hlt.
      assert (Hdiv : (List.length post / 250
                      = List.length (skipn 250 post) / 250 + 1)%nat).
      { rewrite length_skipn.
        replace (List.length post)
          with ((List.length post - 250) + 1 * 250)%nat at 1 by lia.
        now rewrite Nat.div_add by lia. }
      destruct (Nat.eq_dec j 40) as [->|Hj40].
      * assert (Hcap : (10000 <? Z.of_nat (List.length pre)
                                 + Z.of_nat (List.length chunk)) = true)
          by (apply Z.ltb_lt; lia).
        rewrite Hcap. exists [GetOrders q]. split.
        -- replace (Z.to_nat 10250 - List.length pre)%nat with 250%nat by lia.
           reflexivity.
        -- rewrite Hdiv. cbn [List.length]. lia.
      * assert (Hcap : (10000 <? Z.of_nat (List.length pre)
                                 + Z.of_nat (List.length chunk)) = false)
          by (apply Z.ltb_ge; lia).
        rewrite Hcap.
        assert (Hne : chunk <> [])
          by (intros Hc; rewrite Hc in Hlen; discriminate Hlen).
        destruct (last_of chunk) as [o|] eqn:Hlast.
        2:{ exfalso. clear - Hlast Hne.
            induction chunk as [|y [|z c] IHc];
              [congruence|discriminate|].
            apply IHc; [discriminate|exact Hlast]. }
        assert (Hsplit : post = chunk ++ skipn 250 post)
          by (unfold chunk; now rewrite firstn_skipn).
        assert (Hdb' : db = (pre ++ chunk) ++ skipn 250 post)
          by (rewrite <- app_assoc, <- Hsplit; exact Hdb).
        assert (Hlast' : last_of (pre ++ chunk) = Some o)
          by (rewrite last_of_app; assumption).
        assert (Hpos : 0 < o_id o).
        { pose proof (ascending_above db 0 Hasc) as Hall.
          rewrite Forall_forall in Hall. apply Hall.
          rewrite Hdb'. apply in_or_app. left. now apply last_of_In. }
        rewrite <- Nat2Z.inj_add, <- length_app.
        destruct (IH (S j) (pre ++ chunk) (skipn 250 post)
                    (option_map o_id (Some o)) (orders ++ chunk)
                    (GetOrders q :: tr) Hdb')
          as (calls & Hrun & Hcalls).
        -- rewrite length_app. lia.
        -- lia.
        -- lia.
        -- simpl option_map. unfold request_params, page_after.
           destruct (o_id o =? 0) eqn:Hz; [apply Z.eqb_eq in Hz; lia|].
           rewrite assoc_set_param, Z_of_string_of_Z by exact Hpos.
           rewrite Hdb' at 1.
           apply (filter_after_last _ _ 0 o); [now rewrite <- Hdb'|exact Hlast'].
        -- exists (calls ++ [GetOrders q]). split.
           ++ rewrite Hrun. rewrite <- !app_assoc. cbn [app].
              f_equal. f_equal. f_equal. f_equal.
              rewrite length_app, Hlen.
              replace (Z.to_nat 10250 - List.length pre)%nat
                with (250 + (Z.to_nat 10250 - (List.length pre + 250)))%nat
                by lia.
              now rewrite firstn_plus.
           ++ rewrite length_app, Hcalls, Hdiv. cbn [List.length]. lia.
Qed.

Lemma fetch_orders_answers (up : upstream) (params : list (string * string))
    (tr : trace) :
  exists res tr', fetch_orders up params tr = (Some res, tr').
Proof.
  unfold fetch_orders.
  destruct (fetch_loop max_requests up params None [] 0 tr)
    as [[res|] tr'] eqn:Hrun; [eauto|].
  exfalso.
  apply (fetch_loop_breaks up params max_requests None [] 0 tr);
    [lia|unfold max_requests; lia|].
  now rewrite Hrun.
Qed.

(** Both handlers answer every request. *)
Lemma report_answers (E : engine) (up : upstream) (req : report_request)
    (tr : trace) :
  exists resp tr', report E up req tr = (Some resp, tr').
Proof.
  unfold report.
  destruct (falsy (start req) || falsy (end_ req) || falsy (metric req));
    [unfold ret; eauto|].
  destruct (negb _); [unfold ret; eauto|].
  destruct (iso_of E (field (start req))) as [cmin|]; [|unfold ret; eauto].
  destruct (iso_of E (field (end_ req))) as [cmax|]; [|unfold ret; eauto].
  unfold bind.
  destruct (fetch_orders_answers up
              (order_params cmin cmax (customerId req)) tr)
    as (res & tr1 & Hf).
  rewrite Hf. destruct res as [err|orders]; [unfold ret; eauto|].
  destruct (enrich_all up orders [] tr1) as [rows tr2].
  destruct (group_rows E (field (metric req)) rows []); unfold ret; eauto.
Qed.

Lemma list_orders_answers (E : engine) (up : upstream)
    (req : orders_request) (tr : trace) :
  exists resp tr', list_orders E up req tr = (Some resp, tr').
Proof.
  unfold list_orders.
  destruct (falsy (q_start req) || falsy (q_end req)); [unfold ret; eauto|].
  destruct (Date_parse E (field (q_start req))) as [s|];
    [|unfold ret; eauto].
  destruct (Date_parse E (field (q_end req))) as [e|]; [|unfold ret; eauto].
  destruct (e <=? s); [unfold ret; eauto|].
  unfold bind.
  destruct (fetch_orders_answers up
              (order_params (toISOString s) (toISOString e)
                 (q_customerId req)) tr)
    as (res & tr1 & Hf).
  rewrite Hf. destruct res as [err|orders]; unfold ret; eauto.
Qed.

(** C9. The fetch loop breaks within 41 requests whatever upstream
    answers, with the orders collected or with the error of a rejected
    request, and more fuel changes nothing. A turn whose page is shorter
    than 250 ends the loop with what was collected; so does a turn whose
    page takes the count past 10000; any other turn goes on. Against an
    upstream that serves its matching orders 250 at a time by growing
    identifier, the loop fetches the first 10250 of them, all of them
    when they are no more, in as many requests as it takes to meet a
    short page, 41 at most. *)
Theorem fetch_loop_terminates :
  (forall up params tr,
     exists res calls,
       fetch_orders up params tr = (Some res, calls ++ tr)
       /\ (List.length calls <= max_requests)%nat
       /\ forall fuel, (max_requests <= fuel)%nat ->
            fetch_loop fuel up params None [] 0 tr = (Some res, calls ++ tr))
  /\ (forall fuel up params since_id orders totalFetched tr chunk,
        orders_json up tr (request_params params since_id)
        = Replied (Some chunk) ->
        let turn :=
          fetch_loop (S fuel) up params since_id orders totalFetched tr in
        let stop :=
          (Some (Replied (orders ++ chunk)),
           GetOrders (request_params params since_id) :: tr) in
        (Z.of_nat (List.length chunk) < 250 -> turn = stop)
        /\ (250 <= Z.of_nat (List.length chunk) ->
            10000 < totalFetched + Z.of_nat (List.length chunk) ->
            turn = stop)
        /\ (250 <= Z.of_nat (List.length chunk) ->
            totalFetched + Z.of_nat (List.length chunk) <= 10000 ->
            turn
            = fetch_loop fuel up params (option_map o_id (last_of chunk))
                (orders ++ chunk)
                (totalFetched + Z.of_nat (List.length chunk))
                (GetOrders (request_params params since_id) :: tr)))
  /\ (forall db params tr,
        assoc "since_id" params = None ->
        ascending 0 db = true ->
        exists calls,
          fetch_orders (paged_upstream db) params tr
          = (Some (Replied (firstn (Z.to_nat 10250) db)), calls ++ tr)
          /\ List.length calls = Nat.min 41 (List.length db / 250 + 1)
          /\ ((List.length db <= Z.to_nat 10250)%nat ->
              firstn (Z.to_nat 10250) db = db)).
Proof.
  split; [|split].
  - intros up params tr. unfold fetch_orders.
    destruct (fetch_loop max_requests up params None [] 0 tr)
      as [[res|] tr'] eqn:Hrun.
    + destruct (fetch_loop_requests up params max_requests None [] 0 tr)
        as (calls & Hc & Hl).
      rewrite Hrun in Hc. simpl in Hc. subst tr'.
      exists res, calls. split; [reflexivity|]. split; [exact Hl|].
      intros fuel Hfuel.
      exact (fetch_loop_more_fuel _ _ _ _ _ _ _ _ _ _ Hrun Hfuel).
    + exfalso.
      apply (fetch_loop_breaks up params max_requests None [] 0 tr);
        [lia|unfold max_requests; lia|].
      now rewrite Hrun.
  - intros fuel up params since_id orders total tr chunk Hreply.
    cbv zeta. rewrite fetch_loop_turn, Hreply. unfold limit.
    split; [|split].
    + intros H. apply Z.ltb_lt in H. now rewrite H.
    + intros H1 H2. apply Z.ltb_ge in H1. apply Z.ltb_lt in H2.
      now rewrite H1, H2.
    + intros H1 H2. apply Z.ltb_ge in H1, H2. now rewrite H1, H2.
  - intros db params tr Hparams Hasc. unfold fetch_orders, max_requests.
    assert (Hpage : page_after db (request_params params None) = db)
      by (unfold page_after, request_params; now rewrite Hparams).
    destruct (fetch_loop_paged db params Hparams Hasc 41 0 [] db None [] tr
                eq_refl eq_refl (Nat.le_0_l 40) (Nat.le_refl 41) Hpage)
      as (calls & Hrun & Hcalls).
    exists calls. cbn [List.length app Z.of_nat] in Hrun.
    rewrite Nat.sub_0_r in Hrun, Hcalls.
    split; [exact Hrun|]. split; [exact Hcalls|].
    intros Hlen. now apply firstn_all2.
Qed.

Lemma fetch_loop_terminates_witness :
  fst (fetch_orders (paged_upstream (numbered 1 251))
         (order_params "2024-01-01T00:00:00.000Z" "2024-03-01T00:00:00.000Z"
            None) [])
  = Some (Replied (numbered 1 251)).
Proof.
  destruct (proj2 (proj2 fetch_loop_terminates) (numbered 1 251)
              (order_params "2024-01-01T00:00:00.000Z"
                 "2024-03-01T00:00:00.000Z" None) [] eq_refl eq_refl)
    as (calls & Hrun & _ & Hall).
  rewrite Hrun. cbn [fst]. rewrite Hall; [reflexivity|].
  apply Nat.leb_le. vm_compute. reflexivity.
Defined.

(** *** Maps in insertion order *)

Section MapFacts.

Context {A : Type}.

Lemma assoc_map_set (k k' : string) (a : A) (m : list (string * A)) :
  assoc k (map_set k' a m)
  = if String.eqb k k' then Some a else assoc k m.
Proof.
  induction m as [|[k0 b] rest IH]; simpl.
  - reflexivity.
  - destruct (String.eqb k' k0) eqn:H0; simpl.
    + apply String.eqb_eq in H0. subst k0.
      destruct (String.eqb k k'); reflexivity.
    + rewrite IH. destruct (String.eqb k k0) eqn:H1; [|reflexivity].
      apply String.eqb_eq in H1. subst k0.
      rewrite String.eqb_sym in H0. now rewrite H0.
Qed.

Lemma assoc_map_update (k k' : string) (f : A -> A) (m : list (string * A)) :
  assoc k (map_update k' f m)
  = if String.eqb k k' then option_map f (assoc k m) else assoc k m.
Proof.
  induction m as [|[k0 b] rest IH]; simpl.
  - destruct (String.eqb k k'); reflexivity.
  - destruct (String.eqb k' k0) eqn:H0; simpl.
    + apply String.eqb_eq in H0. subst k0.
      destruct (String.eqb k k'); reflexivity.
    + rewrite IH. destruct (String.eqb k k0) eqn:H1; [|reflexivity].
      apply String.eqb_eq in H1. subst k0.
      rewrite String.eqb_sym in H0. now rewrite H0.
Qed.

Lemma keys_map_update (k : string) (f : A -> A) (m : list (string * A)) :
  map fst (map_update k f m) = map fst m.
Proof.
  induction m as [|[k0 b] rest IH]; simpl; [reflexivity|].
  destruct (String.eqb k k0); simpl; [reflexivity|]. now rewrite IH.
Qed.

Lemma keys_map_set (k : string) (a : A) (m : list (string * A)) :
  map fst (map_set k a m)
  = if map_has k m then map fst m else map fst m ++ [k].
Proof.
  unfold map_has. induction m as [|[k0 b] rest IH]; simpl; [reflexivity|].
  destruct (String.eqb k k0); simpl; [reflexivity|].
  rewrite IH. destruct (assoc k rest); reflexivity.
Qed.

Lemma assoc_None_keys (k : string) (m : list (string * A)) :
  assoc k m = None -> ~ In k (map fst m).
Proof.
  induction m as [|[k0 b] rest IH]; simpl; [tauto|].
  destruct (String.eqb k k0) eqn:H0; [discriminate|].
  intros H [Hk|Hin]; [|now apply IH].
  subst k0. now rewrite String.eqb_refl in H0.
Qed.

Lemma assoc_In (k : string) (a : A) (m : list (string * A)) :
  assoc k m = Some a -> In (k, a) m.
Proof.
  induction m as [|[k0 b] rest IH]; simpl; [discriminate|].
  destruct (String.eqb k k0) eqn:H0.
  - apply String.eqb_eq in H0. subst k0. intros H. inversion H. now left.
  - intros H. right. now apply IH.
Qed.

Lemma In_assoc (k : string) (a : A) (m : list (string * A)) :
  NoDup (map fst m) -> In (k, a) m -> assoc k m = Some a.
Proof.
  induction m as [|[k0 b] rest IH]; simpl; [tauto|].
  intros Hnd [Heq|Hin].
  - inversion Heq; subst. now rewrite String.eqb_refl.
  - inversion Hnd as [|? ? Hnot Hnd']; subst.
    destruct (String.eqb k k0) eqn:H0.
    + apply String.eqb_eq in H0. subst k0. exfalso. apply Hnot.
      change k with (fst (k, a)). now apply in_map.
    + now apply IH.
Qed.

End MapFacts.

(** *** Sorting *)

Lemma insert_by_perm {A : Type} (cmp : A -> A -> comparison) (x : A)
    (l : list A) :
  Permutation (insert_by cmp x l) (x :: l).
Proof.
  induction l as [|y rest IH]; simpl; [reflexivity|].
  destruct (cmp x y); try reflexivity.
  rewrite IH. apply perm_swap.
Qed.

Lemma sort_by_perm {A : Type} (cmp : A -> A -> comparison) (l : list A) :
  Permutation (sort_by cmp l) l.
Proof.
  induction l as [|x rest IH]; simpl; [reflexivity|].
  rewrite insert_by_perm. now constructor.
Qed.

(** *** Strings *)

Lemma length_append (a b : string) :
  String.length (a ++ b) = (String.length a + String.length b)%nat.
Proof.
  induction a as [|c a IH]; simpl; [reflexivity|]. now rewrite IH.
Qed.

Lemma length_substring_0 (n : nat) (s : string) :
  String.length (String.substring 0 n s) = Nat.min n (String.length s).
Proof.
  revert s. induction n as [|n IH]; intros s.
  - destruct s; reflexivity.
  - destruct s as [|c s]; simpl; [reflexivity|]. now rewrite IH.
Qed.

(** Two concatenations with tails of the same length are equal only when
    their heads are and their tails are. *)
Lemma append_inj (a a' b b' : string) :
  String.length b = String.length b' ->
  (a ++ b)%string = (a' ++ b')%string -> a = a' /\ b = b'.
Proof.
  intros Hlen. revert a'.
  induction a as [|c a IH]; intros [|c' a'] H; simpl in H.
  - auto.
  - exfalso. apply (f_equal String.length) in H. simpl in H.
    rewrite length_append in H. lia.
  - exfalso. apply (f_equal String.length) in H. simpl in H.
    rewrite length_append in H. lia.
  - inversion H as [[Hc Happ]]. destruct (IH a' Happ) as [-> ->]. auto.
Qed.

Lemma toISOString_length (t : Z) : (7 <= String.length (toISOString t))%nat.
Proof.
  unfold toISOString. destruct (civil_from_days (t / ms_per_day)) as [[y m] d].
  rewrite !length_append. simpl String.length. lia.
Qed.

(** A month key has seven characters. *)
Lemma monthKey_length (E : engine) (iso m : string) :
  monthKey E iso = Some m -> String.length m = 7%nat.
Proof.
  unfold monthKey. destruct (iso_of E iso) as [s|] eqn:Hs; [|discriminate].
  intros H. inversion H; subst m. unfold slice0.
  rewrite length_substring_0.
  unfold iso_of in Hs. destruct (Date_parse E iso) as [t|]; [|discriminate].
  inversion Hs; subst s. pose proof (toISOString_length t). lia.
Qed.

(** Keys are equal only when customer keys and months are. *)
Lemma group_key_inj (c c' m m' : string) :
  String.length m = String.length m' ->
  (c ++ "|" ++ m)%string = (c' ++ "|" ++ m')%string ->
  c = c' /\ m = m'.
Proof.
  intros Hlen H. apply append_inj in H.
  - destruct H as [Hc Hm]. split; [exact Hc|]. now inversion Hm.
  - simpl. now rewrite Hlen.
Qed.

(** *** Grouping *)

Lemma group_step_assoc (metric : string) (groups : list (string * group))
    (r : row) (m k : string) :
  assoc k (group_step metric groups r m)
  = if String.eqb k (group_key r m)
    then Some (add_row metric r
                 match assoc (group_key r m) groups with
                 | Some g => g
                 | None => new_group (customerKey r) m
                 end)
    else assoc k groups.
Proof.
  unfold group_step, map_has.
  destruct (assoc (group_key r m) groups) as [g|] eqn:Hg; simpl negb; cbv iota.
  - rewrite assoc_map_update.
    destruct (String.eqb k (group_key r m)) eqn:Hk; [|reflexivity].
    apply String.eqb_eq in Hk. subst k. now rewrite Hg.
  - rewrite assoc_map_update, assoc_map_set.
    destruct (String.eqb k (group_key r m)); reflexivity.
Qed.

Lemma group_step_keys (metric : string) (groups : list (string * group))
    (r : row) (m : string) :
  NoDup (map fst groups) ->
  NoDup (map fst (group_step metric groups r m)).
Proof.
  intros Hnd. unfold group_step. rewrite keys_map_update.
  unfold map_has at 1.
  destruct (assoc (group_key r m) groups) as [g|] eqn:Hg; simpl negb; cbv iota.
  - exact Hnd.
  - rewrite keys_map_set. unfold map_has. rewrite Hg.
    apply assoc_None_keys in Hg.
    apply (Permutation_NoDup (l := group_key r m :: map fst groups)).
    + apply Permutation_cons_append.
    + now constructor.
Qed.

Lemma group_of_snoc (E : engine) (metric : string) (rs : list row) (r : row)
    (m : string) :
  month_of E r = Some m ->
  group_of E metric (rs ++ [r])
  = Some (add_row metric r
            match group_of E metric rs with
            | Some g => g
            | None => new_group (customerKey r) m
            end).
Proof.
  intros Hm. destruct rs as [|r0 t]; simpl.
  - now rewrite Hm.
  - now rewrite fold_left_app.
Qed.

(** The map after the loop: its keys are distinct, and the object of a
    key is the one its rows make; every row has a month. *)
Lemma group_rows_spec (E : engine) (metric : string) :
  forall rows done groups groups',
    group_rows E metric rows groups = Some groups' ->
    NoDup (map fst groups) ->
    (forall k, assoc k groups = group_of E metric (filter (has_key E k) done)) ->
    NoDup (map fst groups')
    /\ (forall k,
          assoc k groups'
          = group_of E metric (filter (has_key E k) (done ++ rows)))
    /\ (forall r, In r rows -> exists m, month_of E r = Some m).
Proof.
  induction rows as [|r rest IH]; intros done groups groups' Hrun Hnd Hinv.
  - simpl in Hrun. inversion Hrun; subst groups'.
    rewrite app_nil_r. repeat split; auto. intros r [].
  - simpl in Hrun.
    destruct (monthKey E (order_date r)) as [m|] eqn:Hm; [|discriminate].
    destruct (IH (done ++ [r]) _ _ Hrun (group_step_keys metric groups r m Hnd))
      as (Hnd' & Hinv' & Hmonths).
    + intros k. rewrite group_step_assoc, filter_app. simpl filter.
      unfold has_key at 2, month_of. rewrite Hm.
      rewrite (String.eqb_sym (group_key r m) k).
      destruct (String.eqb k (group_key r m)) eqn:Hk.
      * apply String.eqb_eq in Hk. subst k.
        rewrite (group_of_snoc E metric _ r m Hm), <- Hinv. reflexivity.
      * rewrite app_nil_r. apply Hinv.
    + split; [exact Hnd'|]. split.
      * intros k. rewrite Hinv', <- app_assoc. reflexivity.
      * intros r' [<-|Hin]; [exists m; exact Hm|now apply Hmonths].
Qed.

Lemma fold_add_row (metric : string) (rs : list row) :
  forall g0,
    let g := fold_left (fun g r => add_row metric r g) rs g0 in
    g_customer g = g_customer g0
    /\ g_month g = g_month g0
    /\ g_amount g
       = fold_left add
           (map (fun r => number_or (metric_of metric r) zero) rs)
           (g_amount g0).
Proof.
  induction rs as [|r rest IH]; intros g0; simpl.
  - auto.
  - destruct (IH (add_row metric r g0)) as (Hc & Hm & Ha).
    simpl in *. auto.
Qed.

(** The rows of a key are the rows of its customer key and month. *)
Lemma has_key_in_group (E : engine) (c m : string) (r : row) :
  String.length m = 7%nat ->
  has_key E (c ++ "|" ++ m) r = in_group E c m r.
Proof.
  intros Hlen. unfold has_key, in_group.
  destruct (month_of E r) as [m'|] eqn:Hm; [|now rewrite andb_false_r].
  unfold group_key.
  destruct (String.eqb (customerKey r ++ "|" ++ m') (c ++ "|" ++ m)) eqn:Hk.
  - apply String.eqb_eq in Hk. apply group_key_inj in Hk.
    + destruct Hk as [-> ->]. now rewrite !String.eqb_refl.
    + rewrite Hlen. exact (monthKey_length E _ _ Hm).
  - destruct (String.eqb (customerKey r) c) eqn:Hc; [|reflexivity].
    destruct (String.eqb m' m) eqn:Hm'; [|reflexivity].
    apply String.eqb_eq in Hc, Hm'. subst.
    now rewrite String.eqb_refl in Hk.
Qed.

(** What the map of a finished loop holds. *)
Lemma groups_characterised (E : engine) (metric : string)
    (detail : list row) (groups : list (string * group)) :
  group_rows E metric detail [] = Some groups ->
  NoDup (map fst groups)
  /\ (forall k g,
        In (k, g) groups ->
        String.length (g_month g) = 7%nat
        /\ k = (g_customer g ++ "|" ++ g_month g)%string
        /\ (exists r, In r detail /\ customerKey r = g_customer g
                      /\ month_of E r = Some (g_month g))
        /\ g_amount g
           = sum_numbers
               (map (fun r => nan_as_zero (metric_of metric r))
                  (filter (in_group E (g_customer g) (g_month g)) detail)))
  /\ (forall r,
        In r detail ->
        exists m g, month_of E r = Some m /\ In (group_key r m, g) groups).
Proof.
  intros Hrun.
  destruct (group_rows_spec E metric detail [] [] groups Hrun (NoDup_nil _))
    as (Hnd & Hinv & Hmonths); [reflexivity|].
  simpl app in Hinv.
  split; [exact Hnd|]. split.
  - intros k g Hin. apply (In_assoc _ _ _ Hnd) in Hin.
    rewrite Hinv in Hin.
    destruct (filter (has_key E k) detail) as [|r0 t] eqn:Hrs;
      [discriminate|].
    simpl in Hin. injection Hin as Hg.
    assert (Hr0 : In r0 (filter (has_key E k) detail))
      by (rewrite Hrs; now left).
    apply filter_In in Hr0. destruct Hr0 as [Hr0 Hkey].
    unfold has_key in Hkey.
    destruct (month_of E r0) as [m0|] eqn:Hm0; [|discriminate].
    apply String.eqb_eq in Hkey.
    pose proof (fold_add_row metric t
                  (add_row metric r0 (new_group (customerKey r0) m0)))
      as (Hc & Hm & Ha).
    cbv zeta in Hc, Hm, Ha. rewrite Hg in Hc, Hm, Ha.
    cbn [g_amount g_customer g_month add_row new_group] in Hc, Hm, Ha.
    assert (Hlen : String.length (g_month g) = 7%nat)
      by (rewrite Hm; exact (monthKey_length E _ _ Hm0)).
    split; [exact Hlen|].
    assert (Hk : k = (g_customer g ++ "|" ++ g_month g)%string)
      by (rewrite Hc, Hm; symmetry; exact Hkey).
    split; [exact Hk|]. split.
    + exists r0. rewrite Hc, Hm. auto.
    + rewrite <- (filter_ext _ _
                    (fun r => has_key_in_group E (g_customer g) (g_month g)
                                r Hlen)), <- Hk, Hrs.
      rewrite Ha. unfold sum_numbers. cbn [map fold_left].
      rewrite !add_zero_l, number_or_zero.
      f_equal. apply map_ext. intros r. apply number_or_zero.
  - intros r Hin. destruct (Hmonths r Hin) as [m Hm].
    specialize (Hinv (group_key r m)).
    assert (Hr : In r (filter (has_key E (group_key r m)) detail)).
    { apply filter_In. split; [exact Hin|].
      unfold has_key. rewrite Hm. apply String.eqb_refl. }
    destruct (filter (has_key E (group_key r m)) detail) as [|r0 t];
      [contradiction|].
    simpl in Hinv. exists m. eexists. split; [exact Hm|].
    apply assoc_In. exact Hinv.
Qed.

Lemma summary_of_In (E : engine) (groups : list (string * group))
    (sg : summary_group) :
  In sg (summary_of E groups) <->
  exists k g, In (k, g) groups /\ sg = summarize g.
Proof.
  unfold summary_of. split.
  - intros H. apply (Permutation_in _ (sort_by_perm _ _)) in H.
    apply in_map_iff in H. destruct H as ([k g] & Hs & Hin).
    exists k, g. auto.
  - intros (k & g & Hin & ->).
    apply (Permutation_in _ (Permutation_sym (sort_by_perm _ _))).
    apply in_map_iff. exists (k, g). auto.
Qed.

(** *** The summary *)

(** C7, as stated, fails when a row's amount is no number: the second
    order's additional charges are unreadable, its billing amount is
    [NaN], and its group amounts to the 10 of the first order, where the
    sum of the billing amounts of the two rows is [NaN]. *)
Lemma group_amount_stated_counterexample :
  let sg := first_group dirty_response in
  let rows := filter (in_group plain_engine (customer sg) (month sg))
                (detail_of dirty_response) in
  In sg (summary_list_of dirty_response)
  /\ List.length rows = 2%nat
  /\ amount sg = of_Z 10
  /\ sum_numbers (map billing_amount rows) = NaN
  /\ amount sg <> sum_numbers (map billing_amount rows).
Proof.
  cbv zeta.
  assert (H0 : In (first_group dirty_response)
                 (summary_list_of dirty_response))
    by (vm_compute; left; reflexivity).
  assert (H1 : List.length
                 (filter (in_group plain_engine
                            (customer (first_group dirty_response))
                            (month (first_group dirty_response)))
                    (detail_of dirty_response)) = 2%nat)
    by (vm_compute; reflexivity).
  assert (H2 : amount (first_group dirty_response) = of_Z 10)
    by (apply number_eqb_eq; vm_compute; reflexivity).
  assert (H3 : sum_numbers
                 (map billing_amount
                    (filter (in_group plain_engine
                               (customer (first_group dirty_response))
                               (month (first_group dirty_response)))
                       (detail_of dirty_response))) = NaN)
    by (apply number_eqb_eq; vm_compute; reflexivity).
  repeat (split; [assumption|]).
  rewrite H2, H3. discriminate.
Qed.

(** C7, amended. The amount of every group of a report's summary is the
    sum, over exactly the rows of the detail that have the group's
    customer key and month, of the billing amount when the metric is
    [billing] and of the actual spend when it is [actual], an amount that
    is no number counting for 0. *)
Theorem group_amount_sums_rows :
  forall (E : engine) (up : upstream) (req : report_request)
         (tr tr' : trace) (resp : response),
    report E up req tr = (Some resp, tr') ->
    forall sg,
      In sg (summary_list_of resp) ->
      exists selected : row -> number,
        ((field (metric req) = "billing" /\ selected = billing_amount)
         \/ (field (metric req) = "actual" /\ selected = actual_spend))
        /\ amount sg
           = sum_numbers
               (map (fun r => nan_as_zero (selected r))
                  (filter (in_group E (customer sg) (month sg))
                     (detail_of resp))).
Proof.
  intros E up req tr tr' resp H sg Hin.
  unfold summary_list_of in Hin. unfold detail_of.
  destruct (payload resp) eqn:Hp; try contradiction.
  destruct (report_inv _ _ _ _ _ _ _ _ _ _ _ _ H Hp)
    as (cmin & cmax & orders & tr1 & groups
        & _ & _ & _ & _ & Hgroups & -> & Hmetric).
  apply summary_of_In in Hin. destruct Hin as (k & g & Hin & ->).
  destruct (groups_characterised _ _ _ _ Hgroups) as (_ & Hchar & _).
  destruct (Hchar k g Hin) as (_ & _ & _ & Hamount).
  exists (metric_of (field (metric req))). split.
  - destruct Hmetric as [Hm|Hm]; [left|right]; split; try exact Hm;
      unfold metric_of; rewrite Hm; reflexivity.
  - exact Hamount.
Qed.

Lemma group_amount_sums_rows_witness :
  exists selected : row -> number,
    ((field (metric sample_request) = "billing" /\ selected = billing_amount)
     \/ (field (metric sample_request) = "actual" /\ selected = actual_spend))
    /\ amount (first_group dirty_response)
       = sum_numbers
           (map (fun r => nan_as_zero (selected r))
              (filter (in_group plain_engine
                         (customer (first_group dirty_response))
                         (month (first_group dirty_response)))
                 (detail_of dirty_response))).
Proof.
  assert (H : report plain_engine dirty_upstream sample_request []
              = (Some dirty_response,
                 snd (report plain_engine dirty_upstream sample_request [])))
    by (vm_compute; reflexivity).
  assert (Hin : In (first_group dirty_response)
                  (summary_list_of dirty_response))
    by (vm_compute; left; reflexivity).
  exact (group_amount_sums_rows _ _ _ _ _ _ H _ Hin).
Defined.

Lemma enrich_customer_key (up : upstream) (o : order) (tr : trace) :
  customerKey (fst (enrich up o tr)) = stated_customer_key o.
Proof.
  assert (Hkey : forall r,
            customer_email r = customer_email_of o ->
            customer_id r = customer_id_of o ->
            customerKey r = stated_customer_key o).
  { intros r He Hi. unfold customerKey, stated_customer_key.
    rewrite He, Hi. unfold customer_email_of, customer_id_of.
    destruct (o_customer o) as [c|]; [|reflexivity].
    assert (Hid : match match c_id c with
                        | Some z => if z =? 0 then None else Some z
                        | None => None
                        end with
                  | Some z => if z =? 0 then "unknown" else string_of_Z z
                  | None => "unknown"
                  end
                  = match c_id c with
                    | Some id =>
                        if id =? 0 then "unknown" else string_of_Z id
                    | None => "unknown"
                    end).
    { destruct (c_id c) as [z|]; [|reflexivity].
      destruct (z =? 0) eqn:Hz; [reflexivity|]. now rewrite Hz. }
    destruct (c_email c) as [[|a e]|]; [exact Hid|reflexivity|exact Hid]. }
  unfold enrich, bind, post_metafields, post_fulfillments, ret.
  destruct (metafields_of up tr (o_id o)); apply Hkey; reflexivity.
Qed.

Lemma enrich_order_date (up : upstream) (o : order) (tr : trace) :
  order_date (fst (enrich up o tr)) = o_created_at o.
Proof.
  unfold enrich. run_bind.
  destruct (metafields_of up tr (o_id o)); reflexivity.
Qed.

Lemma rows_from_Forall2 (P : order -> row -> Prop) (up : upstream) :
  (forall o t, P o (fst (enrich up o t))) ->
  forall os tr, Forall2 P os (fst (rows_from up os tr)).
Proof.
  intros HP os. induction os as [|o rest IH]; intros tr; simpl;
    [constructor|].
  pose proof (HP o tr) as Ho.
  destruct (enrich up o tr) as [r tr1]. specialize (IH tr1).
  destruct (rows_from up rest tr1) as [rs tr2]. simpl in *.
  now constructor.
Qed.

Lemma NoDup_map_eq {A B : Type} (f : A -> B) (l : list A) (a b : A) :
  NoDup (map f l) -> In a l -> In b l -> f a = f b -> a = b.
Proof.
  induction l as [|x l IH]; simpl; [tauto|].
  intros Hnd Ha Hb Hf. inversion Hnd as [|? ? Hnot Hnd']; subst.
  destruct Ha as [->|Ha], Hb as [->|Hb]; auto.
  - exfalso. apply Hnot. rewrite Hf. now apply in_map.
  - exfalso. apply Hnot. rewrite <- Hf. now apply in_map.
Qed.

(** In a report, every row lands in a group of the summary that carries
    its customer key and its month key; no two groups carry the same
    customer key and month key, so that two rows land in the same group
    exactly when they agree on both; the keys of the map behind the
    summary are distinct and two rows have the same key exactly when they
    agree on both. *)
Lemma report_groups :
  forall (E : engine) (up : upstream) (req : report_request)
         (tr tr' : trace) (resp : response),
    report E up req tr = (Some resp, tr') ->
    (forall r, In r (detail_of resp) ->
       exists sg, In sg (summary_list_of resp) /\ lands_in E r sg)
    /\ NoDup (map label (summary_list_of resp))
    /\ (forall r1 r2 sg1 sg2,
          In sg1 (summary_list_of resp) -> In sg2 (summary_list_of resp) ->
          lands_in E r1 sg1 -> lands_in E r2 sg2 ->
          (sg1 = sg2 <->
           customerKey r1 = customerKey r2 /\ month_of E r1 = month_of E r2))
    /\ (exists groups,
          group_rows E (field (metric req)) (detail_of resp) [] = Some groups
          /\ NoDup (map fst groups)
          /\ summary_list_of resp = summary_of E groups
          /\ forall r, In r (detail_of resp) ->
               exists m g, month_of E r = Some m
                           /\ In (group_key r m, g) groups)
    /\ (forall r1 r2 m1 m2,
          month_of E r1 = Some m1 -> month_of E r2 = Some m2 ->
          (group_key r1 m1 = group_key r2 m2 <->
           customerKey r1 = customerKey r2 /\ m1 = m2)).
Proof.
  intros E up req tr tr' resp H.
  assert (Hkeys : forall r1 r2 m1 m2,
            month_of E r1 = Some m1 -> month_of E r2 = Some m2 ->
            (group_key r1 m1 = group_key r2 m2 <->
             customerKey r1 = customerKey r2 /\ m1 = m2)).
  { intros r1 r2 m1 m2 H1 H2. unfold group_key. split.
    - apply group_key_inj.
      rewrite (monthKey_length E _ _ H1), (monthKey_length E _ _ H2).
      reflexivity.
    - intros [-> ->]. reflexivity. }
  assert (Hlands : forall r1 r2 sg1 sg2,
            lands_in E r1 sg1 -> lands_in E r2 sg2 ->
            (label sg1 = label sg2 <->
             customerKey r1 = customerKey r2 /\ month_of E r1 = month_of E r2)).
  { intros r1 r2 sg1 sg2 [Hc1 Hm1] [Hc2 Hm2]. unfold label.
    rewrite Hm1, Hm2, <- Hc1, <- Hc2. split.
    - intros Hl. inversion Hl. auto.
    - intros [-> Hm]. inversion Hm. reflexivity. }
  assert (Htrivial :
    detail_of resp = [] -> summary_list_of resp = [] ->
    (forall r, In r (detail_of resp) ->
       exists sg, In sg (summary_list_of resp) /\ lands_in E r sg)
    /\ NoDup (map label (summary_list_of resp))
    /\ (forall r1 r2 sg1 sg2,
          In sg1 (summary_list_of resp) -> In sg2 (summary_list_of resp) ->
          lands_in E r1 sg1 -> lands_in E r2 sg2 ->
          (sg1 = sg2 <->
           customerKey r1 = customerKey r2 /\ month_of E r1 = month_of E r2))
    /\ (exists groups,
          group_rows E (field (metric req)) (detail_of resp) [] = Some groups
          /\ NoDup (map fst groups)
          /\ summary_list_of resp = summary_of E groups
          /\ forall r, In r (detail_of resp) ->
               exists m g, month_of E r = Some m
                           /\ In (group_key r m, g) groups)).
  { intros -> ->. split; [intros r []|]. split; [constructor|].
    split; [intros ? ? ? ? []|].
    exists []. repeat split; try constructor. intros r []. }
  cut ((forall r, In r (detail_of resp) ->
          exists sg, In sg (summary_list_of resp) /\ lands_in E r sg)
       /\ NoDup (map label (summary_list_of resp))
       /\ (forall r1 r2 sg1 sg2,
             In sg1 (summary_list_of resp) -> In sg2 (summary_list_of resp) ->
             lands_in E r1 sg1 -> lands_in E r2 sg2 ->
             (sg1 = sg2 <->
              customerKey r1 = customerKey r2
              /\ month_of E r1 = month_of E r2))
       /\ (exists groups,
             group_rows E (field (metric req)) (detail_of resp) []
             = Some groups
             /\ NoDup (map fst groups)
             /\ summary_list_of resp = summary_of E groups
             /\ forall r, In r (detail_of resp) ->
                  exists m g, month_of E r = Some m
                              /\ In (group_key r m, g) groups)).
  { intros (H1 & H2 & H3 & H4).
    split; [exact H1|]. split; [exact H2|]. split; [exact H3|].
    split; [exact H4|]. exact Hkeys. }
  destruct (payload resp) eqn:Hp;
    try (apply Htrivial; unfold detail_of, summary_list_of; rewrite Hp;
         reflexivity).
  clear Htrivial.
  destruct (report_inv _ _ _ _ _ _ _ _ _ _ _ _ H Hp)
    as (cmin & cmax & orders & tr1 & groups
        & _ & _ & _ & _ & Hgroups & -> & _).
  unfold detail_of, summary_list_of. rewrite Hp.
  destruct (groups_characterised _ _ _ _ Hgroups) as (Hnd & Hchar & Hrows).
  assert (Hlabels : NoDup (map label (summary_of E groups))).
  { apply (Permutation_NoDup
             (l := map label (map (fun kg => summarize (snd kg)) groups))).
    - apply Permutation_map, Permutation_sym, sort_by_perm.
    - rewrite map_map.
      apply (NoDup_map_inv (fun l => (fst l ++ "|" ++ snd l)%string)).
      rewrite map_map.
      erewrite map_ext_in; [exact Hnd|].
      intros [k g] Hin. destruct (Hchar k g Hin) as (_ & -> & _).
      reflexivity. }
  assert (Hland : forall r, In r detail ->
            exists sg, In sg (summary_of E groups) /\ lands_in E r sg).
  { intros r Hin. destruct (Hrows r Hin) as (m & g & Hm & Hg).
    exists (summarize g). split.
    - apply summary_of_In. eauto.
    - destruct (Hchar _ _ Hg) as (Hlen & Hk & _).
      unfold group_key in Hk. apply group_key_inj in Hk.
      + destruct Hk as [Hc Hmo]. split; simpl.
        * now symmetry.
        * now rewrite <- Hmo.
      + rewrite Hlen. exact (monthKey_length E _ _ Hm). }
  split; [exact Hland|]. split; [exact Hlabels|]. split.
  - intros r1 r2 sg1 sg2 Hin1 Hin2 Hl1 Hl2.
    rewrite <- (Hlands r1 r2 sg1 sg2 Hl1 Hl2). split.
    + now intros ->.
    + now apply (NoDup_map_eq label (summary_of E groups)).
  - exists groups. auto.
Qed.

(** *** Validation of the request *)

Lemma rows_from_trace (up : upstream) (orders : list order) :
  forall tr, exists calls, snd (rows_from up orders tr) = calls ++ tr.
Proof.
  induction orders as [|o rest IH]; intros tr; simpl.
  - now exists [].
  - assert (He : exists calls, snd (enrich up o tr) = calls ++ tr).
    { unfold enrich, bind, post_metafields, post_fulfillments, ret.
      destruct (metafields_of up tr (o_id o)); simpl.
      - now exists [MetafieldsQuery (o_id o)].
      - now exists [FulfillmentsQuery (o_id o); MetafieldsQuery (o_id o)]. }
    destruct (enrich up o tr) as [r tr1]. destruct He as [c1 Hc1].
    simpl in Hc1. subst tr1.
    destruct (IH (c1 ++ tr)) as [c2 Hc2].
    destruct (rows_from up rest (c1 ++ tr)) as [rs tr2]. simpl in *.
    subst tr2. exists (c2 ++ c1). now rewrite app_assoc.
Qed.

(** The first request of the loop is made whatever follows. *)
Lemma fetch_loop_first_request (up : upstream)
    (params : list (string * string)) (fuel : nat) (since_id : option Z)
    (orders : list order) (totalFetched : Z) (tr : trace) :
  exists calls,
    snd (fetch_loop (S fuel) up params since_id orders totalFetched tr)
    = calls ++ GetOrders (request_params params since_id) :: tr.
Proof.
  rewrite fetch_loop_turn.
  destruct (orders_json up tr _) as [e|data]; [now exists []|].
  destruct (_ <? limit); [now exists []|].
  destruct (10000 <? _); [now exists []|].
  match goal with
  | |- context [fetch_loop fuel up params ?s ?o ?t ?r] =>
      destruct (fetch_loop_requests up params fuel s o t r) as (calls & Hc & _)
  end.
  exists calls. exact Hc.
Qed.

(** A request without one of its three fields, or with a metric that is
    neither [billing] nor [actual], is answered 400 before any call. *)
Lemma report_rejects_missing_fields (E : engine) (up : upstream)
    (req : report_request) (tr : trace) :
  falsy (start req) || falsy (end_ req) || falsy (metric req)
  || negb (String.eqb (field (metric req)) "billing"
           || String.eqb (field (metric req)) "actual") = true ->
  exists msg, report E up req tr = (Some (bad_request msg), tr).
Proof.
  unfold report. intros H.
  destruct (falsy (start req) || falsy (end_ req) || falsy (metric req)).
  - eexists. reflexivity.
  - simpl in H. rewrite H. eexists. reflexivity.
Qed.

(** C2 fails on the code. A request whose start is after its end is not
    rejected by [POST /api/report]: the orders are requested upstream,
    where [GET /api/orders] answers 400 to the same range before any call;
    and a start that is no date is answered 500, not 400, where
    [GET /api/orders] answers 400. *)
Theorem report_skips_date_validation :
  forall (E : engine) (up : upstream) (tr : trace),
    (exists calls q,
       snd (report E up reversed_request tr) = calls ++ GetOrders q :: tr)
    /\ list_orders E up reversed_query tr
       = (Some (bad_request "Start date must be before end date"), tr)
    /\ report plain_engine up unreadable_request tr
       = (Some {| status := 500;
                  payload := ServerError (VStr "Invalid time value") 500
                               "Failed to generate report" |}, tr)
    /\ list_orders plain_engine up unreadable_query tr
       = (Some (bad_request
            "Invalid date format. Use ISO 8601 format (YYYY-MM-DDTHH:mm:ss.sssZ)"),
          tr).
Proof.
  intros E up tr. split; [|split; [|split]]; try reflexivity.
  unfold report.
  change (falsy (start reversed_request) || falsy (end_ reversed_request)
          || falsy (metric reversed_request)) with false.
  change (negb (String.eqb (field (metric reversed_request)) "billing"
                || String.eqb (field (metric reversed_request)) "actual"))
    with false.
  cbv iota.
  change (iso_of E (field (start reversed_request)))
    with (Some "2024-02-01T00:00:00.000Z").
  change (iso_of E (field (end_ reversed_request)))
    with (Some "2024-01-01T00:00:00.000Z").
  cbv iota. unfold bind, fetch_orders, max_requests.
  destruct (fetch_loop_first_request up
              (order_params "2024-02-01T00:00:00.000Z"
                 "2024-01-01T00:00:00.000Z" (customerId reversed_request))
              40 None [] 0 tr) as (calls & Hcalls).
  destruct (fetch_loop 41 up _ None [] 0 tr) as [[[err|orders]|] tr1];
    simpl in Hcalls; subst tr1.
  - exists calls. eexists. reflexivity.
  - rewrite enrich_all_rows_from.
    destruct (rows_from_trace up orders
                (calls ++ GetOrders
                   (request_params
                      (order_params "2024-02-01T00:00:00.000Z"
                         "2024-01-01T00:00:00.000Z"
                         (customerId reversed_request)) None) :: tr))
      as (more & Hmore).
    destruct (rows_from up orders _) as [rows tr2]. simpl in Hmore. subst tr2.
    exists (more ++ calls). eexists.
    cbn [app fst snd].
    destruct (group_rows E _ rows []); unfold ret; cbn [snd];
      now rewrite <- app_assoc.
  - exists calls. eexists. reflexivity.
Qed.

(** *** The month key and the calendar *)

Lemma fixed_width_length (width : nat) :
  forall z acc,
    String.length (fixed_width width z acc)
    = (width + String.length acc)%nat.
Proof.
  induction width as [|w IH]; intros z acc; simpl; [reflexivity|].
  rewrite IH. simpl. lia.
Qed.

Lemma pad_length (width : nat) (z : Z) :
  z < 10 ^ Z.of_nat width -> String.length (pad width z) = width.
Proof.
  intros Hz. unfold pad. apply Z.ltb_lt in Hz. rewrite Hz.
  rewrite fixed_width_length. simpl. lia.
Qed.

Lemma era_month_range (doe : Z) :
  0 <= doe < 146097 -> 1 <= era_month doe <= 12.
Proof.
  intros H. unfold era_month. cbv zeta.
  match goal with
  | |- context [if ?a <? ?b then _ else _] => destruct (Z.ltb_spec a b)
  end; Z.div_mod_to_equations; lia.
Qed.

Lemma civil_month_range (z y m d : Z) :
  civil_from_days z = (y, m, d) -> 1 <= m <= 12.
Proof.
  intros H.
  assert (Hm : m = era_month (z + 719468 - (z + 719468) / 146097 * 146097))
    by (change m with (snd (fst (y, m, d))); rewrite <- H; reflexivity).
  rewrite Hm. apply era_month_range.
  pose proof (Z.mod_pos_bound (z + 719468) 146097) as Hb.
  rewrite Z.mod_eq in Hb by lia. lia.
Qed.

Lemma append_assoc (a b c : string) :
  ((a ++ b) ++ c)%string = (a ++ (b ++ c))%string.
Proof.
  induction a as [|x a IH]; simpl; [reflexivity|]. now rewrite IH.
Qed.

Lemma substring_prefix (a b : string) :
  String.substring 0 (String.length a) (a ++ b) = a.
Proof.
  induction a as [|x a IH]; simpl.
  - destruct b; reflexivity.
  - now rewrite IH.
Qed.

(** For a date whose year in UTC has four digits, the month key is the
    year and the month of the date in UTC, [YYYY-MM]. *)
Lemma month_key_is_utc_month (E : engine) (iso : string) (t y m d : Z) :
  Date_parse E iso = Some t ->
  civil_from_days (t / ms_per_day) = (y, m, d) ->
  0 <= y <= 9999 ->
  monthKey E iso = Some (pad 4 y ++ "-" ++ pad 2 m)%string.
Proof.
  intros Ht Hc Hy. unfold monthKey, iso_of. rewrite Ht.
  unfold toISOString. rewrite Hc.
  assert (Hyy : (0 <=? y) && (y <=? 9999) = true)
    by (apply andb_true_iff; split; apply Z.leb_le; lia).
  rewrite Hyy. f_equal. unfold slice0.
  pose proof (civil_month_range _ _ _ _ Hc) as Hm.
  set (rest := ("-" ++ pad 2 d ++ "T" ++ pad 2 (t mod ms_per_day / 3600000)
                ++ ":" ++ pad 2 (t mod ms_per_day / 60000 mod 60) ++ ":"
                ++ pad 2 (t mod ms_per_day / 1000 mod 60) ++ "."
                ++ pad 3 (t mod ms_per_day mod 1000) ++ "Z")%string).
  replace (pad 4 y ++ "-" ++ pad 2 m ++ rest)%string
    with ((pad 4 y ++ "-" ++ pad 2 m) ++ rest)%string
    by (rewrite !append_assoc; reflexivity).
  replace 7%nat with (String.length (pad 4 y ++ "-" ++ pad 2 m)).
  - apply substring_prefix.
  - rewrite !length_append, !pad_length; [reflexivity| |];
      change (10 ^ Z.of_nat 2) with 100 || change (10 ^ Z.of_nat 4) with 10000;
      lia.
Qed.

(** *** Groups and calendar months *)

Lemma digit_of_mod (z : Z) :
  is_digit (ascii_of_nat (Z.to_nat (48 + z mod 10))) = true
  /\ digit_val (ascii_of_nat (Z.to_nat (48 + z mod 10))) = z mod 10.
Proof.
  pose proof (Z.mod_pos_bound z 10 ltac:(lia)) as H.
  assert (Hc : z mod 10 = 0 \/ z mod 10 = 1 \/ z mod 10 = 2 \/ z mod 10 = 3
               \/ z mod 10 = 4 \/ z mod 10 = 5 \/ z mod 10 = 6
               \/ z mod 10 = 7 \/ z mod 10 = 8 \/ z mod 10 = 9) by lia.
  destruct Hc as [Hc|[Hc|[Hc|[Hc|[Hc|[Hc|[Hc|[Hc|[Hc|Hc]]]]]]]]];
    rewrite Hc; split; reflexivity.
Qed.

(** Reading back the digits [fixed_width] wrote gives the number. *)
Lemma fixed_digits_fixed_width (w : nat) :
  forall (k : nat) (z : Z) (acc : string) (a0 : Z),
    0 <= z < 10 ^ Z.of_nat w ->
    fixed_digits (w + k) (fixed_width w z acc) a0
    = fixed_digits k acc (a0 * 10 ^ Z.of_nat w + z).
Proof.
  induction w as [|w IH]; intros k z acc a0 Hz.
  - change (10 ^ Z.of_nat 0) with 1 in *.
    replace (a0 * 1 + z) with a0 by lia. reflexivity.
  - rewrite Nat2Z.inj_succ, Z.pow_succ_r in * by lia.
    set (p := 10 ^ Z.of_nat w) in *.
    pose proof (Z.div_mod z 10 ltac:(lia)) as Hdiv.
    pose proof (Z.mod_pos_bound z 10 ltac:(lia)) as Hmod.
    cbn [fixed_width]. replace (S w + k)%nat with (w + S k)%nat by lia.
    rewrite IH by (fold p; lia).
    cbn [fixed_digits]. destruct (digit_of_mod z) as [-> ->].
    fold p. f_equal. lia.
Qed.

(** Two numbers of at most [w] digits with the same padded text are
    equal. *)
Lemma pad_inj (w : nat) (a b : Z) :
  0 <= a < 10 ^ Z.of_nat w -> 0 <= b < 10 ^ Z.of_nat w ->
  pad w a = pad w b -> a = b.
Proof.
  intros Ha Hb H. unfold pad in H.
  rewrite (proj2 (Z.ltb_lt _ _) (proj2 Ha)) in H.
  rewrite (proj2 (Z.ltb_lt _ _) (proj2 Hb)) in H.
  apply (f_equal (fun s => fixed_digits (w + 0) s 0)) in H.
  rewrite !fixed_digits_fixed_width in H by assumption.
  cbn [fixed_digits] in H. inversion H. lia.
Qed.

Lemma year_month_text_inj (y1 m1 y2 m2 : Z) :
  0 <= y1 <= 9999 -> 0 <= y2 <= 9999 ->
  1 <= m1 <= 12 -> 1 <= m2 <= 12 ->
  year_month_text y1 m1 = year_month_text y2 m2 -> y1 = y2 /\ m1 = m2.
Proof.
  intros Hy1 Hy2 Hm1 Hm2 H. unfold year_month_text in H.
  apply append_inj in H.
  - destruct H as [Hy Hm]. inversion Hm as [Hm'].
    split; [apply (pad_inj 4)|apply (pad_inj 2)]; try assumption;
      change (10 ^ Z.of_nat 4) with 10000;
      change (10 ^ Z.of_nat 2) with 100; lia.
  - cbn [append String.length]. rewrite !pad_length; [reflexivity| |];
      change (10 ^ Z.of_nat 2) with 100; lia.
Qed.

(** The month of a date in UTC is one of the twelve, and when the year
    has four digits the month key of the handler is that year and that
    month, [YYYY-MM]. *)
Lemma utc_year_month_key (E : engine) (iso : string) (y m : Z) :
  utc_year_month E iso = Some (y, m) ->
  1 <= m <= 12
  /\ (0 <= y <= 9999 -> monthKey E iso = Some (year_month_text y m)).
Proof.
  unfold utc_year_month.
  destruct (Date_parse E iso) as [t|] eqn:Ht; [|discriminate].
  destruct (civil_from_days (t / ms_per_day)) as [[y' m'] d] eqn:Hc.
  intros H. inversion H; subst y' m'. split.
  - exact (civil_month_range _ _ _ _ Hc).
  - intros Hy. exact (month_key_is_utc_month E iso t y m d Ht Hc Hy).
Qed.

Lemma month_key_has_utc_month (E : engine) (iso mk : string) :
  monthKey E iso = Some mk -> exists y m, utc_year_month E iso = Some (y, m).
Proof.
  unfold monthKey, iso_of, utc_year_month.
  destruct (Date_parse E iso) as [t|]; [|discriminate].
  intros _. destruct (civil_from_days (t / ms_per_day)) as [[y m] d].
  now exists y, m.
Qed.

(** C8. In a report, every row lands in a group of the summary that
    carries its customer key and its month key, and no two groups carry
    the same customer key and month key, so that two rows land in the
    same group exactly when they agree on both. The date of every row
    has a year and a month in UTC, and when that year has four digits,
    0 to 9999, the month key of the row is that year and that month,
    [YYYY-MM]: two rows of such dates land in the same group exactly when
    they have the same customer key, the same year and the same month in
    UTC, and the group carries that year and month. The keys of the map
    behind the summary are distinct, and two rows have the same key
    exactly when they agree on the customer key and the month key. The
    customer key of the row of an order is the email of the [customer]
    field of the order as upstream sent it, if it has one that is not
    empty, else its identifier as text if it has one that is not 0, else
    [unknown], and the date of the row is the [created_at] field of the
    order; the rows of the detail are the rows of the fetched orders, one
    by one in the order of the fetch. *)
Theorem grouping_by_customer_and_month :
  forall (E : engine) (up : upstream) (req : report_request)
         (tr tr' : trace) (resp : response),
    report E up req tr = (Some resp, tr') ->
    (forall r, In r (detail_of resp) ->
       exists sg, In sg (summary_list_of resp) /\ lands_in E r sg)
    /\ NoDup (map label (summary_list_of resp))
    /\ (forall r1 r2 sg1 sg2,
          In sg1 (summary_list_of resp) -> In sg2 (summary_list_of resp) ->
          lands_in E r1 sg1 -> lands_in E r2 sg2 ->
          (sg1 = sg2 <->
           customerKey r1 = customerKey r2 /\ month_of E r1 = month_of E r2))
    /\ (forall r, In r (detail_of resp) ->
          exists y m,
            utc_year_month E (order_date r) = Some (y, m)
            /\ 1 <= m <= 12
            /\ (0 <= y <= 9999 ->
                month_of E r = Some (year_month_text y m)))
    /\ (forall r1 r2 sg1 sg2 y1 m1 y2 m2,
          In sg1 (summary_list_of resp) -> In sg2 (summary_list_of resp) ->
          lands_in E r1 sg1 -> lands_in E r2 sg2 ->
          utc_year_month E (order_date r1) = Some (y1, m1) ->
          utc_year_month E (order_date r2) = Some (y2, m2) ->
          0 <= y1 <= 9999 -> 0 <= y2 <= 9999 ->
          month sg1 = year_month_text y1 m1
          /\ (sg1 = sg2 <->
              customerKey r1 = customerKey r2 /\ y1 = y2 /\ m1 = m2))
    /\ (exists groups,
          group_rows E (field (metric req)) (detail_of resp) [] = Some groups
          /\ NoDup (map fst groups)
          /\ summary_list_of resp = summary_of E groups
          /\ forall r, In r (detail_of resp) ->
               exists m g, month_of E r = Some m
                           /\ In (group_key r m, g) groups)
    /\ (forall r1 r2 m1 m2,
          month_of E r1 = Some m1 -> month_of E r2 = Some m2 ->
          (group_key r1 m1 = group_key r2 m2 <->
           customerKey r1 = customerKey r2 /\ m1 = m2))
    /\ (forall o tr0,
          customerKey (fst (enrich up o tr0)) = stated_customer_key o
          /\ order_date (fst (enrich up o tr0)) = o_created_at o)
    /\ (forall summary detail stats generatedAt n1 n2,
          payload resp = ReportBody summary detail stats generatedAt n1 n2 ->
          exists created_at_min created_at_max orders tr1,
            fetch_orders up
              (order_params created_at_min created_at_max (customerId req))
              tr
            = (Some (Replied orders), tr1)
            /\ Forall2
                 (fun o r =>
                    customerKey r = stated_customer_key o
                    /\ order_date r = o_created_at o)
                 orders detail).
Proof.
  intros E up req tr tr' resp H.
  destruct (report_groups E up req tr tr' resp H)
    as (Ha & Hb & Hc & Hf & Hg).
  assert (Hd : forall r, In r (detail_of resp) ->
            exists y m,
              utc_year_month E (order_date r) = Some (y, m)
              /\ 1 <= m <= 12
              /\ (0 <= y <= 9999 ->
                  month_of E r = Some (year_month_text y m))).
  { intros r Hin. destruct (Ha r Hin) as (sg & _ & _ & Hm).
    destruct (month_key_has_utc_month _ _ _ Hm) as (y & m & Hu).
    exists y, m. split; [exact Hu|].
    exact (utc_year_month_key _ _ _ _ Hu). }
  split; [exact Ha|]. split; [exact Hb|]. split; [exact Hc|].
  split; [exact Hd|]. split.
  - intros r1 r2 sg1 sg2 y1 m1 y2 m2 Hi1 Hi2 Hl1 Hl2 Hu1 Hu2 Hy1 Hy2.
    destruct (utc_year_month_key _ _ _ _ Hu1) as [Hm1 Hk1].
    destruct (utc_year_month_key _ _ _ _ Hu2) as [Hm2 Hk2].
    specialize (Hk1 Hy1). specialize (Hk2 Hy2). split.
    + destruct Hl1 as [_ Hl1]. unfold month_of in Hl1.
      rewrite Hk1 in Hl1. now inversion Hl1.
    + rewrite (Hc r1 r2 sg1 sg2 Hi1 Hi2 Hl1 Hl2). unfold month_of.
      rewrite Hk1, Hk2. split.
      * intros [Hck Hmk]. split; [exact Hck|]. inversion Hmk as [Hmk'].
        now apply year_month_text_inj.
      * intros (Hck & -> & ->). split; [exact Hck|reflexivity].
  - split; [exact Hf|]. split; [exact Hg|]. split.
    + intros o tr0.
      split; [apply enrich_customer_key|apply enrich_order_date].
    + intros summary detail stats generatedAt n1 n2 Hp.
      destruct (report_inv _ _ _ _ _ _ _ _ _ _ _ _ H Hp)
        as (cmin & cmax & orders & tr1 & groups
            & _ & _ & Hfetch & Hrows & _).
      exists cmin, cmax, orders, tr1. split; [exact Hfetch|].
      rewrite enrich_all_rows_from in Hrows. simpl in Hrows.
      inversion Hrows as [[Hrs Ht]].
      apply rows_from_Forall2. intros o t.
      split; [apply enrich_customer_key|apply enrich_order_date].
Qed.

(** The third sample order, of 31 January at 23:30 five hours behind
    UTC, is of February in UTC: its row lands in the group of its
    customer's email and of 2024-02. *)
Lemma grouping_by_customer_and_month_witness :
  utc_year_month plain_engine (order_date (nth_row 2)) = Some (2024, 2)
  /\ exists sg,
       In sg (summary_list_of sample_response)
       /\ lands_in plain_engine (nth_row 2) sg
       /\ customer sg = "v@veeryoffices.com"
       /\ month sg = "2024-02".
Proof.
  assert (Hin : In (nth_row 2) (detail_of sample_response))
    by (vm_compute; right; right; left; reflexivity).
  assert (Hu : utc_year_month plain_engine (order_date (nth_row 2))
               = Some (2024, 2)) by (vm_compute; reflexivity).
  assert (Hk : customerKey (nth_row 2) = "v@veeryoffices.com")
    by (vm_compute; reflexivity).
  assert (Hy : 0 <= 2024 <= 9999) by lia.
  destruct (grouping_by_customer_and_month _ _ _ _ _ _ sample_run_eq)
    as (Ha & _ & _ & _ & He & _).
  destruct (Ha _ Hin) as (sg & Hsg & Hl).
  split; [exact Hu|]. exists sg.
  split; [exact Hsg|]. split; [exact Hl|]. split.
  - rewrite <- Hk. exact (proj1 Hl).
  - exact (proj1 (He _ _ sg sg 2024 2 2024 2 Hsg Hsg Hl Hl Hu Hu Hy Hy)).
Defined.

(** The claim as stated fails for a year of more than four digits: the
    UTC date-time text of such a date starts with a sign and six digits,
    and its first seven characters are the year alone. Two orders of one
    customer, of January and of June of the year 10000, land in one
    group, of month key [+010000] and two orders. *)
Lemma grouping_stated_counterexample :
  status far_response = 200
  /\ exists r1 r2 sg,
       detail_of far_response = [r1; r2]
       /\ summary_list_of far_response = [sg]
       /\ customerKey r1 = customerKey r2
       /\ utc_year_month plain_engine (order_date r1) = Some (10000, 1)
       /\ utc_year_month plain_engine (order_date r2) = Some (10000, 6)
       /\ lands_in plain_engine r1 sg
       /\ lands_in plain_engine r2 sg
       /\ month sg = "+010000"
       /\ orders sg = 2.
Proof.
  split; [vm_compute; reflexivity|].
  do 3 eexists.
  split; [vm_compute; reflexivity|].
  split; [vm_compute; reflexivity|].
  repeat split; vm_compute; reflexivity.
Qed.

(** *** The scenario of the specification *)

(** Two orders of January with a line sum of 100 and additional charges of
    10 each make one group, of month 2024-01, with 2 orders and an amount
    of 220. *)
Example scenario_one_group :
  status scenario_response = 200
  /\ map (fun sg => (customer sg, month sg, orders sg))
       (summary_list_of scenario_response)
     = [("v@veeryoffices.com", "2024-01", 2)]
  /\ amount (first_group scenario_response) = of_Z 220
  /\ map order_id (detail_of scenario_response) = [1; 2].
Proof.
  split; [reflexivity|]. split; [vm_compute; reflexivity|].
  split; [|reflexivity].
  apply number_eqb_eq. vm_compute. reflexivity.
Qed.

(** ** Further properties of the handlers *)

Import Observe.

(** *** The validation of [GET /api/orders] *)

(** X1. [GET /api/orders] answers 400 without calling upstream when a
    bound is missing, when a bound is no date, or when the start is not
    before the end; a query with two dates in order reaches upstream, and
    its first request carries the two instants in the UTC date-time
    format, whatever offset the query wrote them with. *)
Theorem list_orders_validation :
  forall (E : engine) (up : upstream) (req : orders_request) (tr : trace),
    (falsy (q_start req) = true \/ falsy (q_end req) = true
     \/ Date_parse E (field (q_start req)) = None
     \/ Date_parse E (field (q_end req)) = None
     \/ (exists s e,
           Date_parse E (field (q_start req)) = Some s
           /\ Date_parse E (field (q_end req)) = Some e /\ e <= s) ->
     exists msg, list_orders E up req tr = (Some (bad_request msg), tr))
    /\ (forall s e,
          falsy (q_start req) = false -> falsy (q_end req) = false ->
          Date_parse E (field (q_start req)) = Some s ->
          Date_parse E (field (q_end req)) = Some e ->
          s < e ->
          exists calls,
            snd (list_orders E up req tr)
            = calls
              ++ GetOrders (order_params (toISOString s) (toISOString e)
                              (q_customerId req)) :: tr).
Proof.
  intros E up req tr. unfold list_orders. split.
  - intros H.
    destruct (falsy (q_start req)) eqn:Hs; [eexists; reflexivity|].
    destruct (falsy (q_end req)) eqn:He; [eexists; reflexivity|].
    cbn [orb].
    destruct (Date_parse E (field (q_start req))) as [s|] eqn:Hds;
      [|eexists; reflexivity].
    destruct (Date_parse E (field (q_end req))) as [e|] eqn:Hde;
      [|eexists; reflexivity].
    destruct H as [H|[H|[H|[H|(s' & e' & H1 & H2 & Hle)]]]];
      try discriminate.
    injection H1 as <-. injection H2 as <-.
    apply Z.leb_le in Hle. rewrite Hle. eexists. reflexivity.
  - intros s e Hs He Hds Hde Hlt.
    rewrite Hs, He, Hds, Hde. cbn [orb].
    apply Z.leb_gt in Hlt. rewrite Hlt.
    unfold bind, fetch_orders, max_requests.
    destruct (fetch_loop_first_request up
                (order_params (toISOString s) (toISOString e)
                   (q_customerId req)) 40 None [] 0 tr) as (calls & Hcalls).
    destruct (fetch_loop 41 up _ None [] 0 tr) as [[[err|orders]|] tr1];
      simpl in Hcalls; subst tr1; exists calls; reflexivity.
Qed.

Lemma list_orders_validation_witness :
  (exists msg,
     list_orders plain_engine sample_upstream reversed_query []
     = (Some (bad_request msg), []))
  /\ (exists calls,
        snd (list_orders plain_engine sample_upstream sample_query [])
        = calls
          ++ [GetOrders (order_params "2024-01-01T00:00:00.000Z"
                           "2024-03-01T00:00:00.000Z"
                           (Some "8688802627863"))]).
Proof.
  split.
  - apply (proj1 (list_orders_validation plain_engine sample_upstream
                    reversed_query [])).
    right. right. right. right.
    exists 1706745600000, 1704067200000.
    split; [reflexivity|]. split; [reflexivity|]. lia.
  - apply (proj2 (list_orders_validation plain_engine sample_upstream
                    sample_query [])
             1704067200000 1709251200000);
      try reflexivity.
Defined.

(** *** The requests of the fetch loop *)

Lemma assoc_filter_other (k k' : string) (p : list (string * string)) :
  k <> k' ->
  assoc k (filter (fun e => negb (String.eqb k' (fst e))) p) = assoc k p.
Proof.
  intros Hk. induction p as [|[k0 v0] rest IH]; simpl; [reflexivity|].
  destruct (String.eqb k' k0) eqn:H0; simpl.
  - apply String.eqb_eq in H0. subst k0.
    destruct (String.eqb_spec k k'); [contradiction|exact IH].
  - now rewrite IH.
Qed.

Lemma assoc_set_param_other (k k' v : string) (p : list (string * string)) :
  k <> k' -> assoc k (set_param k' v p) = assoc k p.
Proof.
  intros Hk. induction p as [|[k0 v0] rest IH]; simpl.
  - destruct (String.eqb_spec k k'); [contradiction|reflexivity].
  - destruct (String.eqb k' k0) eqn:H0; simpl.
    + apply String.eqb_eq in H0. subst k0.
      destruct (String.eqb_spec k k'); [contradiction|].
      now apply assoc_filter_other.
    + now rewrite IH.
Qed.

Lemma request_params_filter (params : list (string * string))
    (since_id : option Z) :
  same_filter params (request_params params since_id).
Proof.
  intros k Hk. unfold request_params.
  destruct since_id as [id|]; [|reflexivity].
  destruct (id =? 0); [reflexivity|].
  now apply assoc_set_param_other.
Qed.

(** Where a call sits in a list of calls that ends with another. *)
Lemma snoc_split {A : Type} (l after before : list A) (x y : A) :
  l ++ [x] = after ++ y :: before ->
  (before = [] /\ l = after /\ x = y)
  \/ (exists b, before = b ++ [x] /\ l = after ++ y :: b).
Proof.
  intros H. induction before as [|z b _] using rev_ind.
  - left. apply app_inj_tail in H. destruct H as [H1 H2].
    now subst.
  - right. exists b.
    change (after ++ y :: b ++ [z]) with (after ++ (y :: b) ++ [z]) in H.
    rewrite app_assoc in H. apply app_inj_tail in H.
    destruct H as [H1 H2]. now subst.
Qed.

Lemma single_split {A : Type} (after before : list A) (x y : A) :
  [x] = after ++ y :: before -> after = [] /\ before = [] /\ x = y.
Proof.
  destruct after as [|a after]; simpl; intros H.
  - now inversion H.
  - inversion H. now destruct after.
Qed.

(** The calls of the fetch loop: each is an order request with the
    parameters of the handler; a rejected one is the last, and the loop
    ends with its error. *)
Lemma fetch_loop_protocol (up : upstream) (params : list (string * string)) :
  forall fuel since_id orders totalFetched tr,
    exists calls,
      snd (fetch_loop fuel up params since_id orders totalFetched tr)
      = calls ++ tr
      /\ Forall (fun c => exists q, c = GetOrders q /\ same_filter params q)
           calls
      /\ (forall after q before e,
            calls = after ++ GetOrders q :: before ->
            orders_json up (before ++ tr) q = Failed e ->
            after = []
            /\ fst (fetch_loop fuel up params since_id orders totalFetched tr)
               = Some (Failed e))
      /\ (forall e,
            fst (fetch_loop fuel up params since_id orders totalFetched tr)
            = Some (Failed e) ->
            exists q before,
              calls = GetOrders q :: before
              /\ orders_json up (before ++ tr) q = Failed e).
Proof.
  induction fuel as [|fuel IH]; intros since_id orders totalFetched tr.
  - exists []. simpl. split; [reflexivity|]. split; [constructor|].
    split.
    + intros after q before e H. now destruct after.
    + intros e H. discriminate H.
  - rewrite fetch_loop_turn.
    set (q0 := request_params params since_id).
    assert (Hone : Forall (fun c => exists q, c = GetOrders q
                                     /\ same_filter params q)
                     [GetOrders q0]).
    { constructor; [|constructor]. exists q0. split; [reflexivity|].
      apply request_params_filter. }
    destruct (orders_json up tr q0) as [e0|data] eqn:Hq.
    + exists [GetOrders q0]. split; [reflexivity|]. split; [exact Hone|].
      split.
      * intros after q before e H Hf.
        apply single_split in H. destruct H as (-> & -> & H).
        injection H as <-. simpl in Hf. rewrite Hq in Hf.
        injection Hf as <-. now split.
      * intros e H. injection H as <-. exists q0, []. now split.
    + assert (Hstop : forall res : option (reply (list order)),
                (forall e, res <> Some (Failed e)) ->
                exists calls,
                  snd (res, GetOrders q0 :: tr) = calls ++ tr
                  /\ Forall (fun c => exists q, c = GetOrders q
                                        /\ same_filter params q) calls
                  /\ (forall after q before e,
                        calls = after ++ GetOrders q :: before ->
                        orders_json up (before ++ tr) q = Failed e ->
                        after = [] /\ fst (res, GetOrders q0 :: tr)
                                      = Some (Failed e))
                  /\ (forall e,
                        fst (res, GetOrders q0 :: tr) = Some (Failed e) ->
                        exists q before,
                          calls = GetOrders q :: before
                          /\ orders_json up (before ++ tr) q = Failed e)).
      { intros res Hres. exists [GetOrders q0].
        split; [reflexivity|]. split; [exact Hone|]. split.
        - intros after q before e H Hf.
          apply single_split in H. destruct H as (-> & -> & H).
          injection H as <-. simpl in Hf. rewrite Hq in Hf. discriminate Hf.
        - intros e H. simpl in H. now apply Hres in H. }
      destruct (_ <? limit); [apply Hstop; discriminate|].
      destruct (10000 <? _); [apply Hstop; discriminate|].
      match goal with
      | |- context [fetch_loop fuel up params ?s ?o ?t ?r] =>
          destruct (IH s o t r) as (calls & Hc & Hall & Hrej & Hlast);
          destruct (fetch_loop fuel up params s o t r) as [res tr1]
      end.
      simpl in Hc, Hrej, Hlast. subst tr1.
      exists (calls ++ [GetOrders q0]). cbn [fst snd].
      split; [now rewrite <- app_assoc|].
      split; [apply Forall_app; split; assumption|].
      split.
      * intros after q before e H Hf.
        apply snoc_split in H.
        destruct H as [(-> & _ & H)|(b & -> & ->)].
        -- injection H as <-. simpl in Hf. rewrite Hq in Hf. discriminate Hf.
        -- rewrite <- app_assoc in Hf. exact (Hrej _ _ _ _ eq_refl Hf).
      * intros e H. destruct (Hlast e H) as (q & before & -> & Hf).
        exists q, (before ++ [GetOrders q0]). split; [reflexivity|].
        now rewrite <- app_assoc.
Qed.

(** *** The runs of [POST /api/report] *)

(** The ways a run of the handler ends: before any call; with the error of
    a rejected order request; or, the orders fetched and enriched, with
    the report or with the error of a date that cannot be read. *)
Lemma report_run (E : engine) (up : upstream) (req : report_request)
    (tr tr' : trace) (resp : response) :
  report E up req tr = (Some resp, tr') ->
  (tr' = tr
   /\ ((exists msg, resp = bad_request msg)
       \/ resp = error_response range_error "Failed to generate report"))
  \/ exists created_at_min created_at_max,
       iso_of E (field (start req)) = Some created_at_min
       /\ iso_of E (field (end_ req)) = Some created_at_max
       /\ ((exists e,
              fetch_orders up
                (order_params created_at_min created_at_max (customerId req))
                tr
              = (Some (Failed e), tr')
              /\ resp = error_response e "Failed to generate report")
           \/ (exists orders tr1 rows,
                 fetch_orders up
                   (order_params created_at_min created_at_max
                      (customerId req)) tr
                 = (Some (Replied orders), tr1)
                 /\ rows_from up orders tr1 = (rows, tr')
                 /\ ((group_rows E (field (metric req)) rows [] = None
                      /\ resp = error_response range_error
                                  "Failed to generate report")
                     \/ (exists groups,
                           group_rows E (field (metric req)) rows []
                           = Some groups
                           /\ resp
                              = {| status := 200;
                                   payload :=
                                     ReportBody (summary_of E groups) rows
                                       (analytics_of (summary_of E groups))
                                       (toISOString (clock E))
                                       (List.length rows)
                                       (List.length (summary_of E groups))
                                |})))).
Proof.
  unfold report. intros H.
  destruct (falsy (start req) || falsy (end_ req) || falsy (metric req)).
  { left. inversion H; subst. split; [reflexivity|]. left. eexists.
    reflexivity. }
  destruct (negb _).
  { left. inversion H; subst. split; [reflexivity|]. left. eexists.
    reflexivity. }
  destruct (iso_of E (field (start req))) as [cmin|].
  2:{ left. inversion H; subst. now split; [|right]. }
  destruct (iso_of E (field (end_ req))) as [cmax|].
  2:{ left. inversion H; subst. now split; [|right]. }
  right. exists cmin, cmax. split; [reflexivity|]. split; [reflexivity|].
  unfold bind in H.
  destruct (fetch_orders up _ tr) as [fetched tr1].
  destruct fetched as [[err|orders]|].
  - left. inversion H; subst. exists err. now split.
  - right. rewrite enrich_all_rows_from in H. cbn [app] in H.
    destruct (rows_from up orders tr1) as [rows tr2] eqn:Hr.
    cbn [fst snd] in H.
    exists orders, tr1, rows. split; [reflexivity|].
    destruct (group_rows E (field (metric req)) rows []) as [groups|].
    + inversion H; subst. split; [exact Hr|]. right. exists groups.
      now split.
    + inversion H; subst. split; [exact Hr|]. left. now split.
  - inversion H.
Qed.

Lemma app_split {A : Type} (l1 l2 after before : list A) (x : A) :
  l1 ++ l2 = after ++ x :: before ->
  (exists b, before = b ++ l2 /\ l1 = after ++ x :: b)
  \/ (exists a, after = l1 ++ a /\ l2 = a ++ x :: before).
Proof.
  revert after. induction l1 as [|y l1 IH]; intros after H.
  - right. exists after. now split.
  - destruct after as [|z after]; simpl in H.
    + left. injection H as -> <-. exists l1. now split.
    + injection H as -> H. destruct (IH _ H) as [(b & -> & ->)|(a & -> & ->)].
      * left. exists b. now split.
      * right. exists a. now split.
Qed.

Lemma metafield_ids_app (l1 l2 : list call) :
  metafield_ids (l1 ++ l2) = metafield_ids l1 ++ metafield_ids l2.
Proof. apply flat_map_app. Qed.

(** The calls of the loop over the fetched orders. *)
Lemma rows_from_protocol (up : upstream) (orders : list order) :
  forall tr,
    exists calls,
      snd (rows_from up orders tr) = calls ++ tr
      /\ Forall (fun c => is_orders_call c = false) calls
      /\ metafield_ids (in_order calls) = map o_id orders
      /\ (forall after id before,
            calls = after ++ FulfillmentsQuery id :: before ->
            exists b data,
              before = MetafieldsQuery id :: b
              /\ metafields_of up (b ++ tr) id = Replied data)
      /\ (forall after id before data,
            calls = after ++ MetafieldsQuery id :: before ->
            metafields_of up (before ++ tr) id = Replied data ->
            exists a, after = a ++ [FulfillmentsQuery id])
      /\ (List.length orders <= List.length calls
          <= 2 * List.length orders)%nat.
Proof.
  induction orders as [|o rest IH]; intros tr.
  - exists []. simpl. split; [reflexivity|]. split; [constructor|].
    split; [reflexivity|]. split.
    { intros after id before H. now destruct after. }
    split; [|lia].
    intros after id before data H. now destruct after.
  - cbn [rows_from].
    unfold enrich, bind, post_metafields, post_fulfillments, ret.
    destruct (metafields_of up tr (o_id o)) as [e|data] eqn:Hm.
    + destruct (IH (MetafieldsQuery (o_id o) :: tr))
        as (calls & Hc & Hall & Hids & HF & HM & Hlen).
      destruct (rows_from up rest (MetafieldsQuery (o_id o) :: tr))
        as [rs tr2].
      cbn [fst snd] in *. subst tr2.
      exists (calls ++ [MetafieldsQuery (o_id o)]).
      split; [now rewrite <- app_assoc|].
      split; [apply Forall_app; split; [exact Hall|now repeat constructor]|].
      split.
      { unfold in_order in *. rewrite rev_app_distr, metafield_ids_app, Hids.
        reflexivity. }
      split.
      { intros after id before H. apply snoc_split in H.
        destruct H as [(_ & _ & H)|(b & -> & ->)]; [discriminate H|].
        destruct (HF _ _ _ eq_refl) as (b' & d & -> & Hd).
        exists (b' ++ [MetafieldsQuery (o_id o)]), d.
        split; [reflexivity|]. now rewrite <- app_assoc. }
      split.
      { intros after id before d H Hd. apply snoc_split in H.
        destruct H as [(-> & _ & H)|(b & -> & ->)].
        - injection H as <-. simpl in Hd. rewrite Hm in Hd. discriminate Hd.
        - rewrite <- app_assoc in Hd. exact (HM _ _ _ _ eq_refl Hd). }
      rewrite length_app. cbn [List.length]. lia.
    + destruct (IH (FulfillmentsQuery (o_id o) :: MetafieldsQuery (o_id o)
                    :: tr))
        as (calls & Hc & Hall & Hids & HF & HM & Hlen).
      destruct (rows_from up rest
                  (FulfillmentsQuery (o_id o) :: MetafieldsQuery (o_id o)
                   :: tr)) as [rs tr2].
      cbn [fst snd] in *. subst tr2.
      exists (calls ++ [FulfillmentsQuery (o_id o); MetafieldsQuery (o_id o)]).
      split; [now rewrite <- app_assoc|].
      split; [apply Forall_app; split; [exact Hall|now repeat constructor]|].
      split.
      { unfold in_order in *. rewrite rev_app_distr, metafield_ids_app, Hids.
        reflexivity. }
      split.
      { intros after id before H. apply app_split in H.
        destruct H as [(b & -> & ->)|(a & -> & H)].
        - destruct (HF _ _ _ eq_refl) as (b' & d & -> & Hd).
          exists (b' ++ [FulfillmentsQuery (o_id o);
                         MetafieldsQuery (o_id o)]), d.
          split; [reflexivity|]. now rewrite <- app_assoc.
        - destruct a as [|c a]; simpl in H.
          + injection H as <- <-. exists [], data. now split.
          + injection H as _ H. apply single_split in H.
            destruct H as (_ & _ & H). discriminate H. }
      split.
      { intros after id before d H Hd. apply app_split in H.
        destruct H as [(b & -> & ->)|(a & -> & H)].
        - rewrite <- app_assoc in Hd. exact (HM _ _ _ _ eq_refl Hd).
        - destruct a as [|c a]; simpl in H; [discriminate H|].
          injection H as <- H. apply single_split in H.
          destruct H as (-> & _ & H). injection H as <-.
          exists calls. reflexivity. }
      rewrite length_app. cbn [List.length]. lia.
Qed.

Lemma order_params_filter (created_at_min created_at_max : string)
    (customerId : option string) (q : list (string * string)) :
  same_filter (order_params created_at_min created_at_max customerId) q ->
  assoc "limit" q = Some "250"
  /\ assoc "status" q = Some "any"
  /\ assoc "fulfillment_status" q = Some "shipped"
  /\ assoc "created_at_min" q = Some created_at_min
  /\ assoc "created_at_max" q = Some created_at_max
  /\ assoc "customer_id" q
     = if falsy customerId then None else Some (field customerId).
Proof.
  intros H. unfold same_filter in H.
  rewrite !H by discriminate. unfold order_params.
  destruct (falsy customerId).
  - repeat split; reflexivity.
  - rewrite assoc_set_param, !assoc_set_param_other by discriminate.
    repeat split; reflexivity.
Qed.

Lemma fetch_orders_calls (up : upstream) (params : list (string * string))
    (tr : trace) :
  exists calls,
    snd (fetch_orders up params tr) = calls ++ tr
    /\ (List.length calls <= 41)%nat
    /\ Forall (fun c => exists q, c = GetOrders q /\ same_filter params q)
         calls
    /\ (forall after q before e,
          calls = after ++ GetOrders q :: before ->
          orders_json up (before ++ tr) q = Failed e ->
          after = [] /\ fst (fetch_orders up params tr) = Some (Failed e)).
Proof.
  unfold fetch_orders, max_requests.
  destruct (fetch_loop_protocol up params 41 None [] 0 tr)
    as (calls & Hc & Hall & Hrej & _).
  destruct (fetch_loop_requests up params 41 None [] 0 tr)
    as (calls' & Hc' & Hlen).
  rewrite Hc in Hc'. apply app_inv_tail in Hc'. subst calls'.
  exists calls. auto.
Qed.

(** X2. Every order request that [POST /api/report] and [GET /api/orders]
    send upstream, the first as the later pages, asks for 250 orders of
    any status whose fulfilment status is shipped, created between the two
    instants of the request in the UTC date-time format, and carries the
    customer filter exactly when the request names a customer. *)
Theorem order_requests_keep_the_filter :
  forall (E : engine) (up : upstream) (tr : trace),
    (forall req : report_request,
     exists calls,
       snd (report E up req tr) = calls ++ tr
       /\ forall q,
            In (GetOrders q) calls ->
            assoc "limit" q = Some "250"
            /\ assoc "status" q = Some "any"
            /\ assoc "fulfillment_status" q = Some "shipped"
            /\ assoc "created_at_min" q = iso_of E (field (start req))
            /\ assoc "created_at_max" q = iso_of E (field (end_ req))
            /\ assoc "customer_id" q
               = if falsy (customerId req) then None
                 else Some (field (customerId req)))
    /\ (forall req : orders_request,
        exists calls,
          snd (list_orders E up req tr) = calls ++ tr
          /\ forall q,
               In (GetOrders q) calls ->
               assoc "limit" q = Some "250"
               /\ assoc "status" q = Some "any"
               /\ assoc "fulfillment_status" q = Some "shipped"
               /\ assoc "created_at_min" q = iso_of E (field (q_start req))
               /\ assoc "created_at_max" q = iso_of E (field (q_end req))
               /\ assoc "customer_id" q
                  = if falsy (q_customerId req) then None
                    else Some (field (q_customerId req))).
Proof.
  intros E up tr. split; intros req.
  - destruct (report_answers E up req tr) as (resp & tr' & Hrun).
    rewrite Hrun. cbn [snd].
    destruct (report_run _ _ _ _ _ _ Hrun)
      as [(-> & _)|(cmin & cmax & Hmin & Hmax & Hcases)].
    { exists []. split; [reflexivity|]. intros q []. }
    rewrite Hmin, Hmax.
    destruct (fetch_orders_calls up (order_params cmin cmax (customerId req))
                tr) as (fcalls & Hf & _ & Hall & _).
    rewrite Forall_forall in Hall.
    destruct Hcases as [(e & Hfetch & _)|(orders & tr1 & rows & Hfetch & Hr & _)];
      rewrite Hfetch in Hf; cbn [snd] in Hf.
    + exists fcalls. split; [exact Hf|]. intros q Hq.
      destruct (Hall _ Hq) as (q' & Heq & Hsame). injection Heq as <-.
      now apply order_params_filter.
    + destruct (rows_from_protocol up orders tr1) as (ecalls & He & Hno & _).
      rewrite Hr in He. cbn [snd] in He. subst tr' tr1.
      exists (ecalls ++ fcalls). split; [now rewrite <- app_assoc|].
      intros q Hq. apply in_app_or in Hq. destruct Hq as [Hq|Hq].
      * rewrite Forall_forall in Hno. apply Hno in Hq. discriminate Hq.
      * destruct (Hall _ Hq) as (q' & Heq & Hsame). injection Heq as <-.
        now apply order_params_filter.
  - unfold list_orders.
    destruct (falsy (q_start req) || falsy (q_end req)).
    { exists []. split; [reflexivity|]. intros q []. }
    unfold iso_of.
    destruct (Date_parse E (field (q_start req))) as [s|].
    2:{ exists []. split; [reflexivity|]. intros q []. }
    destruct (Date_parse E (field (q_end req))) as [e|].
    2:{ exists []. split; [reflexivity|]. intros q []. }
    destruct (e <=? s).
    { exists []. split; [reflexivity|]. intros q []. }
    unfold bind.
    destruct (fetch_orders_calls up
                (order_params (toISOString s) (toISOString e)
                   (q_customerId req)) tr) as (fcalls & Hf & _ & Hall & _).
    rewrite Forall_forall in Hall.
    destruct (fetch_orders up _ tr) as [fetched tr1]. cbn [snd] in Hf.
    subst tr1. exists fcalls.
    split; [destruct fetched as [[err|orders]|]; reflexivity|].
    intros q Hq.
    destruct (Hall _ Hq) as (q' & Heq & Hsame). injection Heq as <-.
    now apply order_params_filter.
Qed.

Lemma order_requests_keep_the_filter_witness :
  exists calls,
    snd (report plain_engine sample_upstream sample_request []) = calls ++ []
    /\ forall q,
         In (GetOrders q) calls ->
         assoc "limit" q = Some "250"
         /\ assoc "status" q = Some "any"
         /\ assoc "fulfillment_status" q = Some "shipped"
         /\ assoc "created_at_min" q = Some "2024-01-01T00:00:00.000Z"
         /\ assoc "created_at_max" q = Some "2024-03-01T00:00:00.000Z"
         /\ assoc "customer_id" q = None.
Proof.
  exact (proj1 (order_requests_keep_the_filter plain_engine sample_upstream [])
           sample_request).
Defined.

Lemma app_longer {A : Type} (l tr : list A) (x : A) (before : list A) :
  l ++ x :: before ++ tr <> tr.
Proof.
  intros H. apply (f_equal (@List.length A)) in H.
  rewrite !length_app in H. cbn [List.length] in H.
  rewrite length_app in H. lia.
Qed.

(** X3. A rejected order request ends a run of [POST /api/report] at
    once: it is the last call of the run, no metafield or fulfilment query
    is made, the orders of the pages before are dropped, and the answer
    carries the status of the upstream answer, 500 when there is none, the
    upstream errors, the message of the error when there are none, and
    the message [Failed to generate report]. *)
Theorem rejected_request_ends_the_report :
  forall (E : engine) (up : upstream) (req : report_request)
         (tr after before : trace) (q : list (string * string))
         (resp : response) (e : error),
    report E up req tr = (Some resp, after ++ GetOrders q :: before ++ tr) ->
    orders_json up (before ++ tr) q = Failed e ->
    after = []
    /\ Forall (fun c => is_orders_call c = true) before
    /\ status resp
       = match err_status e with
         | Some z => if z =? 0 then 500 else z
         | None => 500
         end
    /\ payload resp
       = ServerError
           (if truthy (err_errors e) then err_errors e
            else VStr (err_message e))
           (status resp) "Failed to generate report".
Proof.
  intros E up req tr after before q resp e Hrun Hq.
  destruct (report_run _ _ _ _ _ _ Hrun)
    as [(Heq & _)|(cmin & cmax & _ & _ & Hcases)].
  { now apply app_longer in Heq. }
  destruct (fetch_orders_calls up (order_params cmin cmax (customerId req)) tr)
    as (fcalls & Hf & _ & Hall & Hrej).
  destruct Hcases as [(e0 & Hfetch & ->)|(orders & tr1 & rows & Hfetch & Hr & _)];
    rewrite Hfetch in Hf, Hrej; cbn [fst snd] in Hf, Hrej.
  - change (after ++ GetOrders q :: before ++ tr)
      with (after ++ (GetOrders q :: before) ++ tr) in Hf.
    rewrite app_assoc in Hf. apply app_inv_tail in Hf. subst fcalls.
    destruct (Hrej _ _ _ _ eq_refl Hq) as (-> & He). injection He as ->.
    split; [reflexivity|]. split; [|now split].
    apply Forall_app in Hall. destruct Hall as [_ Hall].
    inversion Hall as [|c l _ Hb]; subst.
    eapply Forall_impl; [|exact Hb].
    intros c (q' & -> & _). reflexivity.
  - exfalso.
    destruct (rows_from_protocol up orders tr1) as (ecalls & He & Hno & _).
    rewrite Hr in He. cbn [snd] in He. subst tr1.
    change (after ++ GetOrders q :: before ++ tr)
      with (after ++ (GetOrders q :: before) ++ tr) in He.
    rewrite !app_assoc in He. apply app_inv_tail in He.
    symmetry in He. apply app_split in He.
    destruct He as [(b & -> & ->)|(a & -> & ->)].
    + apply Forall_app in Hno. destruct Hno as [_ Hno].
      inversion Hno as [|c l Hc _]. discriminate Hc.
    + destruct (Hrej _ _ _ _ eq_refl Hq) as (_ & He). discriminate He.
Qed.

Lemma rejected_request_ends_the_report_witness :
  status (error_response sample_failure "Failed to generate report") = 429
  /\ payload (error_response sample_failure "Failed to generate report")
     = ServerError (VStr "Exceeded 2 calls per second") 429
         "Failed to generate report".
Proof.
  assert (Hrun : report plain_engine failing_upstream sample_request []
                 = (Some (error_response sample_failure
                            "Failed to generate report"),
                    [] ++ GetOrders
                            (order_params "2024-01-01T00:00:00.000Z"
                               "2024-03-01T00:00:00.000Z" None)
                       :: [] ++ []))
    by (vm_compute; reflexivity).
  pose proof (rejected_request_ends_the_report _ _ _ _ _ _ _ _
                sample_failure Hrun eq_refl) as (_ & _ & H1 & H2).
  split; [exact H1|exact H2].
Defined.

(** *** The queries of the enrichment *)

(** X4. The loop over the fetched orders asks for the metafields of every
    order once, in the order of the list, and sends no order request. It
    asks for the fulfilments of an order only directly after the metafield
    query of that order was answered, and it does so after every answered
    one: an order whose metafield query is rejected gets no fulfilment
    query. So the loop makes between one and two calls for each order. *)
Theorem enrichment_queries :
  forall (up : upstream) (orders : list order) (rows : list row) (tr : trace),
    exists calls,
      snd (enrich_all up orders rows tr) = calls ++ tr
      /\ metafield_ids (in_order calls) = map o_id orders
      /\ order_queries calls = []
      /\ (forall after id before,
            calls = after ++ FulfillmentsQuery id :: before ->
            exists b data,
              before = MetafieldsQuery id :: b
              /\ metafields_of up (b ++ tr) id = Replied data)
      /\ (forall after id before data,
            calls = after ++ MetafieldsQuery id :: before ->
            metafields_of up (before ++ tr) id = Replied data ->
            exists a, after = a ++ [FulfillmentsQuery id])
      /\ (List.length orders <= List.length calls
          <= 2 * List.length orders)%nat.
Proof.
  intros up orders rows tr. rewrite enrich_all_rows_from. cbn [snd].
  destruct (rows_from_protocol up orders tr)
    as (calls & Hc & Hno & Hids & HF & HM & Hlen).
  exists calls. split; [exact Hc|]. split; [exact Hids|].
  split; [|auto].
  clear - Hno. induction Hno as [|c l Hc _ IH]; [reflexivity|].
  destruct c; [discriminate Hc|exact IH|exact IH].
Qed.

Lemma enrichment_queries_witness :
  exists calls,
    snd (enrich_all sample_upstream sample_orders [] []) = calls ++ []
    /\ metafield_ids (in_order calls) = [1; 2; 3]
    /\ fulfillment_ids (in_order calls) = [1; 3].
Proof.
  destruct (enrichment_queries sample_upstream sample_orders [] [])
    as (calls & Hc & Hids & _).
  exists calls. split; [exact Hc|]. split; [exact Hids|].
  rewrite app_nil_r in Hc. rewrite <- Hc. reflexivity.
Defined.

Lemma order_queries_app (l1 l2 : list call) :
  order_queries (l1 ++ l2) = order_queries l1 ++ order_queries l2.
Proof. apply flat_map_app. Qed.

Lemma order_queries_none (calls : list call) :
  Forall (fun c => is_orders_call c = false) calls -> order_queries calls = [].
Proof.
  induction 1 as [|c l Hc _ IH]; [reflexivity|].
  destruct c; [discriminate Hc|exact IH|exact IH].
Qed.

Lemma only_order_queries (params : list (string * string))
    (calls : list call) :
  Forall (fun c => exists q, c = GetOrders q /\ same_filter params q) calls ->
  List.length (order_queries calls) = List.length calls
  /\ metafield_ids (rev calls) = [].
Proof.
  induction 1 as [|c l (q & -> & _) _ (IH1 & IH2)]; [now split|].
  split; [simpl; now rewrite IH1|].
  simpl. now rewrite metafield_ids_app, IH2.
Qed.

(** X5. A report of [n] rows has cost at most 41 order requests and at
    most [2 n] queries: the metafield queries of the run are those of the
    orders of the rows, one for each row, in the order of the rows; and
    the two counts of the answer are the lengths of its two lists. *)
Theorem report_call_budget :
  forall (E : engine) (up : upstream) (req : report_request)
         (tr tr' : trace) (resp : response)
         (summary : list summary_group) (detail : list row)
         (stats : analytics) (generatedAt : string)
         (totalRecords summaryRecords : nat),
    report E up req tr = (Some resp, tr') ->
    payload resp
    = ReportBody summary detail stats generatedAt totalRecords summaryRecords ->
    exists calls,
      tr' = calls ++ tr
      /\ (List.length (order_queries calls) <= 41)%nat
      /\ metafield_ids (in_order calls) = map order_id detail
      /\ (List.length calls <= 41 + 2 * List.length detail)%nat
      /\ totalRecords = List.length detail
      /\ summaryRecords = List.length summary.
Proof.
  intros E up req tr tr' resp summary detail stats generatedAt n1 n2 Hrun Hp.
  destruct (report_run _ _ _ _ _ _ Hrun)
    as [(_ & [(msg & ->)| ->])|(cmin & cmax & _ & _ & Hcases)];
    try discriminate Hp.
  destruct Hcases
    as [(e & _ & ->)|(orders & tr1 & rows & Hfetch & Hr & Hres)];
    [discriminate Hp|].
  destruct Hres as [(_ & ->)|(groups & _ & ->)]; [discriminate Hp|].
  cbn [payload] in Hp. injection Hp as <- <- <- <- <- <-.
  destruct (fetch_orders_calls up (order_params cmin cmax (customerId req)) tr)
    as (fcalls & Hf & Hlen & Hall & _).
  rewrite Hfetch in Hf. cbn [snd] in Hf. subst tr1.
  destruct (rows_from_protocol up orders (fcalls ++ tr))
    as (ecalls & He & Hno & Hids & _ & _ & Hlen2).
  pose proof (rows_from_ids up orders (fcalls ++ tr)) as Hrows.
  rewrite Hr in He, Hrows. cbn [fst snd] in He, Hrows. subst tr'.
  destruct (only_order_queries _ _ Hall) as (Hq1 & Hq2).
  exists (ecalls ++ fcalls).
  split; [now rewrite <- app_assoc|].
  split.
  { rewrite order_queries_app, (order_queries_none _ Hno). simpl. lia. }
  split.
  { unfold in_order in *.
    rewrite rev_app_distr, metafield_ids_app, Hq2, Hids, Hrows.
    reflexivity. }
  split; [|now split].
  rewrite length_app.
  rewrite <- (length_map order_id rows), Hrows, length_map. lia.
Qed.

Lemma report_call_budget_witness :
  exists calls,
    sample_trace = calls ++ []
    /\ (List.length (order_queries calls) <= 41)%nat
    /\ metafield_ids (in_order calls) = map order_id (detail_of sample_response)
    /\ (List.length calls
        <= 41 + 2 * List.length (detail_of sample_response))%nat
    /\ 3%nat = List.length (detail_of sample_response)
    /\ 2%nat = List.length (summary_list_of sample_response).
Proof.
  assert (Hp : payload sample_response
               = ReportBody (summary_list_of sample_response)
                   (detail_of sample_response)
                   (analytics_of (summary_list_of sample_response))
                   (toISOString (clock plain_engine)) 3 2)
    by (vm_compute; reflexivity).
  exact (report_call_budget _ _ _ _ _ _ _ _ _ _ _ _ sample_run_eq Hp).
Defined.

(** *** The groups of the summary *)

Lemma set_add_In (x y : string) (l : list string) :
  In y (set_add x l) <-> y = x \/ In y l.
Proof.
  unfold set_add. destruct (existsb (String.eqb x) l) eqn:Hx.
  - apply existsb_exists in Hx. destruct Hx as (z & Hz & Hxz).
    apply String.eqb_eq in Hxz. subst z.
    split; [now right|]. intros [->|H]; assumption.
  - rewrite in_app_iff. simpl.
    split; [intros [H|[H|[]]]|intros [H|H]]; auto.
Qed.

Lemma set_add_NoDup (x : string) (l : list string) :
  NoDup l -> NoDup (set_add x l).
Proof.
  intros Hl. unfold set_add. destruct (existsb (String.eqb x) l) eqn:Hx;
    [exact Hl|].
  apply NoDup_app; [exact Hl|repeat constructor; intros []|].
  intros y Hy [Heq|[]]. subst y.
  assert (Ht : existsb (String.eqb x) l = true)
    by (apply existsb_exists; exists x; split; [exact Hy|apply String.eqb_refl]).
  congruence.
Qed.

(** What the rows of a key have made of its object. *)
Lemma fold_add_row_fields (metric : string) (rs : list row) :
  forall g0,
    let g := fold_left (fun g r => add_row metric r g) rs g0 in
    g_orders g = g_orders g0 + Z.of_nat (List.length rs)
    /\ g_total_billing g
       = fold_left add (map (fun r => number_or (billing_amount r) zero) rs)
           (g_total_billing g0)
    /\ g_total_actual g
       = fold_left add (map (fun r => number_or (actual_spend r) zero) rs)
           (g_total_actual g0)
    /\ (NoDup (g_order_numbers g0) -> NoDup (g_order_numbers g))
    /\ (forall n, In n (g_order_numbers g)
                  <-> In n (g_order_numbers g0) \/ In n (numbers_of rs)).
Proof.
  induction rs as [|r rest IH]; intros g0; cbn [fold_left].
  - cbn [List.length map fold_left numbers_of flat_map].
    split; [lia|]. split; [reflexivity|]. split; [reflexivity|].
    split; [auto|]. intros n. simpl. tauto.
  - destruct (IH (add_row metric r g0)) as (Ho & Hb & Ha & Hnd & Hin).
    cbv zeta. rewrite Ho, Hb, Ha.
    cbn [add_row g_orders g_total_billing g_total_actual g_order_numbers
         List.length map fold_left] in *.
    split; [lia|]. split; [reflexivity|]. split; [reflexivity|].
    split.
    + intros H0. apply Hnd.
      destruct (order_number r) as [n|]; [|exact H0].
      destruct (String.eqb n EmptyString); [exact H0|].
      now apply set_add_NoDup.
    + intros n. rewrite Hin. cbn [numbers_of flat_map].
      fold (numbers_of rest). rewrite in_app_iff.
      destruct (order_number r) as [n'|]; [|simpl; tauto].
      destruct (String.eqb n' EmptyString); [simpl; tauto|].
      rewrite set_add_In. simpl. intuition.
Qed.

(** Each object of the finished map is what the rows of its customer key
    and month have made of a new object, and there is such a row. *)
Lemma group_is_fold (E : engine) (metric : string) (detail : list row)
    (groups : list (string * group)) (k : string) (g : group) :
  group_rows E metric detail [] = Some groups ->
  In (k, g) groups ->
  filter (in_group E (g_customer g) (g_month g)) detail <> []
  /\ g = fold_left (fun g r => add_row metric r g)
           (filter (in_group E (g_customer g) (g_month g)) detail)
           (new_group (g_customer g) (g_month g)).
Proof.
  intros Hrun Hin.
  destruct (groups_characterised E metric detail groups Hrun)
    as (Hnd & Hchar & _).
  destruct (Hchar k g Hin) as (Hlen & Hk & _ & _).
  destruct (group_rows_spec E metric detail [] [] groups Hrun (NoDup_nil _))
    as (_ & Hinv & _); [reflexivity|].
  simpl app in Hinv.
  apply (In_assoc _ _ _ Hnd) in Hin. rewrite Hinv in Hin.
  rewrite <- (filter_ext _ _
                (fun r => has_key_in_group E (g_customer g) (g_month g)
                            r Hlen)), <- Hk.
  destruct (filter (has_key E k) detail) as [|r0 t] eqn:Hrs; [discriminate|].
  split; [discriminate|].
  cbn [group_of] in Hin. injection Hin as Hg.
  pose proof (fold_add_row metric (r0 :: t)
                (new_group (customerKey r0)
                   match month_of E r0 with
                   | Some m => m
                   | None => EmptyString
                   end)) as (Hc & Hm & _).
  cbv zeta in Hc, Hm. cbn [fold_left] in Hc, Hm, Hg. rewrite Hg in Hc, Hm.
  cbn [g_customer g_month new_group] in Hc, Hm.
  rewrite Hc, Hm. symmetry. exact Hg.
Qed.

(** What the body of a report holds. *)
Lemma report_body (E : engine) (up : upstream) (req : report_request)
    (tr tr' : trace) (resp : response)
    (summary : list summary_group) (detail : list row) (stats : analytics)
    (generatedAt : string) (n1 n2 : nat) :
  report E up req tr = (Some resp, tr') ->
  payload resp = ReportBody summary detail stats generatedAt n1 n2 ->
  exists groups,
    group_rows E (field (metric req)) detail [] = Some groups
    /\ summary = summary_of E groups
    /\ stats = analytics_of summary
    /\ (field (metric req) = "billing" \/ field (metric req) = "actual").
Proof.
  intros Hrun Hp.
  destruct (report_inv _ _ _ _ _ _ _ _ _ _ _ _ Hrun Hp)
    as (cmin & cmax & orders & tr1 & groups
        & _ & _ & _ & _ & Hgroups & -> & Hmetric).
  exists groups. split; [exact Hgroups|]. split; [reflexivity|].
  split; [|exact Hmetric].
  destruct (report_run _ _ _ _ _ _ Hrun)
    as [(_ & [(msg & ->)| ->])|(cmin' & cmax' & _ & _ & Hcases)];
    try discriminate Hp.
  destruct Hcases
    as [(e & _ & ->)|(orders' & tr1' & rows & _ & _ & Hres)];
    [discriminate Hp|].
  destruct Hres as [(_ & ->)|(groups' & _ & ->)]; [discriminate Hp|].
  cbn [payload] in Hp. injection Hp as Hs _ Hst _ _ _.
  now rewrite <- Hst, Hs.
Qed.

(** The group of the map that a group of the summary was made from. *)
Lemma summary_group_inv (E : engine) (up : upstream) (req : report_request)
    (tr tr' : trace) (resp : response) (sg : summary_group) :
  report E up req tr = (Some resp, tr') ->
  In sg (summary_list_of resp) ->
  exists groups k g,
    group_rows E (field (metric req)) (detail_of resp) [] = Some groups
    /\ In (k, g) groups
    /\ sg = summarize g
    /\ (field (metric req) = "billing" \/ field (metric req) = "actual").
Proof.
  intros Hrun Hin. unfold summary_list_of in Hin. unfold detail_of.
  destruct (payload resp) eqn:Hp; try contradiction.
  destruct (report_body _ _ _ _ _ _ _ _ _ _ _ _ Hrun Hp)
    as (groups & Hgroups & -> & _ & Hmetric).
  apply summary_of_In in Hin. destruct Hin as (k & g & Hin & ->).
  exists groups, k, g. auto.
Qed.

Lemma fold_add_from_zero (l : list number) (f : row -> number)
    (rs : list row) :
  fold_left add (map (fun r => number_or (f r) zero) rs) zero
  = sum_numbers (map (fun r => nan_as_zero (f r)) rs).
Proof.
  unfold sum_numbers. f_equal. apply map_ext. intros r.
  apply number_or_zero.
Qed.

(** X6. In a report, every group of the summary counts the detail rows of
    its customer key and month, of which there is at least one; its two
    totals are the sums of the billing amounts and of the actual spends of
    those rows, a [NaN] counting as 0, whatever the metric; its amount is
    the total of the metric; and its profit margin is computed from the
    two totals, not from the margins of the rows. *)
Theorem group_figures :
  forall (E : engine) (up : upstream) (req : report_request)
         (tr tr' : trace) (resp : response),
    report E up req tr = (Some resp, tr') ->
    forall sg,
      In sg (summary_list_of resp) ->
      orders sg = Z.of_nat (List.length (rows_of_group E resp sg))
      /\ 1 <= orders sg
      /\ total_billing sg
         = sum_numbers (map (fun r => nan_as_zero (billing_amount r))
                          (rows_of_group E resp sg))
      /\ total_actual sg
         = sum_numbers (map (fun r => nan_as_zero (actual_spend r))
                          (rows_of_group E resp sg))
      /\ amount sg
         = (if String.eqb (field (metric req)) "actual"
            then total_actual sg else total_billing sg)
      /\ group_profit_margin sg
         = round2 (if gtb (total_billing sg) zero
                   then mul (div (sub (total_billing sg) (total_actual sg))
                               (total_billing sg)) (of_Z 100)
                   else zero).
Proof.
  intros E up req tr tr' resp Hrun sg Hin.
  destruct (summary_group_inv _ _ _ _ _ _ _ Hrun Hin)
    as (groups & k & g & Hgroups & Hg & -> & Hmetric).
  destruct (group_is_fold _ _ _ _ _ _ Hgroups Hg) as (Hne & Hfold).
  destruct (groups_characterised _ _ _ _ Hgroups) as (_ & Hchar & _).
  destruct (Hchar k g Hg) as (_ & _ & _ & Hamount).
  unfold rows_of_group. cbn [summarize customer month orders total_billing
                              total_actual amount group_profit_margin].
  set (rs := filter (in_group E (g_customer g) (g_month g)) (detail_of resp))
    in *.
  pose proof (fold_add_row_fields (field (metric req)) rs
                (new_group (g_customer g) (g_month g)))
    as (Ho & Hb & Ha & _).
  cbv zeta in Ho, Hb, Ha. rewrite <- Hfold in Ho, Hb, Ha.
  cbn [new_group g_orders g_total_billing g_total_actual] in Ho, Hb, Ha.
  rewrite (fold_add_from_zero []) in Hb, Ha.
  split; [lia|]. split.
  { rewrite Ho. destruct rs; [contradiction|]. cbn [List.length]. lia. }
  split; [exact Hb|]. split; [exact Ha|]. split; [|reflexivity].
  rewrite Hamount. unfold metric_of.
  destruct (String.eqb (field (metric req)) "actual"); symmetry; assumption.
Qed.

Lemma group_figures_witness :
  orders (first_group sample_response)
  = Z.of_nat (List.length (rows_of_group plain_engine sample_response
                             (first_group sample_response)))
  /\ 1 <= orders (first_group sample_response).
Proof.
  assert (Hin : In (first_group sample_response)
                  (summary_list_of sample_response))
    by (vm_compute; left; reflexivity).
  pose proof (group_figures _ _ _ _ _ _ sample_run_eq _ Hin)
    as (Ho & H1 & _).
  split; [exact Ho|exact H1].
Defined.

(** *** The figures of a report *)

Lemma counted_map_update (key : string) (f : group -> group) (g : group) :
  forall m,
    assoc key m = Some g ->
    orders_counted (map_update key f m)
    = orders_counted m - g_orders g + g_orders (f g).
Proof.
  induction m as [|[k b] rest IH]; simpl; [discriminate|].
  destruct (String.eqb key k).
  - intros H. injection H as ->. simpl. lia.
  - intros H. simpl. rewrite (IH H). lia.
Qed.

Lemma counted_map_set (key : string) (a : group) :
  forall m,
    assoc key m = None ->
    orders_counted (map_set key a m) = orders_counted m + g_orders a.
Proof.
  induction m as [|[k b] rest IH]; simpl; [lia|].
  destruct (String.eqb key k); [discriminate|].
  intros H. simpl. rewrite (IH H). lia.
Qed.

Lemma counted_group_step (metric : string) (groups : list (string * group))
    (r : row) (m : string) :
  orders_counted (group_step metric groups r m) = orders_counted groups + 1.
Proof.
  unfold group_step, map_has.
  destruct (assoc (group_key r m) groups) as [g|] eqn:Hg; cbn [negb].
  - rewrite (counted_map_update _ _ g) by exact Hg. simpl. lia.
  - rewrite (counted_map_update _ _ (new_group (customerKey r) m)).
    + rewrite counted_map_set by exact Hg. simpl. lia.
    + rewrite assoc_map_set. now rewrite String.eqb_refl.
Qed.

Lemma counted_group_rows (E : engine) (metric : string) :
  forall rows groups groups',
    group_rows E metric rows groups = Some groups' ->
    orders_counted groups'
    = orders_counted groups + Z.of_nat (List.length rows).
Proof.
  induction rows as [|r rest IH]; intros groups groups' H.
  - simpl in H. injection H as <-. simpl. lia.
  - cbn [group_rows] in H.
    destruct (monthKey E (order_date r)) as [m|]; [|discriminate].
    rewrite (IH _ _ H), counted_group_step. cbn [List.length]. lia.
Qed.

Lemma fold_left_orders (l : list summary_group) :
  forall a,
    fold_left (fun sum g => sum + orders g) l a
    = a + fold_right Z.add 0 (map orders l).
Proof.
  induction l as [|g l IH]; intros a; simpl; [lia|].
  rewrite IH. lia.
Qed.

Lemma sum_permutation (l l' : list Z) :
  Permutation l l' -> fold_right Z.add 0 l = fold_right Z.add 0 l'.
Proof.
  induction 1; simpl; lia.
Qed.

Lemma counted_summary (E : engine) (groups : list (string * group)) :
  fold_right Z.add 0 (map orders (summary_of E groups))
  = orders_counted groups.
Proof.
  unfold summary_of.
  rewrite (sum_permutation _ _
             (Permutation_map orders (sort_by_perm (summary_order E) _))).
  induction groups as [|[k g] rest IH]; simpl; [reflexivity|].
  now rewrite IH.
Qed.

Lemma counted_at_least (groups : list (string * group)) :
  (forall k g, In (k, g) groups -> 1 <= g_orders g) ->
  Z.of_nat (List.length groups) <= orders_counted groups.
Proof.
  induction groups as [|[k g] rest IH]; intros H; simpl; [lia|].
  assert (H1 : 1 <= g_orders g) by (apply (H k); now left).
  assert (H2 : Z.of_nat (List.length rest) <= orders_counted rest)
    by (apply IH; intros k' g' Hin; apply (H k'); now right).
  lia.
Qed.

Lemma summary_of_length (E : engine) (groups : list (string * group)) :
  List.length (summary_of E groups) = List.length groups.
Proof.
  unfold summary_of.
  rewrite (Permutation_length (sort_by_perm (summary_order E) _)).
  apply length_map.
Qed.

Lemma nodup_same_elements (l l' : list string) :
  (forall x, In x l <-> In x l') ->
  List.length (nodup string_dec l) = List.length (nodup string_dec l').
Proof.
  intros H. apply Permutation_length. apply NoDup_Permutation.
  - apply NoDup_nodup.
  - apply NoDup_nodup.
  - intros x. rewrite !nodup_In. apply H.
Qed.

(** X7. The figures of a report against its rows. The total of orders is
    the number of detail rows; the summary has at most as many groups as
    the detail has rows, and none only when there is no row; and the
    count of unique customers is the number of distinct customer keys
    among the rows, however many months a customer appears in. *)
Theorem report_figures :
  forall (E : engine) (up : upstream) (req : report_request)
         (tr tr' : trace) (resp : response)
         (summary : list summary_group) (detail : list row)
         (stats : analytics) (generatedAt : string)
         (totalRecords summaryRecords : nat),
    report E up req tr = (Some resp, tr') ->
    payload resp
    = ReportBody summary detail stats generatedAt totalRecords summaryRecords ->
    totalOrders stats = Z.of_nat (List.length detail)
    /\ (List.length summary <= List.length detail)%nat
    /\ (summary = [] <-> detail = [])
    /\ uniqueCustomers stats
       = List.length (nodup string_dec (map customerKey detail))
    /\ (uniqueCustomers stats <= List.length summary)%nat.
Proof.
  intros E up req tr tr' resp summary detail stats generatedAt n1 n2 Hrun Hp.
  destruct (report_body _ _ _ _ _ _ _ _ _ _ _ _ Hrun Hp)
    as (groups & Hgroups & -> & -> & _).
  pose proof (counted_group_rows _ _ _ _ _ Hgroups) as Hcount.
  cbn [orders_counted fold_right] in Hcount.
  assert (Hone : forall k g, In (k, g) groups -> 1 <= g_orders g).
  { intros k g Hin.
    destruct (group_is_fold _ _ _ _ _ _ Hgroups Hin) as (Hne & Hfold).
    pose proof (fold_add_row_fields (field (metric req))
                  (filter (in_group E (g_customer g) (g_month g)) detail)
                  (new_group (g_customer g) (g_month g))) as (Ho & _).
    cbv zeta in Ho. rewrite <- Hfold in Ho. rewrite Ho.
    destruct (filter _ detail); [contradiction|].
    cbn [new_group g_orders List.length]. lia. }
  pose proof (counted_at_least _ Hone) as Hleast.
  pose proof (summary_of_length E groups) as Hlen.
  destruct (groups_characterised _ _ _ _ Hgroups) as (_ & Hchar & Hland).
  assert (Hsame : forall x,
            In x (map customer (summary_of E groups))
            <-> In x (map customerKey detail)).
  { intros x. rewrite !in_map_iff. split.
    - intros (sg & <- & Hin). apply summary_of_In in Hin.
      destruct Hin as (k & g & Hin & ->).
      destruct (Hchar k g Hin) as (_ & _ & (r & Hr & Hc & _) & _).
      exists r. now split.
    - intros (r & <- & Hin).
      destruct (Hland r Hin) as (m & g & Hm & Hg).
      exists (summarize g). split.
      + destruct (Hchar _ g Hg) as (Hl & Hk & _).
        apply group_key_inj in Hk.
        * cbn [summarize customer]. symmetry. apply Hk.
        * rewrite Hl. exact (monthKey_length E _ _ Hm).
      + apply summary_of_In. now exists (group_key r m), g. }
  split.
  { cbn [analytics_of totalOrders]. rewrite fold_left_orders, counted_summary.
    lia. }
  split; [lia|]. split.
  { split; intros H.
    - apply length_zero_iff_nil. rewrite H in Hlen. simpl in Hlen.
      symmetry in Hlen. apply length_zero_iff_nil in Hlen.
      rewrite Hlen in Hcount. simpl in Hcount. lia.
    - apply length_zero_iff_nil. rewrite H in Hcount. simpl in Hcount. lia. }
  cbn [analytics_of uniqueCustomers].
  split; [exact (nodup_same_elements _ _ Hsame)|].
  rewrite <- (length_map customer (summary_of E groups)).
  apply NoDup_incl_length; [apply NoDup_nodup|].
  intros x Hx. now apply nodup_In in Hx.
Qed.

Lemma report_figures_witness :
  totalOrders (analytics_of (summary_list_of sample_response))
  = Z.of_nat (List.length (detail_of sample_response))
  /\ uniqueCustomers (analytics_of (summary_list_of sample_response))
     = List.length (nodup string_dec
                      (map customerKey (detail_of sample_response))).
Proof.
  assert (Hp : payload sample_response
               = ReportBody (summary_list_of sample_response)
                   (detail_of sample_response)
                   (analytics_of (summary_list_of sample_response))
                   (toISOString (clock plain_engine)) 3 2)
    by (vm_compute; reflexivity).
  pose proof (report_figures _ _ _ _ _ _ _ _ _ _ _ _ sample_run_eq Hp)
    as (H1 & _ & _ & H2 & _).
  split; [exact H1|exact H2].
Defined.

(** X8. The order numbers of a group are the sorted, comma-separated
    list of the distinct order numbers of the rows of the group: a number
    that several rows share is listed once, and a row without an order
    number, or with an empty one, adds nothing. *)
Theorem group_order_numbers :
  forall (E : engine) (up : upstream) (req : report_request)
         (tr tr' : trace) (resp : response),
    report E up req tr = (Some resp, tr') ->
    forall sg,
      In sg (summary_list_of resp) ->
      exists numbers,
        order_numbers sg = join (sort_by String.compare numbers)
        /\ NoDup numbers
        /\ forall n,
             In n numbers <-> In n (numbers_of (rows_of_group E resp sg)).
Proof.
  intros E up req tr tr' resp Hrun sg Hin.
  destruct (summary_group_inv _ _ _ _ _ _ _ Hrun Hin)
    as (groups & k & g & Hgroups & Hg & -> & _).
  destruct (group_is_fold _ _ _ _ _ _ Hgroups Hg) as (_ & Hfold).
  unfold rows_of_group. cbn [summarize customer month order_numbers].
  pose proof (fold_add_row_fields (field (metric req))
                (filter (in_group E (g_customer g) (g_month g))
                   (detail_of resp))
                (new_group (g_customer g) (g_month g)))
    as (_ & _ & _ & Hnd & Hmem).
  cbv zeta in Hnd, Hmem. rewrite <- Hfold in Hnd, Hmem.
  exists (g_order_numbers g). split; [reflexivity|].
  split; [apply Hnd; constructor|].
  intros n. rewrite Hmem. cbn [new_group g_order_numbers In]. tauto.
Qed.

Lemma group_order_numbers_witness :
  exists numbers,
    order_numbers (first_group sample_response)
    = join (sort_by String.compare numbers)
    /\ NoDup numbers
    /\ forall n,
         In n numbers
         <-> In n (numbers_of (rows_of_group plain_engine sample_response
                                 (first_group sample_response))).
Proof.
  assert (Hin : In (first_group sample_response)
                  (summary_list_of sample_response))
    by (vm_compute; left; reflexivity).
  exact (group_order_numbers _ _ _ _ _ _ sample_run_eq _ Hin).
Defined.

(** *** The matches of the number pattern *)

Lemma substring_0_append (w rest : string) :
  String.substring 0 (String.length (w ++ rest) - String.length rest)
    (w ++ rest)
  = w.
Proof.
  rewrite length_append.
  replace (String.length w + String.length rest - String.length rest)%nat
    with (String.length w) by lia.
  apply substring_prefix.
Qed.

(** What [match_here] has consumed is a string of the language. *)
Lemma match_here_language (r : regex) :
  forall s rest,
    match_here r s = Some rest ->
    exists w, s = (w ++ rest)%string /\ language r w.
Proof.
  induction r as [|a r IH]; intros s rest H.
  - simpl in H. injection H as <-. exists EmptyString. now split.
  - assert (Hstar : forall (p : ascii -> bool) (s rest : string),
              (fix star (s : string) : option string :=
                 match s with
                 | String c s' =>
                     if p c then
                       match star s' with
                       | Some rest => Some rest
                       | None => match_here r s
                       end
                     else match_here r s
                 | EmptyString => match_here r s
                 end) s = Some rest ->
              exists u v,
                s = (u ++ v ++ rest)%string /\ all_chars p u = true
                /\ language r v).
    { intros p s0. induction s0 as [|c s' IHs]; intros rest0 H0;
        simpl in H0.
      - destruct (IH _ _ H0) as (v & Hv & Hl).
        exists EmptyString, v. now split.
      - destruct (p c) eqn:Hp.
        + match type of H0 with
          | match ?x with _ => _ end = _ => destruct x as [rest1|] eqn:Hs
          end.
          * injection H0 as <-.
            destruct (IHs _ eq_refl) as (u & v & -> & Hu & Hl).
            exists (String c u), v. simpl. rewrite Hp, Hu. now split.
          * destruct (IH _ _ H0) as (v & Hv & Hl).
            exists EmptyString, v. now split.
        + destruct (IH _ _ H0) as (v & Hv & Hl).
          exists EmptyString, v. now split. }
    destruct a as [p|p|p|p]; cbn [match_here] in H.
    + destruct s as [|c s']; [discriminate|].
      destruct (p c) eqn:Hp; [|discriminate].
      destruct (IH _ _ H) as (w & -> & Hl).
      exists (String c w). split; [reflexivity|].
      exists c, w. now split.
    + assert (Hskip : match_here r s = Some rest ->
                      exists w, s = (w ++ rest)%string
                                /\ language (Opt p :: r) w).
      { intros H0. destruct (IH _ _ H0) as (w & -> & Hl).
        exists w. split; [reflexivity|]. now left. }
      destruct s as [|c s']; [now apply Hskip|].
      destruct (p c) eqn:Hp; [|now apply Hskip].
      destruct (match_here r s') as [rest1|] eqn:Hs; [|now apply Hskip].
      injection H as <-. destruct (IH _ _ Hs) as (w & -> & Hl).
      exists (String c w). split; [reflexivity|].
      right. exists c, w. now split.
    + destruct (Hstar p s rest H) as (u & v & -> & Hu & Hl).
      exists (u ++ v)%string. split; [now rewrite append_assoc|].
      exists u, v. now split.
    + destruct s as [|c s']; [discriminate|].
      destruct (p c) eqn:Hp; [|discriminate].
      destruct (Hstar p s' rest H) as (u & v & -> & Hu & Hl).
      exists (String c (u ++ v)). split.
      * simpl. now rewrite append_assoc.
      * exists c, u, v. now split.
Qed.

(** Every match of a global search is a string of the language. *)
Lemma match_all_language (r : regex) :
  forall fuel s, Forall (language r) (match_all fuel r s).
Proof.
  induction fuel as [|fuel IH]; intros s; cbn [match_all]; [constructor|].
  destruct (match_here r s) as [rest|] eqn:Hm.
  - destruct (match_here_language r _ _ Hm) as (w & -> & Hl).
    rewrite substring_0_append.
    destruct w as [|c w].
    + destruct (EmptyString ++ rest)%string; constructor; auto.
    + constructor; auto.
  - destruct s; [constructor|apply IH].
Qed.

Lemma all_chars_append (p : ascii -> bool) (u v : string) :
  all_chars p (u ++ v) = all_chars p u && all_chars p v.
Proof.
  induction u as [|c u IH]; simpl; [reflexivity|].
  now rewrite IH, andb_assoc.
Qed.

Lemma all_chars_rev (p : ascii -> bool) (s : string) :
  forall acc,
    all_chars p (rev_string s acc) = all_chars p s && all_chars p acc.
Proof.
  induction s as [|c s IH]; intros acc; simpl; [reflexivity|].
  rewrite IH. simpl. rewrite !andb_assoc. f_equal. apply andb_comm.
Qed.

Lemma all_chars_impl (p q : ascii -> bool) (s : string) :
  (forall c, p c = true -> q c = true) ->
  all_chars p s = true -> all_chars q s = true.
Proof.
  intros Hpq. induction s as [|c s IH]; simpl; [reflexivity|].
  intros H. apply andb_true_iff in H. destruct H as [Hc Hs].
  now rewrite (Hpq _ Hc), IH.
Qed.

Lemma append_nil_r (s : string) : (s ++ EmptyString)%string = s.
Proof.
  induction s as [|c s IH]; simpl; [reflexivity|]. now rewrite IH.
Qed.

Lemma rev_string_rev (s : string) :
  forall a b, rev_string (rev_string s a) b = rev_string a (s ++ b).
Proof.
  induction s as [|c s IH]; intros a b; simpl; [reflexivity|].
  now rewrite IH.
Qed.

Lemma drop_spaces_id (s : string) :
  all_chars (fun c => negb (is_space c)) s = true -> drop_spaces s = s.
Proof.
  destruct s as [|c s]; simpl; [reflexivity|].
  intros H. apply andb_true_iff in H. destruct H as [Hc _].
  apply negb_true_iff in Hc. now rewrite Hc.
Qed.

(** A string without white space is its own trimmed form. *)
Lemma trim_id (s : string) :
  all_chars (fun c => negb (is_space c)) s = true -> trim s = s.
Proof.
  intros H. unfold trim. rewrite (drop_spaces_id s H).
  rewrite drop_spaces_id.
  - rewrite rev_string_rev. simpl. apply append_nil_r.
  - rewrite all_chars_rev, H. reflexivity.
Qed.

Lemma numeric_char_facts (c : ascii) :
  numeric_char c = true ->
  is_space c = false
  /\ (Ascii.eqb c "x" || Ascii.eqb c "X") = false
  /\ (Ascii.eqb c "o" || Ascii.eqb c "O") = false
  /\ (Ascii.eqb c "b" || Ascii.eqb c "B") = false.
Proof.
  destruct c as [[] [] [] [] [] [] [] []]; intros H;
    try discriminate H; repeat split; reflexivity.
Qed.

Lemma digit_facts (c : ascii) :
  is_digit c = true ->
  Ascii.eqb c "-" = false /\ Ascii.eqb c "+" = false /\ is_dot c = false
  /\ Ascii.eqb c "I" = false.
Proof.
  destruct c as [[] [] [] [] [] [] [] []]; intros H;
    try discriminate H; repeat split; reflexivity.
Qed.

Lemma sign_facts (c : ascii) :
  is_sign c = true -> c = "+"%char \/ c = "-"%char.
Proof.
  destruct c as [[] [] [] [] [] [] [] []]; intros H;
    try discriminate H; auto.
Qed.

Lemma digit_is_numeric (c : ascii) :
  is_digit c = true -> numeric_char c = true.
Proof. intros H. unfold numeric_char. now rewrite H. Qed.

(** [Number] reads a string of signs, digits and dots as a decimal
    literal. *)
Lemma string_to_number_numeric (w : string) :
  all_chars numeric_char w = true ->
  string_to_number w
  = match w with
    | EmptyString => zero
    | _ => read_decimal w
    end.
Proof.
  intros H. unfold string_to_number. rewrite trim_id.
  2:{ apply (all_chars_impl numeric_char); [|exact H].
      intros c Hc. apply numeric_char_facts in Hc.
      destruct Hc as [Hc _]. now rewrite Hc. }
  destruct w as [|a [|x r]]; [reflexivity| |].
  - destruct a as [[] [] [] [] [] [] [] []]; reflexivity.
  - simpl in H. apply andb_true_iff in H. destruct H as [_ H].
    apply andb_true_iff in H. destruct H as [Hx _].
    apply numeric_char_facts in Hx. destruct Hx as (_ & H1 & H2 & H3).
    destruct a as [[] [] [] [] [] [] [] []]; try reflexivity.
    rewrite H1, H2, H3. reflexivity.
Qed.

Lemma read_digits_digits (u : string) :
  all_chars is_digit u = true ->
  forall rest acc n,
    match rest with
    | String c _ => is_digit c = false
    | EmptyString => True
    end ->
    exists v,
      read_digits (u ++ rest) acc n = (v, (n + String.length u)%nat, rest).
Proof.
  induction u as [|c u IH]; intros Hu rest acc n Hrest.
  - exists acc. simpl. rewrite Nat.add_0_r.
    destruct rest as [|c r]; simpl; [reflexivity|]. now rewrite Hrest.
  - simpl in Hu. apply andb_true_iff in Hu. destruct Hu as [Hc Hu].
    destruct (IH Hu rest (10 * acc + digit_val c) (S n) Hrest) as (v & Hv).
    exists v. cbn [append read_digits String.length]. rewrite Hc, Hv.
    f_equal. f_equal. lia.
Qed.

(** An unsigned literal of the shape of the pattern is read. *)
Lemma read_unsigned_shape (d1 d2 : string) (c : ascii) (dotted : bool) :
  all_chars is_digit d1 = true ->
  is_digit c = true ->
  all_chars is_digit d2 = true ->
  exists q,
    read_unsigned_decimal
      (d1 ++ (if dotted then "." else EmptyString) ++ String c d2)
    = Some q.
Proof.
  intros H1 Hc H2. unfold read_unsigned_decimal.
  assert (Hcd : all_chars is_digit (String c d2) = true)
    by (simpl; now rewrite Hc, H2).
  destruct dotted.
  - destruct (read_digits_digits d1 H1 ("." ++ String c d2) 0 0%nat)
      as (ip & Hip); [reflexivity|].
    rewrite Hip. cbn [append]. change (is_dot ".") with true. cbv iota.
    destruct (read_digits_digits (String c d2) Hcd EmptyString ip 0%nat I)
      as (m & Hm).
    rewrite append_nil_r in Hm. rewrite Hm.
    destruct (0 + String.length d1 + (0 + String.length (String c d2)))%nat
      eqn:Hn; [simpl in Hn; lia|].
    simpl. eexists. reflexivity.
  - cbn [append].
    destruct (read_digits_digits (d1 ++ String c d2)) with
      (rest := EmptyString) (acc := 0) (n := 0%nat) as (ip & Hip);
      [now rewrite all_chars_append, H1, Hcd|exact I|].
    rewrite append_nil_r in Hip. rewrite Hip.
    destruct (0 + String.length (d1 ++ String c d2) + 0)%nat eqn:Hn.
    + rewrite length_append in Hn. simpl in Hn. lia.
    + simpl. eexists. reflexivity.
Qed.

(** The head of the unsigned part of a match is a digit or the dot. *)
Lemma body_head (d1 d2 : string) (c : ascii) (dotted : bool) :
  all_chars is_digit d1 = true ->
  is_digit c = true ->
  exists a t,
    (d1 ++ (if dotted then "." else EmptyString) ++ String c d2)%string
    = String a t
    /\ (is_digit a = true \/ a = "."%char).
Proof.
  intros H1 Hc. destruct d1 as [|a d1].
  - destruct dotted; simpl; eexists; eexists; split; try reflexivity; auto.
  - simpl in H1. apply andb_true_iff in H1. destruct H1 as [Ha _].
    simpl. eexists; eexists; split; [reflexivity|]. now left.
Qed.

Lemma read_decimal_body (a : ascii) (t : string) :
  is_digit a = true \/ a = "."%char ->
  read_decimal (String a t)
  = match read_unsigned_decimal (String a t) with
    | Some q => Fin q
    | None => NaN
    end.
Proof.
  intros Ha. unfold read_decimal.
  assert (H : Ascii.eqb a "-" = false /\ Ascii.eqb a "+" = false
              /\ Ascii.eqb a "I" = false).
  { destruct Ha as [Ha| ->]; [|now repeat split].
    apply digit_facts in Ha. tauto. }
  destruct H as (H1 & H2 & H3). rewrite H1, H2.
  replace (String.eqb (String a t) "Infinity") with false; [reflexivity|].
  simpl. now rewrite H3.
Qed.

(** [Number] of a string that the number pattern matches is a finite
    number. *)
Lemma number_pattern_finite (w : string) :
  language number_pattern w -> is_finite (string_to_number w) = true.
Proof.
  intros H. cbn [language number_pattern] in H.
  assert (Hbody : exists sg d1 dotted c d2,
            w = (sg ++ d1 ++ (if dotted : bool then "." else EmptyString)
                 ++ String c d2)%string
            /\ (sg = EmptyString \/ sg = "+" \/ sg = "-")
            /\ all_chars is_digit d1 = true
            /\ is_digit c = true
            /\ all_chars is_digit d2 = true).
  { assert (Hrest : forall w0,
              (exists u v, w0 = (u ++ v)%string /\ all_chars is_digit u = true
                 /\ ((exists c u0 v0,
                        v = String c (u0 ++ v0) /\ is_digit c = true
                        /\ all_chars is_digit u0 = true /\ v0 = EmptyString)
                     \/ exists c0 w', v = String c0 w' /\ is_dot c0 = true
                          /\ exists c u0 v0,
                               w' = String c (u0 ++ v0) /\ is_digit c = true
                               /\ all_chars is_digit u0 = true
                               /\ v0 = EmptyString)) ->
              exists d1 dotted c d2,
                w0 = (d1 ++ (if dotted : bool then "." else EmptyString)
                      ++ String c d2)%string
                /\ all_chars is_digit d1 = true
                /\ is_digit c = true
                /\ all_chars is_digit d2 = true).
    { intros w0 (u & v & -> & Hu & [Hv|Hv]).
      - destruct Hv as (c & u0 & v0 & -> & Hc & Hu0 & ->).
        exists u, false, c, u0. rewrite append_nil_r. now repeat split.
      - destruct Hv as (c0 & w' & -> & H0 & c & u0 & v0 & -> & Hc & Hu0 & ->).
        exists u, true, c, u0. rewrite append_nil_r.
        unfold is_dot in H0. apply Ascii.eqb_eq in H0. subst c0.
        now repeat split. }
    destruct H as [H|(c0 & w' & -> & Hs & H)].
    - destruct (Hrest w H) as (d1 & dotted & c & d2 & -> & H1 & Hc & H2).
      exists EmptyString, d1, dotted, c, d2. repeat split; auto.
    - destruct (Hrest w' H) as (d1 & dotted & c & d2 & -> & H1 & Hc & H2).
      apply sign_facts in Hs.
      exists (String c0 EmptyString), d1, dotted, c, d2.
      split; [reflexivity|]. split; [|now repeat split].
      destruct Hs as [-> | ->]; auto. }
  destruct Hbody as (sg & d1 & dotted & c & d2 & -> & Hsg & H1 & Hc & H2).
  destruct (read_unsigned_shape d1 d2 c dotted H1 Hc H2) as (q & Hq).
  destruct (body_head d1 d2 c dotted H1 Hc) as (a & t & Hbody & Ha).
  assert (Hnum : all_chars numeric_char
                   (d1 ++ (if dotted then "." else EmptyString)
                    ++ String c d2) = true).
  { rewrite !all_chars_append.
    rewrite (all_chars_impl is_digit numeric_char d1 digit_is_numeric H1).
    replace (all_chars numeric_char (if dotted then "." else EmptyString))
      with true by (now destruct dotted).
    simpl. rewrite (digit_is_numeric c Hc).
    now rewrite (all_chars_impl is_digit numeric_char d2 digit_is_numeric H2). }
  rewrite Hbody in Hq, Hnum.
  destruct Hsg as [-> |[-> | ->]]; cbn [append]; rewrite Hbody.
  - rewrite string_to_number_numeric by exact Hnum.
    rewrite read_decimal_body by exact Ha. now rewrite Hq.
  - rewrite string_to_number_numeric by (simpl; exact Hnum).
    unfold read_decimal. change (Ascii.eqb "+" "-") with false.
    change (Ascii.eqb "+" "+") with true. cbv iota.
    replace (String.eqb (String a t) "Infinity") with false.
    + now rewrite Hq.
    + simpl. destruct Ha as [Ha| ->]; [|reflexivity].
      apply digit_facts in Ha. destruct Ha as (_ & _ & _ & Ha).
      now rewrite Ha.
  - rewrite string_to_number_numeric by (simpl; exact Hnum).
    unfold read_decimal. change (Ascii.eqb "-" "-") with true. cbv iota.
    replace (String.eqb (String a t) "Infinity") with false.
    + now rewrite Hq.
    + simpl. destruct Ha as [Ha| ->]; [|reflexivity].
      apply digit_facts in Ha. destruct Ha as (_ & _ & _ & Ha).
      now rewrite Ha.
Qed.

Lemma sum_finite (l : list number) :
  Forall (fun x => is_finite x = true) l ->
  forall a, is_finite a = true -> is_finite (fold_left add l a) = true.
Proof.
  induction 1 as [|x l Hx _ IH]; intros a Ha; simpl; [exact Ha|].
  apply IH. destruct a, x; try discriminate; reflexivity.
Qed.

Lemma numeric_substrings_finite (v : string) (found : list string) :
  numeric_substrings v = Some found ->
  Forall (fun x => is_finite x = true) (map string_to_number found).
Proof.
  unfold numeric_substrings, match_global. intros H.
  pose proof (match_all_language number_pattern (S (String.length v)) v)
    as Hall.
  destruct (match_all (S (String.length v)) number_pattern v) as [|m l];
    [discriminate|].
  injection H as <-. apply Forall_map.
  eapply Forall_impl; [|exact Hall].
  intros w Hw. now apply number_pattern_finite.
Qed.

Lemma finite_not_NaN (x : number) : is_finite x = true -> isNaN x = false.
Proof. destruct x; try discriminate; reflexivity. Qed.

(** X9. The numeric substrings that [parseAdditionalCharges] takes from
    a text are each read by [Number] as a finite number, so their sum is
    finite: the text branch of the parser never yields [NaN] nor an
    infinity. The text is taken to have at most 300 characters, so that
    no number written in it is beyond the range of the doubles, which
    the exact arithmetic of the model leaves out. *)
Theorem numeric_substrings_sum_is_finite :
  forall (v : string) (found : list string),
    (String.length v <= 300)%nat ->
    numeric_substrings v = Some found ->
    found <> []
    /\ Forall (fun m => is_finite (string_to_number m) = true) found
    /\ is_finite (sum_numbers (map string_to_number found)) = true.
Proof.
  intros v found _ H.
  pose proof (numeric_substrings_finite v found H) as Hfin.
  split.
  { unfold numeric_substrings, match_global in H.
    destruct (match_all _ _ _); [discriminate|].
    injection H as <-. discriminate. }
  split; [now apply Forall_map in Hfin|].
  now apply sum_finite.
Qed.

Lemma numeric_substrings_sum_is_finite_witness :
  is_finite (sum_numbers (map string_to_number ["-1.5"; ".25"; "+3"])) = true.
Proof.
  assert (Hlen : (String.length "-1.5.25+3." <= 300)%nat)
    by (cbn [String.length]; lia).
  exact (proj2 (proj2 (numeric_substrings_sum_is_finite "-1.5.25+3."
                         ["-1.5"; ".25"; "+3"] Hlen eq_refl))).
Defined.

(** X10. Where a [NaN] can come from. [parseAdditionalCharges] and
    [parseActualTotal] return [NaN] only when one of their own entries
    is the text of a JSON object whose [amount] is truthy and is read by
    [Number] as [NaN]; no other value of an entry, and no entry of
    another key, makes them return [NaN]. The values are taken to have
    at most 300 characters, as for the sum of the numeric substrings. *)
Theorem parsers_nan_only_from_json :
  forall metafields : list metafield,
    (forall m, In m metafields -> (String.length (m_value m) <= 300)%nat) ->
    (isNaN (parseAdditionalCharges metafields) = true ->
     exists m a,
       In m metafields /\ is_additional_charges m = true
       /\ money_amount (m_value m) a /\ isNaN (to_number a) = true)
    /\ (isNaN (parseActualTotal metafields) = true ->
        exists m a,
          In m metafields /\ is_actual_total m = true
          /\ money_amount (m_value m) a /\ isNaN (to_number a) = true).
Proof.
  intros metafields _. split.
  - induction metafields as [|m rest IH]; [discriminate|].
    rewrite parseAdditionalCharges_cons.
    assert (Hrest : isNaN (parseAdditionalCharges rest) = true ->
                    exists m0 a,
                      In m0 (m :: rest) /\ is_additional_charges m0 = true
                      /\ money_amount (m_value m0) a
                      /\ isNaN (to_number a) = true).
    { intros H. destruct (IH H) as (m0 & a & Hin & Hrest).
      exists m0, a. split; [now right|exact Hrest]. }
    destruct (is_additional_charges m) eqn:Hm; [|exact Hrest].
    destruct (json_amount (m_value m)) as [n|] eqn:Hj.
    + intros Hn. apply json_amount_money in Hj.
      destruct Hj as (a & Ha & ->).
      exists m, a. split; [now left|]. auto.
    + destruct (isNaN (string_to_number (m_value m))) eqn:Hnum; cbn [negb].
      * destruct (numeric_substrings (m_value m)) as [found|] eqn:Hf;
          [|exact Hrest].
        intros Hn. exfalso.
        pose proof (sum_finite _ (numeric_substrings_finite _ _ Hf) zero
                      eq_refl) as Hfin.
        apply finite_not_NaN in Hfin. unfold sum_numbers in Hn. congruence.
      * intros Hn. congruence.
  - induction metafields as [|m rest IH]; [discriminate|].
    rewrite parseActualTotal_cons.
    destruct (is_actual_total m) eqn:Hm.
    + destruct (json_amount (m_value m)) as [n|] eqn:Hj.
      * intros Hn. apply json_amount_money in Hj.
        destruct Hj as (a & Ha & ->).
        exists m, a. split; [now left|]. auto.
      * destruct (isNaN (string_to_number (m_value m))) eqn:Hnum;
          intros Hn; [discriminate Hn|congruence].
    + intros H. destruct (IH H) as (m0 & a & Hin & Hrest).
      exists m0, a. split; [now right|exact Hrest].
Qed.

Lemma parsers_nan_only_from_json_witness :
  exists m a,
    In m [additional_entry (dq "{'amount':'N/A'}")]
    /\ is_additional_charges m = true
    /\ money_amount (m_value m) a /\ isNaN (to_number a) = true.
Proof.
  assert (Hlen : forall m,
            In m [additional_entry (dq "{'amount':'N/A'}")] ->
            (String.length (m_value m) <= 300)%nat).
  { intros m [<-|[]]. cbn. lia. }
  exact (proj1 (parsers_nan_only_from_json
                  [additional_entry (dq "{'amount':'N/A'}")] Hlen) eq_refl).
Defined.

(** *** The sign of the line sum *)

Lemma qc_ltb_lt (a b : Qc) : qc_ltb a b = true <-> (a < b)%Qc.
Proof.
  unfold qc_ltb. rewrite Qclt_alt.
  destruct (a ?= b)%Qc; split; intros H; try discriminate H; reflexivity.
Qed.

Lemma qc_ltb_ge (a b : Qc) : qc_ltb a b = false <-> (b <= a)%Qc.
Proof.
  split.
  - intros H. apply Qcnot_lt_le. intros Hlt. apply qc_ltb_lt in Hlt.
    congruence.
  - intros H. destruct (qc_ltb a b) eqn:Hlt; [|reflexivity].
    apply qc_ltb_lt in Hlt. now apply Qcle_not_lt in H.
Qed.

Lemma positive_cases (x : number) :
  gtb x zero = true -> x = PInf \/ exists q, x = Fin q /\ (0 < q)%Qc.
Proof.
  destruct x as [| | |q]; try discriminate; [now left|].
  intros H. right. exists q. split; [reflexivity|].
  now apply qc_ltb_lt.
Qed.

Lemma not_negative_cases (x : number) :
  leb zero x = true <-> x = PInf \/ exists q, x = Fin q /\ (0 <= q)%Qc.
Proof.
  destruct x as [| | |q]; simpl.
  - split; [discriminate|]. intros [H|(q & H & _)]; discriminate H.
  - split; [now left|reflexivity].
  - split; [discriminate|]. intros [H|(q & H & _)]; discriminate H.
  - rewrite negb_true_iff, qc_ltb_ge. split.
    + intros H. right. now exists q.
    + intros [H|(q' & H & Hle)]; [discriminate H|]. now injection H as <-.
Qed.

Lemma mul_positive (x y : number) :
  gtb x zero = true -> gtb y zero = true ->
  mul x y = PInf \/ exists q, mul x y = Fin q /\ (0 < q)%Qc.
Proof.
  intros Hx Hy.
  assert (Hinf : forall q, (0 < q)%Qc -> forall pos,
                   inf_times pos q = if pos then PInf else NInf).
  { intros q Hq pos. unfold inf_times.
    assert (Hz : qc_is_zero q = false).
    { destruct (qc_is_zero q) eqn:Hz; [|reflexivity].
      apply qc_is_zero_eq in Hz. subst q. now apply Qclt_not_eq in Hq. }
    rewrite Hz. apply qc_ltb_lt in Hq. rewrite Hq.
    now destruct pos. }
  apply positive_cases in Hx, Hy.
  destruct Hx as [-> |(a & -> & Ha)], Hy as [-> |(b & -> & Hb)]; simpl.
  - now left.
  - left. now rewrite Hinf.
  - left. now rewrite Hinf.
  - right. exists (a * b)%Qc. split; [reflexivity|].
    rewrite <- (Qcmult_0_l b). now apply Qcmult_lt_compat_r.
Qed.

Lemma add_not_negative (x y : number) :
  leb zero x = true -> leb zero y = true -> leb zero (add x y) = true.
Proof.
  intros Hx Hy. apply not_negative_cases in Hx, Hy.
  apply not_negative_cases.
  destruct Hx as [-> |(a & -> & Ha)], Hy as [-> |(b & -> & Hb)]; simpl;
    try (now left).
  right. exists (a + b)%Qc. split; [reflexivity|].
  rewrite <- (Qcplus_0_l 0). now apply Qcplus_le_compat.
Qed.

Lemma sum_not_negative (l : list number) :
  Forall (fun x => leb zero x = true) l ->
  forall a, leb zero a = true -> leb zero (fold_left add l a) = true.
Proof.
  induction 1 as [|x l Hx _ IH]; intros a Ha; simpl; [exact Ha|].
  apply IH. now apply add_not_negative.
Qed.

Lemma fulfilled_revenue_not_negative (fulfillments : list fulfillment) :
  leb zero (fulfilled_revenue fulfillments) = true.
Proof.
  unfold fulfilled_revenue, sum_numbers.
  apply sum_not_negative; [|reflexivity].
  apply Forall_map. apply Forall_forall. intros node Hin.
  apply filter_In in Hin. destruct Hin as [_ Hpos].
  unfold both_positive in Hpos. apply andb_true_iff in Hpos.
  destruct Hpos as [Hq Hp].
  apply not_negative_cases.
  destruct (mul_positive _ _ Hp Hq) as [-> |(q & -> & Hlt)]; [now left|].
  right. exists q. split; [reflexivity|]. now apply Qclt_le_weak.
Qed.

(** X11. When the metafield query and the fulfilment query of an order
    both answer, the line sum of its row is not negative and is no
    [NaN], whatever quantities and amounts the fulfilments carry: a line
    item is counted only when its quantity and its unit price are both
    above zero. *)
Theorem fulfilled_line_sum_is_not_negative :
  forall (up : upstream) (o : order) (tr : trace)
         (data : option (list metafield))
         (fulfillments : option (list fulfillment)),
    metafields_of up tr (o_id o) = Replied data ->
    fulfillments_of up (MetafieldsQuery (o_id o) :: tr) (o_id o)
    = Replied fulfillments ->
    leb zero (line_sum (fst (enrich up o tr))) = true
    /\ isNaN (line_sum (fst (enrich up o tr))) = false
    /\ ltb (line_sum (fst (enrich up o tr))) zero = false.
Proof.
  intros up o tr data fulfillments Hm Hf.
  assert (Hsum : line_sum (fst (enrich up o tr))
                 = match fulfillments with
                   | Some l => fulfilled_revenue l
                   | None => zero
                   end).
  { unfold enrich, bind, post_metafields, post_fulfillments, ret.
    rewrite Hm, Hf. cbn [fst enriched_row line_sum]. unfold line_sum_of.
    destruct fulfillments as [l|]; [|reflexivity].
    now rewrite fulfillment_steps. }
  assert (Hle : leb zero (line_sum (fst (enrich up o tr))) = true).
  { rewrite Hsum. destruct fulfillments as [l|]; [|reflexivity].
    apply fulfilled_revenue_not_negative. }
  split; [exact Hle|].
  destruct (line_sum (fst (enrich up o tr))) as [| | |q];
    try discriminate Hle; [now split|].
  split; [reflexivity|]. simpl in Hle. now apply negb_true_iff in Hle.
Qed.

Lemma fulfilled_line_sum_is_not_negative_witness :
  leb zero (line_sum (fst (enrich sample_upstream
                             (sample_order 1 "2024-01-05T10:00:00-05:00"
                                [sample_item "100.00" 1 0]) [])))
  = true.
Proof.
  exact (proj1 (fulfilled_line_sum_is_not_negative sample_upstream
                  (sample_order 1 "2024-01-05T10:00:00-05:00"
                     [sample_item "100.00" 1 0]) [] _ _ eq_refl eq_refl)).
Defined.

(** *** The range of the profit margin *)

(** What holds of the row of every order holds of the detail rows. *)
Lemma detail_rows_Forall (P : row -> Prop) (E : engine) (up : upstream)
    (req : report_request) (tr tr' : trace) (resp : response) :
  (forall o t, P (fst (enrich up o t))) ->
  report E up req tr = (Some resp, tr') ->
  forall r, In r (detail_of resp) -> P r.
Proof.
  intros HP Hrun r Hin. unfold detail_of in Hin.
  destruct (payload resp) eqn:Hp; try contradiction.
  destruct (report_inv _ _ _ _ _ _ _ _ _ _ _ _ Hrun Hp)
    as (cmin & cmax & orders & tr1 & groups & _ & _ & _ & Hrows & _).
  pose proof (enrich_all_Forall P up HP orders [] tr1 (Forall_nil _)) as HF.
  rewrite Hrows in HF. simpl in HF.
  rewrite Forall_forall in HF. now apply HF.
Qed.

Lemma margin_bounds (a b : Qc) :
  (0 < b)%Qc ->
  ((0 <= a)%Qc -> ((b + - a) / b * Q2Qc (inject_Z 100) <= Q2Qc (inject_Z 100))%Qc)
  /\ ((a <= b)%Qc -> (0 <= (b + - a) / b * Q2Qc (inject_Z 100))%Qc).
Proof.
  intros Hb.
  assert (Hne : b <> 0%Qc) by (intros ->; now apply Qclt_not_eq in Hb).
  assert (H100 : (0 <= Q2Qc (inject_Z 100))%Qc) by discriminate.
  split; intros Ha.
  - rewrite <- (Qcmult_1_l (Q2Qc (inject_Z 100))) at 2.
    apply Qcmult_le_compat_r; [|exact H100].
    apply (Qcmult_lt_0_le_reg_r _ _ b Hb).
    rewrite test_field by exact Hne. rewrite Qcmult_1_l.
    apply Qcle_minus_iff.
    replace (b + - (b + - a))%Qc with a by ring. exact Ha.
  - rewrite <- (Qcmult_0_l (Q2Qc (inject_Z 100))).
    apply Qcmult_le_compat_r; [|exact H100].
    apply (Qcmult_lt_0_le_reg_r _ _ b Hb).
    rewrite test_field by exact Hne. rewrite Qcmult_0_l.
    now apply Qcle_minus_iff in Ha.
Qed.

Lemma stated_margin_bounds (billing actual : number) :
  is_finite billing = true ->
  let margin :=
    if gtb billing zero
    then mul (div (sub billing actual) billing) (of_Z 100)
    else zero in
  (leb zero actual = true -> leb margin (of_Z 100) = true)
  /\ (leb actual billing = true -> leb zero margin = true).
Proof.
  intros Hb. destruct billing as [| | |b]; try discriminate Hb.
  cbv zeta. destruct (gtb (Fin b) zero) eqn:Hpos; [|now split].
  apply positive_cases in Hpos.
  destruct Hpos as [Hpos|(b' & Heq & Hlt)]; [discriminate Hpos|].
  injection Heq as <-.
  assert (Hz : qc_is_zero b = false).
  { destruct (qc_is_zero b) eqn:Hz; [|reflexivity].
    apply qc_is_zero_eq in Hz. subst b. now apply Qclt_not_eq in Hlt. }
  assert (Hneg : qc_ltb b (Q2Qc 0) = false)
    by (apply qc_ltb_ge; now apply Qclt_le_weak).
  destruct actual as [| | |a]; simpl; rewrite ?Hz, ?Hneg; simpl.
  - split; auto.
  - split; auto.
  - split; auto.
  - destruct (margin_bounds a b Hlt) as [H1 H2].
    rewrite !negb_true_iff, !qc_ltb_ge. split; intros H; auto.
Qed.

(** X12. The profit margin of a detail row whose billing amount is
    finite is at most 100 when the actual spend is not negative, and is
    not negative when the actual spend does not exceed the billing
    amount. *)
Theorem profit_margin_range :
  forall (E : engine) (up : upstream) (req : report_request)
         (tr tr' : trace) (resp : response),
    report E up req tr = (Some resp, tr') ->
    forall r,
      In r (detail_of resp) ->
      is_finite (billing_amount r) = true ->
      (leb zero (actual_spend r) = true ->
       leb (profit_margin r) (of_Z 100) = true)
      /\ (leb (actual_spend r) (billing_amount r) = true ->
          leb zero (profit_margin r) = true).
Proof.
  intros E up req tr tr' resp Hrun.
  apply (detail_rows_Forall
           (fun r => is_finite (billing_amount r) = true ->
              (leb zero (actual_spend r) = true ->
               leb (profit_margin r) (of_Z 100) = true)
              /\ (leb (actual_spend r) (billing_amount r) = true ->
                  leb zero (profit_margin r) = true))
           E up req tr tr' resp); [|exact Hrun].
  intros o t Hfin.
  destruct (enrich_profit_margin up o t) as (_ & Hok & Hfail).
  destruct (metafields_of up t (o_id o)) as [e|data] eqn:Hm.
  - rewrite (Hfail e eq_refl). now split.
  - rewrite (Hok data eq_refl). unfold stated_profit_margin.
    now apply stated_margin_bounds.
Qed.

Lemma profit_margin_range_witness :
  leb (profit_margin (nth_row 0)) (of_Z 100) = true
  /\ leb zero (profit_margin (nth_row 0)) = true.
Proof.
  assert (Hin : In (nth_row 0) (detail_of sample_response))
    by (vm_compute; left; reflexivity).
  assert (Hfin : is_finite (billing_amount (nth_row 0)) = true)
    by (vm_compute; reflexivity).
  destruct (profit_margin_range _ _ _ _ _ _ sample_run_eq _ Hin Hfin)
    as [H1 H2].
  split; [apply H1|apply H2]; vm_compute; reflexivity.
Defined.

(** *** The month of a row *)

(** X13. The month key of a date. It is absent exactly when the date
    cannot be read, which makes the report fail. For a date that is read,
    and whose year in UTC has four digits, it is the seven characters
    [YYYY-MM] of the year and the month, from 01 to 12, of the instant
    in UTC, not of the date as it is written with its offset. *)
Theorem month_key_of_a_date :
  forall (E : engine) (iso : string),
    (monthKey E iso = None <-> Date_parse E iso = None)
    /\ forall t y m d,
         Date_parse E iso = Some t ->
         civil_from_days (t / ms_per_day) = (y, m, d) ->
         0 <= y <= 9999 ->
         monthKey E iso = Some (pad 4 y ++ "-" ++ pad 2 m)%string
         /\ 1 <= m <= 12
         /\ String.length (pad 4 y ++ "-" ++ pad 2 m) = 7%nat.
Proof.
  intros E iso. split.
  - unfold monthKey, iso_of.
    destruct (Date_parse E iso); split; intros H; try discriminate H;
      reflexivity.
  - intros t y m d Ht Hc Hy.
    pose proof (month_key_is_utc_month E iso t y m d Ht Hc Hy) as Hkey.
    split; [exact Hkey|]. split; [exact (civil_month_range _ _ _ _ Hc)|].
    exact (monthKey_length E _ _ Hkey).
Qed.

Lemma month_key_of_a_date_witness :
  monthKey plain_engine "2024-01-31T23:30:00-05:00" = Some "2024-02".
Proof.
  assert (Hy : 0 <= 2024 <= 9999) by lia.
  exact (proj1 (proj2 (month_key_of_a_date plain_engine
                         "2024-01-31T23:30:00-05:00")
                  1706761800000 2024 2 1 eq_refl eq_refl Hy)).
Defined.

(** *** The order of the summary *)

Section SortFacts.

Context {A : Type} (cmp : A -> A -> comparison).

Hypothesis cmp_swap : forall a b, cmp a b = CompOpp (cmp b a).

Hypothesis cmp_trans :
  forall a b c, cmp a b <> Gt -> cmp b c <> Gt -> cmp a c <> Gt.

Lemma insert_by_sorted (x : A) (l : list A) :
  StronglySorted (fun a b => cmp a b <> Gt) l ->
  StronglySorted (fun a b => cmp a b <> Gt) (insert_by cmp x l).
Proof.
  induction 1 as [|y l Hl IH Hy]; simpl.
  - constructor; constructor.
  - destruct (cmp x y) eqn:Hxy.
    + constructor; [now constructor|]. constructor; [congruence|].
      eapply Forall_impl; [|exact Hy].
      intros z Hz. apply (cmp_trans x y z); congruence.
    + constructor; [now constructor|]. constructor; [congruence|].
      eapply Forall_impl; [|exact Hy].
      intros z Hz. apply (cmp_trans x y z); congruence.
    + constructor; [exact IH|].
      apply Forall_forall. intros z Hz.
      apply (Permutation_in _ (insert_by_perm cmp x l)) in Hz.
      destruct Hz as [<-|Hz].
      * rewrite cmp_swap, Hxy. discriminate.
      * rewrite Forall_forall in Hy. now apply Hy.
Qed.

Lemma sort_by_sorted (l : list A) :
  StronglySorted (fun a b => cmp a b <> Gt) (sort_by cmp l).
Proof.
  induction l as [|x l IH]; simpl; [constructor|].
  now apply insert_by_sorted.
Qed.

End SortFacts.

Lemma summary_order_spec (E : engine) (a b : summary_group) :
  summary_order E a b <> Gt <-> in_summary_order E a b.
Proof.
  unfold summary_order, in_summary_order.
  destruct (localeCompare E (month a) (month b)); split; intros H.
  - right. now split.
  - destruct H as [H|[_ H]]; [discriminate H|exact H].
  - now left.
  - discriminate.
  - now contradiction H.
  - destruct H as [H|[H _]]; discriminate H.
Qed.

Lemma summary_order_swap (E : engine) :
  (forall a b, localeCompare E a b = CompOpp (localeCompare E b a)) ->
  forall a b, summary_order E a b = CompOpp (summary_order E b a).
Proof.
  intros Hswap a b. unfold summary_order.
  rewrite (Hswap (month a) (month b)).
  destruct (localeCompare E (month b) (month a)); simpl;
    [apply Hswap|reflexivity|reflexivity].
Qed.

Lemma summary_order_trans (E : engine) :
  consistent (localeCompare E) ->
  forall a b c,
    summary_order E a b <> Gt -> summary_order E b c <> Gt ->
    summary_order E a c <> Gt.
Proof.
  intros [Hswap Htrans] a b c Hab Hbc.
  apply summary_order_spec in Hab, Hbc. apply summary_order_spec.
  unfold in_summary_order in *.
  assert (Hle : forall x y, localeCompare E x y = Lt
                            \/ localeCompare E x y = Eq
                            <-> localeCompare E x y <> Gt).
  { intros x y. destruct (localeCompare E x y); split; intros H;
      try discriminate; auto; try (destruct H; discriminate).
    now contradiction H. }
  assert (Hgt : forall x y, localeCompare E x y = Lt
                            <-> localeCompare E y x = Gt).
  { intros x y. rewrite (Hswap x y).
    destruct (localeCompare E y x); simpl; split; intros H;
      try discriminate; reflexivity. }
  assert (Hm : localeCompare E (month a) (month c) <> Gt).
  { apply (Htrans _ (month b)); apply Hle; tauto. }
  destruct (localeCompare E (month a) (month c)) eqn:Hac;
    [|now left|now contradiction Hm].
  right. split; [reflexivity|].
  assert (Hca : localeCompare E (month c) (month a) = Eq)
    by (rewrite Hswap, Hac; reflexivity).
  destruct Hab as [Hab|[Hab Hab']].
  { exfalso. apply Hgt in Hab. revert Hab.
    apply (Htrans _ (month c)); [apply Hle; tauto|congruence]. }
  destruct Hbc as [Hbc|[Hbc Hbc']].
  { exfalso. apply Hgt in Hbc. revert Hbc.
    apply (Htrans _ (month a)); [congruence|congruence]. }
  now apply (Htrans _ (customer b)).
Qed.

(** [String.compare] is consistent. *)
Lemma ascii_compare_lt_trans (a b c : ascii) :
  Ascii.compare a b = Lt -> Ascii.compare b c = Lt -> Ascii.compare a c = Lt.
Proof.
  unfold Ascii.compare. rewrite !N.compare_lt_iff. lia.
Qed.

Lemma string_compare_lt_trans (a : string) :
  forall b c,
    String.compare a b = Lt -> String.compare b c = Lt ->
    String.compare a c = Lt.
Proof.
  induction a as [|x a IH]; intros [|y b] [|z c]; simpl; try discriminate;
    try reflexivity.
  destruct (Ascii.compare x y) eqn:Hxy; try discriminate.
  - apply Ascii.compare_eq_iff in Hxy. subst y.
    destruct (Ascii.compare x z); try discriminate; [apply IH|reflexivity].
  - intros _. destruct (Ascii.compare y z) eqn:Hyz; try discriminate.
    + apply Ascii.compare_eq_iff in Hyz. subst z. now rewrite Hxy.
    + now rewrite (ascii_compare_lt_trans x y z Hxy Hyz).
Qed.

Lemma string_compare_consistent : consistent String.compare.
Proof.
  split; [exact String.compare_antisym|].
  intros a b c Hab Hbc.
  destruct (String.compare a b) eqn:H1; [| |now contradiction Hab].
  - apply String.compare_eq_iff in H1. now subst b.
  - destruct (String.compare b c) eqn:H2; [| |now contradiction Hbc].
    + apply String.compare_eq_iff in H2. subst c. rewrite H1. discriminate.
    + rewrite (string_compare_lt_trans a b c H1 H2). discriminate.
Qed.

(** X14. When the comparison of strings of the engine is consistent, the
    summary of a report is sorted by month and, among the groups of a
    month, by customer: every group comes no later than the groups that
    follow it. *)
Theorem summary_is_sorted :
  forall (E : engine) (up : upstream) (req : report_request)
         (tr tr' : trace) (resp : response),
    consistent (localeCompare E) ->
    report E up req tr = (Some resp, tr') ->
    StronglySorted (in_summary_order E) (summary_list_of resp).
Proof.
  intros E up req tr tr' resp Hcmp Hrun.
  unfold summary_list_of.
  destruct (payload resp) eqn:Hp; try constructor.
  destruct (report_body _ _ _ _ _ _ _ _ _ _ _ _ Hrun Hp)
    as (groups & _ & -> & _).
  unfold summary_of.
  pose proof (sort_by_sorted (summary_order E)
                (summary_order_swap E (proj1 Hcmp))
                (summary_order_trans E Hcmp)
                (map (fun kg => summarize (snd kg)) groups)) as Hsorted.
  induction Hsorted as [|a l Hl IH Ha]; constructor; [exact IH|].
  eapply Forall_impl; [|exact Ha].
  intros b Hb. now apply summary_order_spec.
Qed.

Lemma summary_is_sorted_witness :
  StronglySorted (in_summary_order plain_engine)
    (summary_list_of sample_response).
Proof.
  exact (summary_is_sorted plain_engine _ _ _ _ _ string_compare_consistent
           sample_run_eq).
Defined.

(** *** The names of the customers *)

Lemma Z_of_string_of_any_Z (z : Z) : Z_of_string (string_of_Z z) = Some z.
Proof.
  unfold Z_of_string, string_of_Z. rewrite NilZero.isi.
  - cbn [option_map]. now rewrite DecimalZ.of_to.
  - destruct z as [|p|p]; try discriminate.
    simpl. intros H. inversion H as [H1].
    now apply DecimalPos.Unsigned.to_uint_nonnil in H1.
  - destruct z as [|p|p]; try discriminate.
    simpl. intros H. inversion H as [H1].
    now apply DecimalPos.Unsigned.to_uint_nonnil in H1.
Qed.

Lemma string_of_id_inj (id1 id2 : option Z) :
  string_of_id id1 = string_of_id id2 -> id1 = id2.
Proof.
  destruct id1 as [z1|], id2 as [z2|]; simpl; intros H.
  - apply (f_equal Z_of_string) in H.
    rewrite !Z_of_string_of_any_Z in H. exact H.
  - apply (f_equal Z_of_string) in H.
    rewrite Z_of_string_of_any_Z in H. discriminate H.
  - apply (f_equal Z_of_string) in H.
    rewrite Z_of_string_of_any_Z in H. discriminate H.
  - reflexivity.
Qed.

Lemma customer_names_distinct :
  NoDup (map (fun e => fst (snd e)) customerInfo).
Proof.
  unfold customerInfo. cbn [map fst snd].
  repeat (constructor;
          [cbn [In]; intros H;
           repeat (destruct H as [H|H]; [discriminate H|]); exact H|]).
  constructor.
Qed.

Lemma customer_names_not_numbered :
  forallb (fun e => negb (String.prefix "Customer #" (fst (snd e))))
    customerInfo = true.
Proof. reflexivity. Qed.

Lemma prefix_append (a b : string) : String.prefix a (a ++ b) = true.
Proof.
  induction a as [|c a IH]; simpl; [now destruct b|].
  destruct (ascii_dec c c); [exact IH|contradiction].
Qed.

Lemma append_inj_l (a b c : string) :
  (a ++ b)%string = (a ++ c)%string -> b = c.
Proof.
  induction a as [|x a IH]; simpl; intros H; [exact H|].
  injection H as H. now apply IH.
Qed.

(** X15. The name of a customer. An identifier of the table gets the
    name the table gives it; any other, and the absent identifier, gets
    [Customer #] followed by the identifier, which no name of the table
    starts with. So two detail rows of a report have the same customer
    name exactly when they have the same customer identifier. *)
Theorem customer_name_identifies_customer :
  (forall id,
     String.prefix "Customer #" (getCustomerName id) = true
     <-> assoc (string_of_id id) customerInfo = None)
  /\ (forall id1 id2, getCustomerName id1 = getCustomerName id2 -> id1 = id2)
  /\ (forall (E : engine) (up : upstream) (req : report_request)
             (tr tr' : trace) (resp : response),
        report E up req tr = (Some resp, tr') ->
        forall r1 r2,
          In r1 (detail_of resp) -> In r2 (detail_of resp) ->
          (customer_name r1 = customer_name r2
           <-> customer_id r1 = customer_id r2)).
Proof.
  assert (Hknown : forall k info,
            assoc k customerInfo = Some info ->
            String.prefix "Customer #" (fst info) = false).
  { intros k info H. apply assoc_In in H.
    pose proof customer_names_not_numbered as Hall.
    rewrite forallb_forall in Hall. specialize (Hall _ H).
    now apply negb_true_iff in Hall. }
  assert (Hprefix : forall id,
            String.prefix "Customer #" (getCustomerName id) = true
            <-> assoc (string_of_id id) customerInfo = None).
  { intros id. unfold getCustomerName.
    destruct (assoc (string_of_id id) customerInfo) as [info|] eqn:Hid.
    - rewrite (Hknown _ _ Hid). split; discriminate.
    - split; [reflexivity|]. intros _. apply prefix_append. }
  assert (Hinj : forall id1 id2,
            getCustomerName id1 = getCustomerName id2 -> id1 = id2).
  { intros id1 id2 H.
    pose proof (Hprefix id1) as H1. pose proof (Hprefix id2) as H2.
    rewrite H in H1. unfold getCustomerName in H.
    destruct (assoc (string_of_id id1) customerInfo) as [info1|] eqn:Hid1,
             (assoc (string_of_id id2) customerInfo) as [info2|] eqn:Hid2.
    - apply string_of_id_inj. apply assoc_In in Hid1, Hid2.
      pose proof (NoDup_map_eq (fun e : string * (string * option string) =>
                                  fst (snd e))
                    customerInfo _ _ customer_names_distinct Hid1 Hid2 H)
        as Heq.
      now injection Heq.
    - discriminate (proj1 H1 (proj2 H2 eq_refl)).
    - discriminate (proj1 H2 (proj2 H1 eq_refl)).
    - apply string_of_id_inj. now apply append_inj_l in H. }
  split; [exact Hprefix|]. split; [exact Hinj|].
  intros E up req tr tr' resp Hrun r1 r2 Hin1 Hin2.
  assert (Hname : forall r, In r (detail_of resp) ->
                    customer_name r = getCustomerName (customer_id r)).
  { apply (detail_rows_Forall
             (fun r => customer_name r = getCustomerName (customer_id r))
             E up req tr tr' resp); [|exact Hrun].
    intros o t. unfold enrich, bind, post_metafields, post_fulfillments, ret.
    destruct (metafields_of up t (o_id o)); reflexivity. }
  rewrite (Hname _ Hin1), (Hname _ Hin2). split.
  - apply Hinj.
  - now intros ->.
Qed.

Lemma customer_name_identifies_customer_witness :
  customer_name (nth_row 0) = customer_name (nth_row 1)
  <-> customer_id (nth_row 0) = customer_id (nth_row 1).
Proof.
  assert (Hin1 : In (nth_row 0) (detail_of sample_response))
    by (vm_compute; left; reflexivity).
  assert (Hin2 : In (nth_row 1) (detail_of sample_response))
    by (vm_compute; right; left; reflexivity).
  exact (proj2 (proj2 customer_name_identifies_customer)
           _ _ _ _ _ _ sample_run_eq _ _ Hin1 Hin2).
Defined.

(** *** The metafield listing *)

Import Debug.




Lemma sub_zero_r (x : number) : sub x zero = x.
Proof.
  destruct x as [| | |q]; try reflexivity.
  unfold sub, zero. simpl. f_equal. ring.
Qed.

Lemma fold_left_add_map {A : Type} (f : A -> number) (l : list A) :
  forall acc,
    fold_left (fun sum x => add sum (f x)) l acc
    = fold_left add (map f l) acc.
Proof.
  induction l as [|x l IH]; intros acc; simpl; [reflexivity|]. apply IH.
Qed.

(** X17. For an order whose line items are all fully fulfilled, the sum
    of line items that the metafield listing shows is the line sum that
    the report gives the order when its metafield query fails. *)
Theorem listing_sum_of_a_fulfilled_order :
  forall (o : order) (lo : listed_order),
    lo_line_items lo = o_line_items o ->
    Forall (fun li => fully_fulfilled li = true) (line_items o) ->
    me_line_items_sum (entry_of lo) = line_sum (fallback_row o).
Proof.
  intros o lo Hitems Hall.
  unfold entry_of, fallback_row. cbn [me_line_items_sum line_sum].
  rewrite Hitems. fold (line_items o).
  rewrite line_item_steps_outer. unfold line_items_sum.
  rewrite (fold_left_add_map
             (fun li => mul (number_or (to_number (li_price li)) zero)
                          (number_or (to_number (li_quantity li)) zero))).
  rewrite filter_all.
  - f_equal. apply map_ext_in. intros li Hin.
    rewrite Forall_forall in Hall. specialize (Hall li Hin).
    unfold fully_fulfilled in Hall.
    apply andb_true_iff in Hall. destruct Hall as [Hall _].
    apply andb_true_iff in Hall. destruct Hall as [_ Hzero].
    apply number_eqb_eq in Hzero.
    unfold fulfilled_qty. rewrite Hzero, sub_zero_r. reflexivity.
  - eapply Forall_impl; [|exact Hall].
    intros li H. unfold fully_fulfilled in H.
    apply andb_true_iff in H. destruct H as [H Hpos].
    apply andb_true_iff in H. destruct H as [Hskip Hzero].
    apply number_eqb_eq in Hzero. rewrite Hskip, Hzero. exact Hpos.
Qed.

Lemma listing_sum_of_a_fulfilled_order_witness :
  me_line_items_sum
    (entry_of (listed (sample_order 1 "2024-01-05T10:00:00-05:00"
                         [sample_item "100.00" 1 0])))
  = line_sum (fallback_row (sample_order 1 "2024-01-05T10:00:00-05:00"
                              [sample_item "100.00" 1 0])).
Proof.
  apply listing_sum_of_a_fulfilled_order; [reflexivity|].
  constructor; [vm_compute; reflexivity|constructor].
Defined.

(** *** The requests that reach upstream *)

(** X18. When [POST /api/report] calls upstream. A request without one
    of its three fields, or with a metric that is neither [billing] nor
    [actual], is answered 400 before any call. A request with its fields
    whose start or end cannot be read as a date is answered 500 with the
    error [Invalid time value], before any call as well. Every other
    request reaches upstream, and its first request asks for the orders
    created between the two instants, in the UTC date-time format. *)
Theorem report_validation :
  forall (E : engine) (up : upstream) (req : report_request) (tr : trace),
    let well_formed :=
      negb (falsy (start req) || falsy (end_ req) || falsy (metric req))
      && (String.eqb (field (metric req)) "billing"
          || String.eqb (field (metric req)) "actual") in
    (well_formed = false ->
     exists msg, report E up req tr = (Some (bad_request msg), tr))
    /\ (well_formed = true ->
        iso_of E (field (start req)) = None
        \/ iso_of E (field (end_ req)) = None ->
        report E up req tr
        = (Some {| status := 500;
                   payload := ServerError (VStr "Invalid time value") 500
                                "Failed to generate report" |}, tr))
    /\ (forall created_at_min created_at_max,
          well_formed = true ->
          iso_of E (field (start req)) = Some created_at_min ->
          iso_of E (field (end_ req)) = Some created_at_max ->
          exists calls,
            snd (report E up req tr)
            = calls
              ++ GetOrders (order_params created_at_min created_at_max
                              (customerId req)) :: tr).
Proof.
  intros E up req tr well_formed. subst well_formed.
  split; [|split].
  - intros H. apply report_rejects_missing_fields.
    destruct (falsy (start req) || falsy (end_ req) || falsy (metric req));
      [reflexivity|].
    simpl in H. simpl. now rewrite H.
  - intros H Hdate. unfold report.
    destruct (falsy (start req) || falsy (end_ req) || falsy (metric req));
      [discriminate H|].
    simpl in H. rewrite H. cbn [negb].
    destruct Hdate as [Hd|Hd].
    + now rewrite Hd.
    + rewrite Hd. now destruct (iso_of E (field (start req))).
  - intros cmin cmax H Hmin Hmax. unfold report.
    destruct (falsy (start req) || falsy (end_ req) || falsy (metric req));
      [discriminate H|].
    simpl in H. rewrite H, Hmin, Hmax. cbn [negb].
    unfold bind, fetch_orders, max_requests.
    destruct (fetch_loop_first_request up
                (order_params cmin cmax (customerId req)) 40 None [] 0 tr)
      as (calls & Hcalls).
    destruct (fetch_loop 41 up _ None [] 0 tr) as [[[err|orders]|] tr1];
      simpl in Hcalls; subst tr1.
    + exists calls. reflexivity.
    + rewrite enrich_all_rows_from.
      destruct (rows_from_trace up orders
                  (calls ++ GetOrders
                     (request_params
                        (order_params cmin cmax (customerId req)) None)
                   :: tr)) as (more & Hmore).
      destruct (rows_from up orders _) as [rows tr2]. simpl in Hmore.
      subst tr2. exists (more ++ calls). cbn [app fst snd].
      destruct (group_rows E _ rows []); unfold ret; cbn [snd];
        now rewrite <- app_assoc.
    + exists calls. reflexivity.
Qed.

Lemma report_validation_witness :
  report plain_engine sample_upstream unreadable_request []
  = (Some {| status := 500;
             payload := ServerError (VStr "Invalid time value") 500
                          "Failed to generate report" |}, []).
Proof.
  apply (proj1 (proj2 (report_validation plain_engine sample_upstream
                         unreadable_request [])));
    [reflexivity|left; reflexivity].
Defined.

(** The cursor of the fetch loop. *)
Lemma fetch_loop_cursor (up : upstream) (params : list (string * string)) :
  forall fuel since_id orders totalFetched tr,
    exists calls,
      snd (fetch_loop fuel up params since_id orders totalFetched tr)
      = calls ++ tr
      /\ (calls = []
          \/ exists later,
               calls = later ++ [GetOrders (request_params params since_id)])
      /\ (forall after q2 q1 before,
            calls = after ++ GetOrders q2 :: GetOrders q1 :: before ->
            exists chunk o,
              orders_json up (before ++ tr) q1 = Replied (Some chunk)
              /\ (250 <= List.length chunk)%nat
              /\ last_of chunk = Some o
              /\ q2 = request_params params (Some (o_id o))).
Proof.
  induction fuel as [|fuel IH]; intros since_id orders totalFetched tr.
  - exists []. simpl. split; [reflexivity|]. split; [now left|].
    intros after q2 q1 before H. now destruct after.
  - rewrite fetch_loop_turn.
    set (q0 := request_params params since_id).
    assert (Hstop : forall res : option (reply (list order)),
              exists calls,
                snd (res, GetOrders q0 :: tr) = calls ++ tr
                /\ (calls = []
                    \/ exists later, calls = later ++ [GetOrders q0])
                /\ (forall after q2 q1 before,
                      calls = after ++ GetOrders q2 :: GetOrders q1 :: before ->
                      exists chunk o,
                        orders_json up (before ++ tr) q1
                        = Replied (Some chunk)
                        /\ (250 <= List.length chunk)%nat
                        /\ last_of chunk = Some o
                        /\ q2 = request_params params (Some (o_id o)))).
    { intros res. exists [GetOrders q0]. split; [reflexivity|].
      split; [right; now exists []|].
      intros after q2 q1 before H. exfalso.
      destruct after as [|a [|b after]]; discriminate H. }
    destruct (orders_json up tr q0) as [e0|data] eqn:Hq; [apply Hstop|].
    destruct (_ <? limit) eqn:Hshort; [apply Hstop|].
    destruct (10000 <? _); [apply Hstop|].
    match goal with
    | |- context [fetch_loop fuel up params ?s ?o ?t ?r] =>
        destruct (IH s o t r) as (calls & Hc & Hfirst & Hnext);
        destruct (fetch_loop fuel up params s o t r) as [res tr1]
    end.
    cbn [snd] in Hc. subst tr1.
    exists (calls ++ [GetOrders q0]). cbn [snd].
    split; [now rewrite <- app_assoc|].
    split; [right; now exists calls|].
    intros after q2 q1 before H.
    change (after ++ GetOrders q2 :: GetOrders q1 :: before)
      with (after ++ GetOrders q2 :: (GetOrders q1 :: before)) in H.
    apply snoc_split in H.
    destruct H as [(H & _)|(b & Hb & Hcalls)]; [discriminate H|].
    destruct b as [|c b].
    + simpl in Hb. injection Hb as <- ->.
      destruct data as [chunk|]; [|discriminate Hshort].
      apply Z.ltb_ge in Hshort. unfold limit in Hshort.
      assert (Hlen : (250 <= List.length chunk)%nat) by lia.
      destruct (last_of chunk) as [o|] eqn:Hlast.
      2:{ destruct chunk as [|x chunk]; [simpl in Hlen; lia|].
          exfalso. clear - Hlast. revert x Hlast.
          induction chunk as [|y chunk IHc]; intros x H; [discriminate H|].
          exact (IHc y H). }
      exists chunk, o. split; [exact Hq|]. split; [exact Hlen|].
      split; [exact Hlast|].
      destruct Hfirst as [Hnil|(later & Hlater)].
      * rewrite Hnil in Hcalls. now destruct after.
      * rewrite Hlater in Hcalls. apply app_inj_tail in Hcalls.
        destruct Hcalls as [_ Heq]. now injection Heq.
    + simpl in Hb. injection Hb as <- ->.
      destruct (Hnext _ _ _ _ Hcalls) as (chunk & o & Ho & Hlen & Hlast & Heq).
      exists chunk, o. rewrite <- app_assoc. auto.
Qed.

(** X19. The pages of the fetch loop follow a cursor. The first request
    of a handler carries no [since_id]; every later request comes after
    a full page, of 250 orders or more, and asks for the orders after
    the last order of that page: its parameters are those of the
    handler with [since_id] set to the identifier of that order. *)
Theorem fetch_loop_follows_the_cursor :
  forall (up : upstream) (created_at_min created_at_max : string)
         (customerId : option string) (tr : trace),
    let params := order_params created_at_min created_at_max customerId in
    exists later,
      snd (fetch_orders up params tr) = later ++ GetOrders params :: tr
      /\ assoc "since_id" params = None
      /\ forall after q2 q1 before,
           later ++ [GetOrders params]
           = after ++ GetOrders q2 :: GetOrders q1 :: before ->
           exists chunk o,
             orders_json up (before ++ tr) q1 = Replied (Some chunk)
             /\ (250 <= List.length chunk)%nat
             /\ last_of chunk = Some o
             /\ q2 = request_params params (Some (o_id o))
             /\ (o_id o <> 0 ->
                 assoc "since_id" q2 = Some (string_of_Z (o_id o))).
Proof.
  intros up cmin cmax cid tr params.
  unfold fetch_orders, max_requests.
  destruct (fetch_loop_cursor up params 41 None [] 0 tr)
    as (calls & Hc & Hfirst & Hnext).
  destruct (fetch_loop_first_request up params 40 None [] 0 tr)
    as (later & Hlater).
  change (request_params params None) with params in *.
  rewrite Hlater in Hc.
  change (later ++ GetOrders params :: tr)
    with (later ++ [GetOrders params] ++ tr) in Hc.
  rewrite app_assoc in Hc. apply app_inv_tail in Hc. subst calls.
  exists later. split; [exact Hlater|]. split.
  { unfold params, order_params. destruct (falsy cid); [reflexivity|].
    now rewrite assoc_set_param_other by discriminate. }
  intros after q2 q1 before H.
  destruct (Hnext _ _ _ _ H) as (chunk & o & Ho & Hlen & Hlast & ->).
  exists chunk, o. repeat (split; [assumption || reflexivity|]).
  intros Hid. unfold request_params.
  apply Z.eqb_neq in Hid. rewrite Hid. apply assoc_set_param.
Qed.

Lemma fetch_loop_follows_the_cursor_witness :
  exists later,
    snd (fetch_orders (paged_upstream (numbered 1 251))
           (order_params "2024-01-01T00:00:00.000Z"
              "2024-03-01T00:00:00.000Z" None) [])
    = later
      ++ [GetOrders (order_params "2024-01-01T00:00:00.000Z"
                       "2024-03-01T00:00:00.000Z" None)]
    /\ List.length later = 1%nat.
Proof.
  destruct (fetch_loop_follows_the_cursor (paged_upstream (numbered 1 251))
              "2024-01-01T00:00:00.000Z" "2024-03-01T00:00:00.000Z" None [])
    as (later & Hlater & _).
  exists later. split; [exact Hlater|].
  apply (f_equal (@List.length call)) in Hlater.
  rewrite length_app in Hlater. cbn [List.length] in Hlater.
  assert (Hn : List.length
                 (snd (fetch_orders (paged_upstream (numbered 1 251))
                         (order_params "2024-01-01T00:00:00.000Z"
                            "2024-03-01T00:00:00.000Z" None) []))
               = 2%nat) by (vm_compute; reflexivity).
  lia.
Defined.

(** *** The money format *)

Lemma parse_string_plain (s rest : string) :
  all_chars plain_char s = true ->
  parse_string (s ++ String dquote rest) = Some (s, rest).
Proof.
  induction s as [|c s IH]; intros H.
  - reflexivity.
  - simpl in H. apply andb_true_iff in H. destruct H as [Hc Hs].
    unfold plain_char in Hc.
    apply andb_true_iff in Hc. destruct Hc as [Hc H32].
    apply andb_true_iff in Hc. destruct Hc as [Hq Hb].
    apply negb_true_iff in Hq, Hb, H32.
    cbn [append parse_string]. rewrite Hq, Hb, H32, (IH Hs). reflexivity.
Qed.

(** A member whose key and value are strings of plain characters,
    followed by a comma or by the closing brace. *)
Lemma parse_member_plain (fuel : nat) (k v rest : string)
    (acc : list (string * value)) :
  all_chars plain_char k = true ->
  all_chars plain_char v = true ->
  parse_members (S (S fuel))
    (String dquote (k ++ String dquote (String ":"
       (String dquote (v ++ String dquote (String "," rest)))))) acc
  = parse_members (S fuel) rest ((k, VStr v) :: acc)
  /\ parse_members (S (S fuel))
       (String dquote (k ++ String dquote (String ":"
          (String dquote (v ++ String dquote (String "}" rest)))))) acc
     = Parsed (VObj (rev ((k, VStr v) :: acc))) rest.
Proof.
  intros Hk Hv.
  assert (Hq : is_json_space dquote = false) by reflexivity.
  assert (Hqq : Ascii.eqb dquote dquote = true) by reflexivity.
  assert (H1 : Ascii.eqb dquote "{" = false) by reflexivity.
  assert (H2 : Ascii.eqb dquote "[" = false) by reflexivity.
  split.
  - cbn [parse_members skip_ws]. rewrite Hq, Hqq.
    rewrite (parse_string_plain k _ Hk).
    cbn [skip_ws]. change (is_json_space ":") with false. cbv iota.
    change (Ascii.eqb ":" ":") with true. cbv iota.
    cbn [parse_value skip_ws]. rewrite Hq, H1, H2, Hqq.
    rewrite (parse_string_plain v _ Hv).
    cbn [skip_ws]. change (is_json_space ",") with false. cbv iota.
    change (Ascii.eqb "," ",") with true. cbv iota. reflexivity.
  - cbn [parse_members skip_ws]. rewrite Hq, Hqq.
    rewrite (parse_string_plain k _ Hk).
    cbn [skip_ws]. change (is_json_space ":") with false. cbv iota.
    change (Ascii.eqb ":" ":") with true. cbv iota.
    cbn [parse_value skip_ws]. rewrite Hq, H1, H2, Hqq.
    rewrite (parse_string_plain v _ Hv).
    cbn [skip_ws]. change (is_json_space "}") with false. cbv iota.
    change (Ascii.eqb "}" ",") with false.
    change (Ascii.eqb "}" "}") with true. cbv iota. reflexivity.
Qed.

Lemma JSON_parse_money (amount currency_code : string) :
  all_chars plain_char amount = true ->
  all_chars plain_char currency_code = true ->
  JSON_parse (money_text amount currency_code)
  = Some (VObj [("amount", VStr amount);
                ("currency_code", VStr currency_code)]).
Proof.
  intros Ha Hc. unfold JSON_parse.
  assert (Hfuel : (4 <= json_fuel (money_text amount currency_code))%nat).
  { unfold json_fuel, money_text. cbn [String.length]. lia. }
  destruct (json_fuel (money_text amount currency_code))
    as [|[|[|[|fuel]]]]; try lia.
  unfold money_text. cbn [parse_value skip_ws].
  change (is_json_space "{") with false. cbv iota.
  change (Ascii.eqb "{" "{") with true. cbv iota.
  assert (Hskip : forall r, skip_ws (String dquote r) = String dquote r)
    by reflexivity.
  rewrite Hskip. change (Ascii.eqb dquote "}") with false. cbv iota.
  rewrite (proj1 (parse_member_plain (S fuel) "amount" amount _ []
                    eq_refl Ha)).
  rewrite (proj2 (parse_member_plain fuel "currency_code" currency_code
                    EmptyString [("amount", VStr amount)] eq_refl Hc)).
  reflexivity.
Qed.

(** X20. The money format. For an entry whose value is the text of an
    object with an [amount] and a [currency_code], both strings of plain
    characters and the amount not empty, [parseAdditionalCharges] and
    [parseActualTotal] return what [Number] makes of the amount string,
    whatever entries follow. *)
Theorem money_format_is_read :
  forall (amount currency_code : string) (rest : list metafield),
    all_chars plain_char amount = true ->
    all_chars plain_char currency_code = true ->
    amount <> EmptyString ->
    parseAdditionalCharges
      (additional_entry (money_text amount currency_code) :: rest)
    = string_to_number amount
    /\ parseActualTotal
         (actual_entry (money_text amount currency_code) :: rest)
       = string_to_number amount.
Proof.
  intros amount currency_code rest Ha Hc Hne.
  assert (Hj : json_amount (money_text amount currency_code)
               = Some (string_to_number amount)).
  { unfold json_amount.
    replace (startsWith (money_text amount currency_code) "{") with true
      by reflexivity.
    rewrite (JSON_parse_money _ _ Ha Hc).
    cbn [prop lookup_last].
    change (String.eqb "amount" "currency_code") with false. cbv iota.
    rewrite String.eqb_refl. cbn [truthy to_number].
    destruct (String.eqb_spec amount EmptyString); [contradiction|].
    reflexivity. }
  rewrite parseAdditionalCharges_cons, parseActualTotal_cons.
  change (is_additional_charges (additional_entry _)) with true.
  change (is_actual_total (actual_entry _)) with true.
  cbn [m_value additional_entry actual_entry]. rewrite Hj. now split.
Qed.

Lemma money_format_is_read_witness :
  parseAdditionalCharges [additional_entry (money_text "15.50" "USD")]
  = string_to_number "15.50"
  /\ parseActualTotal [actual_entry (money_text "15.50" "USD")]
     = string_to_number "15.50".
Proof.
  apply money_format_is_read; [reflexivity|reflexivity|discriminate].
Defined.

(** *** The pages and the orders *)

Lemma pages_app (up : upstream) (tr : trace) (l1 l2 : list call) :
  pages up tr (l1 ++ l2) = pages up tr l2 ++ pages up (l2 ++ tr) l1.
Proof.
  induction l1 as [|c l1 IH]; simpl; [now rewrite app_nil_r|].
  now rewrite IH, <- !app_assoc.
Qed.

Lemma pages_none (up : upstream) (tr : trace) (calls : list call) :
  Forall (fun c => is_orders_call c = false) calls -> pages up tr calls = [].
Proof.
  induction 1 as [|c l Hc _ IH]; simpl; [reflexivity|].
  rewrite IH. destruct c; [discriminate Hc|reflexivity|reflexivity].
Qed.

(** The orders the fetch loop ends with are those it started with and
    the pages it was answered. *)
Lemma fetch_loop_pages (up : upstream) (params : list (string * string)) :
  forall fuel since_id orders totalFetched tr fetched tr',
    fetch_loop fuel up params since_id orders totalFetched tr
    = (Some (Replied fetched), tr') ->
    exists calls,
      tr' = calls ++ tr /\ fetched = orders ++ pages up tr calls.
Proof.
  induction fuel as [|fuel IH];
    intros since_id orders totalFetched tr fetched tr' H.
  - discriminate H.
  - rewrite fetch_loop_turn in H.
    set (q0 := request_params params since_id) in *.
    destruct (orders_json up tr q0) as [e0|data] eqn:Hq; [discriminate H|].
    assert (Hstop : (Some (Replied
                             (orders ++ match data with
                                        | Some l => l
                                        | None => []
                                        end)),
                     GetOrders q0 :: tr)
                    = (Some (Replied fetched), tr') ->
                    exists calls,
                      tr' = calls ++ tr
                      /\ fetched = orders ++ pages up tr calls).
    { intros H0. injection H0 as <- <-. exists [GetOrders q0].
      split; [reflexivity|]. cbn [pages page_of app]. rewrite Hq.
      now destruct data. }
    destruct (_ <? limit); [now apply Hstop|].
    destruct (10000 <? _); [now apply Hstop|].
    destruct (IH _ _ _ _ _ _ H) as (calls & -> & ->).
    exists (calls ++ [GetOrders q0]).
    split; [now rewrite <- app_assoc|].
    rewrite pages_app. cbn [pages page_of app]. rewrite Hq.
    rewrite <- app_assoc. now destruct data.
Qed.

(** X21. The orders are the pages. The orders that [GET /api/orders]
    returns are the pages that upstream answered its requests with, put
    one after the other in the order of the requests, and [count] is
    their number. The detail rows of a report are, one for one and in the
    same order, the rows of the orders of the pages answered to its
    requests. *)
Theorem fetched_orders_are_the_pages :
  forall (E : engine) (up : upstream) (tr tr' : trace) (resp : response),
    (forall (req : orders_request) (fetched : list order) (count : nat),
       list_orders E up req tr = (Some resp, tr') ->
       payload resp = OrdersBody fetched count ->
       exists calls,
         tr' = calls ++ tr
         /\ fetched = pages up tr calls
         /\ count = List.length fetched)
    /\ (forall (req : report_request) (summary : list summary_group)
               (detail : list row) (stats : analytics) (generatedAt : string)
               (totalRecords summaryRecords : nat),
          report E up req tr = (Some resp, tr') ->
          payload resp
          = ReportBody summary detail stats generatedAt totalRecords
              summaryRecords ->
          exists calls,
            tr' = calls ++ tr
            /\ map order_id detail = map o_id (pages up tr calls)).
Proof.
  intros E up tr tr' resp. split.
  - intros req fetched count Hrun Hp. unfold list_orders in Hrun.
    destruct (falsy (q_start req) || falsy (q_end req)).
    { injection Hrun as <- _. discriminate Hp. }
    destruct (Date_parse E (field (q_start req))) as [s|].
    2:{ injection Hrun as <- _. discriminate Hp. }
    destruct (Date_parse E (field (q_end req))) as [e|].
    2:{ injection Hrun as <- _. discriminate Hp. }
    destruct (e <=? s).
    { injection Hrun as <- _. discriminate Hp. }
    unfold bind in Hrun.
    destruct (fetch_orders up _ tr) as [res tr1] eqn:Hf.
    destruct res as [[err|orders]|]; [| |discriminate Hrun].
    + injection Hrun as <- _. discriminate Hp.
    + injection Hrun as <- <-. cbn [payload] in Hp.
      injection Hp as <- <-.
      destruct (fetch_loop_pages _ _ _ _ _ _ _ _ _ Hf) as (calls & -> & ->).
      exists calls. now repeat split.
  - intros req summary detail stats generatedAt n1 n2 Hrun Hp.
    destruct (report_run _ _ _ _ _ _ Hrun)
      as [(_ & [(msg & ->)| ->])|(cmin & cmax & _ & _ & Hcases)];
      try discriminate Hp.
    destruct Hcases
      as [(e & _ & ->)|(orders & tr1 & rows & Hfetch & Hr & Hres)];
      [discriminate Hp|].
    destruct Hres as [(_ & ->)|(groups & _ & ->)]; [discriminate Hp|].
    cbn [payload] in Hp. injection Hp as _ <- _ _ _ _.
    destruct (fetch_loop_pages _ _ _ _ _ _ _ _ _ Hfetch)
      as (fcalls & -> & ->).
    destruct (rows_from_protocol up ([] ++ pages up tr fcalls) (fcalls ++ tr))
      as (ecalls & He & Hno & _).
    pose proof (rows_from_ids up ([] ++ pages up tr fcalls) (fcalls ++ tr))
      as Hids.
    rewrite Hr in He, Hids. cbn [fst snd] in He, Hids. subst tr'.
    exists (ecalls ++ fcalls). split; [now rewrite <- app_assoc|].
    rewrite pages_app, (pages_none _ _ _ Hno), app_nil_r. exact Hids.
Qed.

Lemma fetched_orders_are_the_pages_witness :
  exists calls,
    sample_trace = calls ++ []
    /\ map order_id (detail_of sample_response)
       = map o_id (pages sample_upstream [] calls).
Proof.
  assert (Hp : payload sample_response
               = ReportBody (summary_list_of sample_response)
                   (detail_of sample_response)
                   (analytics_of (summary_list_of sample_response))
                   (toISOString (clock plain_engine)) 3 2)
    by (vm_compute; reflexivity).
  exact (proj2 (fetched_orders_are_the_pages plain_engine sample_upstream
                  [] sample_trace sample_response)
           _ _ _ _ _ _ _ sample_run_eq Hp).
Defined.

(** *** The runs of [GET /api/orders] *)

(** X22. A run of [GET /api/orders] makes order requests only, at most
    41 of them. A rejected request is the last of the run: the orders of
    the pages before are not returned, and the answer carries the status
    of the upstream answer, 500 when there is none, the upstream errors,
    the message of the error when there are none, and the message
    [Failed to fetch orders]. *)
Theorem listing_run :
  forall (E : engine) (up : upstream) (req : orders_request)
         (tr tr' : trace) (resp : response),
    list_orders E up req tr = (Some resp, tr') ->
    exists calls,
      tr' = calls ++ tr
      /\ Forall (fun c => is_orders_call c = true) calls
      /\ (List.length calls <= 41)%nat
      /\ forall after q before e,
           calls = after ++ GetOrders q :: before ->
           orders_json up (before ++ tr) q = Failed e ->
           after = []
           /\ status resp
              = match err_status e with
                | Some z => if z =? 0 then 500 else z
                | None => 500
                end
           /\ payload resp
              = ServerError
                  (if truthy (err_errors e) then err_errors e
                   else VStr (err_message e))
                  (status resp) "Failed to fetch orders".
Proof.
  intros E up req tr tr' resp Hrun. unfold list_orders in Hrun.
  assert (Hnone : (Some resp, tr') = (Some resp, tr) ->
                  exists calls,
                    tr = calls ++ tr
                    /\ Forall (fun c => is_orders_call c = true) calls
                    /\ (List.length calls <= 41)%nat
                    /\ forall after q before e,
                         calls = after ++ GetOrders q :: before ->
                         orders_json up (before ++ tr) q = Failed e ->
                         after = []
                         /\ status resp
                            = match err_status e with
                              | Some z => if z =? 0 then 500 else z
                              | None => 500
                              end
                         /\ payload resp
                            = ServerError
                                (if truthy (err_errors e) then err_errors e
                                 else VStr (err_message e))
                                (status resp) "Failed to fetch orders").
  { intros _. exists []. split; [reflexivity|]. split; [constructor|].
    split; [simpl; lia|]. intros after q before e H. now destruct after. }
  destruct (falsy (q_start req) || falsy (q_end req)).
  { injection Hrun as <- <-. now apply Hnone. }
  destruct (Date_parse E (field (q_start req))) as [s|].
  2:{ injection Hrun as <- <-. now apply Hnone. }
  destruct (Date_parse E (field (q_end req))) as [e|].
  2:{ injection Hrun as <- <-. now apply Hnone. }
  destruct (e <=? s).
  { injection Hrun as <- <-. now apply Hnone. }
  clear Hnone. unfold bind in Hrun.
  destruct (fetch_orders_calls up
              (order_params (toISOString s) (toISOString e)
                 (q_customerId req)) tr) as (calls & Hc & Hlen & Hall & Hrej).
  destruct (fetch_orders up _ tr) as [res tr1].
  cbn [fst snd] in Hc, Hrej. subst tr1.
  assert (Hcalls : Forall (fun c => is_orders_call c = true) calls).
  { eapply Forall_impl; [|exact Hall]. intros c (q & -> & _). reflexivity. }
  destruct res as [[err|orders]|]; [| |discriminate Hrun];
    injection Hrun as <- <-; exists calls;
    (split; [reflexivity|]); (split; [exact Hcalls|]);
    (split; [exact Hlen|]); intros after q before e0 H Hq;
    destruct (Hrej _ _ _ _ H Hq) as (-> & He); [|discriminate He].
  injection He as ->. now repeat split.
Qed.

Lemma listing_run_witness :
  exists calls,
    [GetOrders (order_params "2024-01-01T00:00:00.000Z"
                  "2024-03-01T00:00:00.000Z" (Some "8688802627863"))]
    = calls ++ []
    /\ Forall (fun c => is_orders_call c = true) calls
    /\ (List.length calls <= 41)%nat.
Proof.
  assert (Hrun : list_orders plain_engine failing_upstream sample_query []
                 = (Some (error_response sample_failure
                            "Failed to fetch orders"),
                    [GetOrders (order_params "2024-01-01T00:00:00.000Z"
                                  "2024-03-01T00:00:00.000Z"
                                  (Some "8688802627863"))]))
    by (vm_compute; reflexivity).
  destruct (listing_run _ _ _ _ _ _ Hrun) as (calls & H1 & H2 & H3 & _).
  exists calls. auto.
Defined.

(** X23. The listing and the report agree. For the same bounds and the
    same customer, read as two dates in order, and the same answers of
    upstream, [GET /api/orders] and [POST /api/report] send the same
    order requests, and the detail rows of the report are the rows of
    the orders that the listing returns, in the same order. *)
Theorem listing_and_report_agree :
  forall (E : engine) (up : upstream) (tr : trace)
         (query : orders_request) (req : report_request)
         (listing answer : response) (tr1 tr2 : trace)
         (fetched : list order) (count : nat)
         (summary : list summary_group) (detail : list row)
         (stats : analytics) (generatedAt : string)
         (totalRecords summaryRecords : nat),
    start req = q_start query ->
    end_ req = q_end query ->
    customerId req = q_customerId query ->
    list_orders E up query tr = (Some listing, tr1) ->
    payload listing = OrdersBody fetched count ->
    report E up req tr = (Some answer, tr2) ->
    payload answer
    = ReportBody summary detail stats generatedAt totalRecords
        summaryRecords ->
    map order_id detail = map o_id fetched
    /\ exists queries,
         tr2 = queries ++ tr1 /\ order_queries queries = [].
Proof.
  intros E up tr query req listing answer tr1 tr2 fetched count summary
    detail stats generatedAt n1 n2 Hs He Hc Hlist Hlp Hrun Hp.
  unfold list_orders in Hlist.
  destruct (falsy (q_start query) || falsy (q_end query)).
  { injection Hlist as <- _. discriminate Hlp. }
  destruct (Date_parse E (field (q_start query))) as [s|] eqn:Hds.
  2:{ injection Hlist as <- _. discriminate Hlp. }
  destruct (Date_parse E (field (q_end query))) as [e|] eqn:Hde.
  2:{ injection Hlist as <- _. discriminate Hlp. }
  destruct (e <=? s).
  { injection Hlist as <- _. discriminate Hlp. }
  unfold bind in Hlist.
  destruct (fetch_orders up _ tr) as [res trf] eqn:Hf.
  destruct res as [[err|orders]|]; [| |discriminate Hlist].
  { injection Hlist as <- _. discriminate Hlp. }
  injection Hlist as <- <-. cbn [payload] in Hlp. injection Hlp as <- _.
  destruct (report_run _ _ _ _ _ _ Hrun)
    as [(_ & [(msg & ->)| ->])|(cmin & cmax & Hmin & Hmax & Hcases)];
    try discriminate Hp.
  unfold iso_of in Hmin, Hmax. rewrite Hs, Hds in Hmin.
  rewrite He, Hde in Hmax. injection Hmin as <-. injection Hmax as <-.
  rewrite Hc, Hf in Hcases.
  destruct Hcases
    as [(e0 & H0 & _)|(orders' & tr1' & rows & Hfetch & Hr & Hres)];
    [discriminate H0|].
  injection Hfetch as <- <-.
  destruct Hres as [(_ & ->)|(groups & _ & ->)]; [discriminate Hp|].
  cbn [payload] in Hp. injection Hp as _ <- _ _ _ _.
  destruct (rows_from_protocol up orders trf) as (ecalls & Hec & Hno & _).
  pose proof (rows_from_ids up orders trf) as Hids.
  rewrite Hr in Hec, Hids. cbn [fst snd] in Hec, Hids.
  split; [exact Hids|].
  exists ecalls. split; [exact Hec|]. now apply order_queries_none.
Qed.

Lemma listing_and_report_agree_witness :
  map order_id (detail_of sample_response) = map o_id sample_orders.
Proof.
  assert (Hlist : list_orders plain_engine sample_upstream
                    {| q_start := start sample_request;
                       q_end := end_ sample_request;
                       q_customerId := customerId sample_request |} []
                  = (Some {| status := 200;
                             payload := OrdersBody sample_orders 3 |},
                     [GetOrders (order_params "2024-01-01T00:00:00.000Z"
                                   "2024-03-01T00:00:00.000Z" None)]))
    by (vm_compute; reflexivity).
  assert (Hp : payload sample_response
               = ReportBody (summary_list_of sample_response)
                   (detail_of sample_response)
                   (analytics_of (summary_list_of sample_response))
                   (toISOString (clock plain_engine)) 3 2)
    by (vm_compute; reflexivity).
  exact (proj1 (listing_and_report_agree plain_engine sample_upstream []
                  {| q_start := start sample_request;
                     q_end := end_ sample_request;
                     q_customerId := customerId sample_request |}
                  sample_request _ _ _ _ _ _ _ _ _ _ _ _
                  eq_refl eq_refl eq_refl Hlist eq_refl sample_run_eq Hp)).
Defined.

(** *** The metric *)

Lemma same_but_amount_cons (k1 k2 : string) (g1 g2 : group)
    (G1 G2 : list (string * group)) :
  same_but_amount ((k1, g1) :: G1) ((k2, g2) :: G2) <->
  k1 = k2 /\ group_without_amount g1 = group_without_amount g2
  /\ same_but_amount G1 G2.
Proof.
  unfold same_but_amount. cbn [map fst snd]. split.
  - intros H. split.
    { exact (f_equal (fun l : list (string * group) =>
                        match l with p :: _ => fst p | [] => k1 end) H). }
    split.
    { exact (f_equal (fun l : list (string * group) =>
                        match l with
                        | p :: _ => snd p
                        | [] => group_without_amount g1
                        end) H). }
    exact (f_equal (@tl _) H).
  - intros (-> & Hg & H). now rewrite Hg, H.
Qed.

Lemma same_but_amount_assoc (k : string) :
  forall G1 G2,
    same_but_amount G1 G2 ->
    option_map group_without_amount (assoc k G1)
    = option_map group_without_amount (assoc k G2).
Proof.
  induction G1 as [|[k1 g1] G1 IH]; intros [|[k2 g2] G2] H;
    try discriminate H; [reflexivity|].
  apply same_but_amount_cons in H. destruct H as (<- & Hg & H).
  simpl. destruct (String.eqb k k1).
  - simpl. now rewrite Hg.
  - now apply IH.
Qed.

Lemma same_but_amount_set (k : string) (g : group) :
  forall G1 G2,
    same_but_amount G1 G2 ->
    same_but_amount (map_set k g G1) (map_set k g G2).
Proof.
  induction G1 as [|[k1 g1] G1 IH]; intros [|[k2 g2] G2] H;
    try discriminate H; [reflexivity|].
  apply same_but_amount_cons in H. destruct H as (<- & Hg & H).
  simpl. destruct (String.eqb k k1); apply same_but_amount_cons; auto.
Qed.

Lemma same_but_amount_update (k : string) (f1 f2 : group -> group) :
  (forall g1 g2,
     group_without_amount g1 = group_without_amount g2 ->
     group_without_amount (f1 g1) = group_without_amount (f2 g2)) ->
  forall G1 G2,
    same_but_amount G1 G2 ->
    same_but_amount (map_update k f1 G1) (map_update k f2 G2).
Proof.
  intros Hf.
  induction G1 as [|[k1 g1] G1 IH]; intros [|[k2 g2] G2] H;
    try discriminate H; [reflexivity|].
  apply same_but_amount_cons in H. destruct H as (<- & Hg & H).
  simpl. destruct (String.eqb k k1); apply same_but_amount_cons; auto.
Qed.

Lemma same_but_amount_step (m1 m2 : string) (r : row) (month : string) :
  forall G1 G2,
    same_but_amount G1 G2 ->
    same_but_amount (group_step m1 G1 r month) (group_step m2 G2 r month).
Proof.
  intros G1 G2 H. unfold group_step.
  apply same_but_amount_update.
  - intros g1 g2 Hg. unfold group_without_amount in *. cbn [add_row
      g_customer g_month g_orders g_amount g_order_numbers g_total_billing
      g_total_actual g_avg_profit_margin].
    injection Hg as H1 H2 H3 H4 H5 H6 H7.
    now rewrite H1, H2, H3, H4, H5, H6, H7.
  - pose proof (same_but_amount_assoc (group_key r month) _ _ H) as Ha.
    unfold map_has.
    destruct (assoc (group_key r month) G1), (assoc (group_key r month) G2);
      try discriminate Ha; cbn [negb]; [exact H|].
    now apply same_but_amount_set.
Qed.

Lemma same_but_amount_rows (E : engine) (m1 m2 : string) :
  forall rows G1 G2,
    same_but_amount G1 G2 ->
    match group_rows E m1 rows G1, group_rows E m2 rows G2 with
    | Some G1', Some G2' => same_but_amount G1' G2'
    | None, None => True
    | _, _ => False
    end.
Proof.
  induction rows as [|r rows IH]; intros G1 G2 H; cbn [group_rows].
  - exact H.
  - destruct (monthKey E (order_date r)) as [month|]; [|exact I].
    apply IH. now apply same_but_amount_step.
Qed.

Lemma insert_by_map {A : Type} (cmp : A -> A -> comparison) (f : A -> A) :
  (forall a b, cmp (f a) (f b) = cmp a b) ->
  forall x l, map f (insert_by cmp x l) = insert_by cmp (f x) (map f l).
Proof.
  intros Hf x l. induction l as [|y l IH]; simpl; [reflexivity|].
  rewrite Hf. destruct (cmp x y); simpl; try reflexivity. now rewrite IH.
Qed.

Lemma sort_by_map {A : Type} (cmp : A -> A -> comparison) (f : A -> A) :
  (forall a b, cmp (f a) (f b) = cmp a b) ->
  forall l, map f (sort_by cmp l) = sort_by cmp (map f l).
Proof.
  intros Hf l. induction l as [|x l IH]; simpl; [reflexivity|].
  unfold sort_by in *. simpl. now rewrite insert_by_map, IH.
Qed.

Lemma summary_without_amount (E : engine) (G1 G2 : list (string * group)) :
  same_but_amount G1 G2 ->
  map without_amount (summary_of E G1) = map without_amount (summary_of E G2).
Proof.
  intros H. unfold summary_of.
  rewrite !(sort_by_map (summary_order E) without_amount)
    by reflexivity.
  f_equal. rewrite !map_map.
  apply (f_equal (map (fun kg : string * group =>
                         without_amount (summarize (snd kg))))) in H.
  rewrite !map_map in H. exact H.
Qed.

Lemma analytics_without_revenue (l1 l2 : list summary_group) :
  map without_amount l1 = map without_amount l2 ->
  without_revenue (analytics_of l1) = without_revenue (analytics_of l2).
Proof.
  intros H.
  assert (Hlen : List.length l1 = List.length l2)
    by (rewrite <- (length_map without_amount l1), H; apply length_map).
  assert (Ho : map orders l1 = map orders l2).
  { apply (f_equal (map orders)) in H. now rewrite !map_map in H. }
  assert (Hc : map customer l1 = map customer l2).
  { apply (f_equal (map customer)) in H. now rewrite !map_map in H. }
  assert (Hm : map group_profit_margin l1 = map group_profit_margin l2).
  { apply (f_equal (map group_profit_margin)) in H.
    now rewrite !map_map in H. }
  assert (Hfold : forall l a,
            fold_left (fun sum g => add sum (group_profit_margin g)) l a
            = fold_left add (map group_profit_margin l) a).
  { induction l as [|g l IH]; intros a; simpl; [reflexivity|]. apply IH. }
  unfold without_revenue, analytics_of.
  cbn [totalOrders uniqueCustomers avgProfitMargin].
  rewrite !fold_left_orders, Ho, Hc. f_equal.
  destruct l1 as [|a l1], l2 as [|b l2]; try discriminate Hlen;
    [reflexivity|].
  rewrite !Hfold, Hm, Hlen. reflexivity.
Qed.

(** X24. The metric changes the amounts only. For the same request but
    for its metric, [billing] or [actual], and the same answers of
    upstream, the two runs make the same calls and answer with the same
    status and the same detail rows; their summaries have the same
    groups, in the same order, with the same figures but for [amount];
    and their overall figures differ in the total revenue only. *)
Theorem metric_changes_the_amount_only :
  forall (E : engine) (up : upstream) (req : report_request) (tr : trace)
         (billing actual : response) (tr1 tr2 : trace),
    report E up (with_metric "billing" req) tr = (Some billing, tr1) ->
    report E up (with_metric "actual" req) tr = (Some actual, tr2) ->
    tr1 = tr2
    /\ status billing = status actual
    /\ detail_of billing = detail_of actual
    /\ map without_amount (summary_list_of billing)
       = map without_amount (summary_list_of actual)
    /\ option_map without_revenue (analytics_from billing)
       = option_map without_revenue (analytics_from actual).
Proof.
  intros E up req tr billing actual tr1 tr2 Hb Ha.
  unfold report in Hb, Ha.
  cbn [with_metric start end_ metric customerId field] in Hb, Ha.
  change (falsy (Some "billing")) with false in Hb.
  change (falsy (Some "actual")) with false in Ha.
  rewrite !orb_false_r in Hb, Ha.
  destruct (falsy (start req) || falsy (end_ req)).
  { injection Hb as <- <-. injection Ha as <- <-. now repeat split. }
  change (negb (String.eqb "billing" "billing"
                || String.eqb "billing" "actual")) with false in Hb.
  change (negb (String.eqb "actual" "billing"
                || String.eqb "actual" "actual")) with false in Ha.
  cbv iota in Hb, Ha.
  destruct (iso_of E (field (start req))) as [cmin|].
  2:{ injection Hb as <- <-. injection Ha as <- <-. now repeat split. }
  destruct (iso_of E (field (end_ req))) as [cmax|].
  2:{ injection Hb as <- <-. injection Ha as <- <-. now repeat split. }
  unfold bind in Hb, Ha.
  destruct (fetch_orders up _ tr) as [res trf].
  destruct res as [[err|orders]|]; [| |discriminate Hb].
  { injection Hb as <- <-. injection Ha as <- <-. now repeat split. }
  destruct (enrich_all up orders [] trf) as [rows tre].
  pose proof (same_but_amount_rows E "billing" "actual" rows [] []
                eq_refl) as Hsame.
  destruct (group_rows E "billing" rows []) as [G1|],
           (group_rows E "actual" rows []) as [G2|];
    try contradiction.
  - injection Hb as <- <-. injection Ha as <- <-.
    pose proof (summary_without_amount E G1 G2 Hsame) as Hsum.
    split; [reflexivity|]. split; [reflexivity|]. split; [reflexivity|].
    split; [exact Hsum|].
    unfold analytics_from. cbn [payload option_map]. f_equal.
    now apply analytics_without_revenue.
  - injection Hb as <- <-. injection Ha as <- <-. now repeat split.
Qed.

Lemma metric_changes_the_amount_only_witness :
  detail_of sample_response
  = detail_of
      match fst (report plain_engine sample_upstream
                   (with_metric "actual" sample_request) []) with
      | Some resp => resp
      | None => bad_request EmptyString
      end.
Proof.
  assert (Ha : report plain_engine sample_upstream
                 (with_metric "actual" sample_request) []
               = (Some match fst (report plain_engine sample_upstream
                                    (with_metric "actual" sample_request) [])
                       with
                       | Some resp => resp
                       | None => bad_request EmptyString
                       end,
                  snd (report plain_engine sample_upstream
                         (with_metric "actual" sample_request) [])))
    by (vm_compute; reflexivity).
  exact (proj1 (proj2 (proj2
           (metric_changes_the_amount_only plain_engine sample_upstream
              sample_request [] _ _ _ _ sample_run_eq Ha)))).
Defined.

(** *** The empty report *)

Lemma round2_zero : round2 zero = zero.
Proof. apply number_eqb_eq. vm_compute. reflexivity. Qed.

(** X25. A range without orders. When the first page that upstream
    answers is empty or absent, a request with its fields and two dates
    that can be read is answered 200 after that one request, with no
    group, no row, and figures that are all zero. *)
Theorem empty_report :
  forall (E : engine) (up : upstream) (req : report_request) (tr : trace)
         (created_at_min created_at_max : string),
    falsy (start req) || falsy (end_ req) || falsy (metric req) = false ->
    String.eqb (field (metric req)) "billing"
    || String.eqb (field (metric req)) "actual" = true ->
    iso_of E (field (start req)) = Some created_at_min ->
    iso_of E (field (end_ req)) = Some created_at_max ->
    (orders_json up tr
       (order_params created_at_min created_at_max (customerId req))
     = Replied None
     \/ orders_json up tr
          (order_params created_at_min created_at_max (customerId req))
        = Replied (Some [])) ->
    report E up req tr
    = (Some {| status := 200;
               payload :=
                 ReportBody [] []
                   {| totalRevenue := zero;
                      totalOrders := 0;
                      uniqueCustomers := 0;
                      avgProfitMargin := zero |}
                   (toISOString (clock E)) 0 0 |},
       GetOrders (order_params created_at_min created_at_max
                    (customerId req)) :: tr).
Proof.
  intros E up req tr cmin cmax Hfields Hmetric Hmin Hmax Hpage.
  unfold report. rewrite Hfields, Hmetric, Hmin, Hmax. cbn [negb].
  unfold bind, fetch_orders, max_requests.
  change 41%nat with (S 40). rewrite fetch_loop_turn.
  change (request_params (order_params cmin cmax (customerId req)) None)
    with (order_params cmin cmax (customerId req)).
  destruct Hpage as [-> | ->]; cbn [List.length Z.of_nat app];
    change (0 <? limit) with true; cbv iota;
    cbn [enrich_all ret group_rows summary_of map sort_by fold_right];
    unfold ret, analytics_of; cbn [fold_left List.length nodup map];
    rewrite round2_zero; reflexivity.
Qed.

Lemma empty_report_witness :
  status
    match fst (report plain_engine (paged_upstream []) sample_request []) with
    | Some resp => resp
    | None => bad_request EmptyString
    end
  = 200.
Proof.
  rewrite (empty_report plain_engine (paged_upstream []) sample_request []
             "2024-01-01T00:00:00.000Z" "2024-03-01T00:00:00.000Z"
             eq_refl eq_refl eq_refl eq_refl (or_intror eq_refl)).
  reflexivity.
Defined.
